(** * jest-mock: metadata extraction, mock generation and the mock-function
    runtime of [packages/jest-mock/src/index.js], as a shallow embedding.

    The JavaScript heap is explicit: an object is a record with the tag
    that [Object.prototype.toString] reports, a prototype link, an ordered
    list of own properties and, for callables, the code it runs.  Functions
    of the module that mutate objects pass the heap along; functions that can
    raise return an [outcome].

    What the embedding leaves out is said where it is left out:
    - numbers are integers;
    - an accessor property is a getter with a fixed result and no setter, and
      an assignment always defines an own data property;
    - own properties are enumerated in list order (the engine's reordering of
      integer-like keys is not modelled);
    - user-supplied functions ([Native]) read the heap but do not change it. *)

From Stdlib Require Import ZArith String Ascii List Bool Lia.
From stdpp Require Import base option list strings gmap.

Local Open Scope string_scope.
Local Open Scope list_scope.
Local Open Scope Z_scope.
Local Open Scope nat_scope.

(** ** Values *)

Abbreviation loc := nat.

Inductive value :=
| VUndef
| VNull
| VBool (b : bool)
| VNum (n : Z)
| VStr (s : string)
| VRef (l : loc).

#[global] Instance value_eq_dec : EqDecision value.
Proof. solve_decision. Defined.

(** [a === b]; also the key comparison of [Map] (there is no NaN here). *)
Definition strict_equals (a b : value) : bool :=
  match a, b with
  | VUndef, VUndef => true
  | VNull, VNull => true
  | VBool x, VBool y => Bool.eqb x y
  | VNum x, VNum y => Z.eqb x y
  | VStr x, VStr y => String.eqb x y
  | VRef x, VRef y => Nat.eqb x y
  | _, _ => false
  end.

(** ToBoolean. *)
Definition truthy (v : value) : bool :=
  match v with
  | VUndef | VNull => false
  | VBool b => b
  | VNum n => negb (Z.eqb n 0)
  | VStr s => negb (String.eqb s "")
  | VRef _ => true
  end.

(** [v != null]. *)
Definition not_nullish (v : value) : bool :=
  match v with
  | VUndef | VNull => false
  | _ => true
  end.

(** ** Metadata nodes (the Flow type [MockFunctionMetadata]).
    An absent [value], [mockImpl] or [name] reads as [undefined]; ids are
    the numbers [getMetadata] hands out. *)

#[warnings="-register-all"]
Inductive MockFunctionMetadata := Metadata {
  md_ref : option nat;
  md_members : option (list (string * MockFunctionMetadata));
  md_mockImpl : value;
  md_name : value;
  md_refID : option nat;
  md_type : option string;
  md_value : value
}.

Abbreviation members_t := (list (string * MockFunctionMetadata)).

(** The node [{}]. *)
Definition md_empty : MockFunctionMetadata :=
  Metadata None None VUndef VUndef None None VUndef.

(** ** Objects and the heap *)

(** The closure variables of one mock function ([makeComponent], the
    [function] branch).  [calls] holds one argument list per invocation. *)
Record MockState := mkMockState {
  isReturnValueLastSet : bool;
  defaultReturnValue : value;
  mockImpl : value;
  specificReturnValues : list value;
  specificMockImpls : list value;
  calls : list (list value);
  instances : list value;
  prototype : members_t;
  prototypeSlots : list string
}.

Inductive method :=
| GetMockImplementation
| MockClear
| MockReturnValueOnce
| MockReturnValue
| MockImplementationOnce
| MockImplementation
| MockReturnThis.

(** What a callable object runs. *)
Inductive code :=
| Native (id : nat)                 (* a function supplied by the user *)
| HasOwnProperty                    (* Object.prototype.hasOwnProperty *)
| MockConstructor (st : MockState)  (* the mock function [f] *)
| MockMethod (m : method) (f : loc) (* one of the closures set on [f] *)
| ReturnThis.                       (* function() { return this; } *)

Inductive prop :=
| PData (v : value)
| PGetter (v : value).   (* accessor whose getter yields [v] *)

Record obj := mkObj {
  o_tag : string;        (* "Function", "Object", ... as in "[object Tag]" *)
  o_array : bool;        (* Array.isArray *)
  o_proto : option loc;  (* Object.getPrototypeOf; None is null *)
  o_props : list (string * prop);
  o_code : option code
}.

Abbreviation heap := (list obj).

(** The intrinsic objects sit at fixed addresses. *)
Definition ObjectPrototype : loc := 0.
Definition FunctionPrototype : loc := 1.
Definition ArrayPrototype : loc := 2.
Definition RegExpPrototype : loc := 3.
Definition NumberPrototype : loc := 4.
Definition StringPrototype : loc := 5.
Definition BooleanPrototype : loc := 6.

(** ** Results of operations that can raise *)

Inductive exn :=
| TypeError
| SyntaxError
| Error (msg : string)
| Thrown (v : value).

Inductive outcome (A : Type) :=
| Ok (a : A)
| Throw (e : exn)
| OutOfFuel.
Arguments Ok {A} a.
Arguments Throw {A} e.
Arguments OutOfFuel {A}.

(** State-passing computations; the state survives an exception. *)
Definition ST (S A : Type) := S -> outcome A * S.

Definition ret {S A} (a : A) : ST S A := fun s => (Ok a, s).
Definition throw {S A} (e : exn) : ST S A := fun s => (Throw e, s).
Definition out_of_fuel {S A} : ST S A := fun s => (OutOfFuel, s).
Definition bind {S A B} (m : ST S A) (k : A -> ST S B) : ST S B :=
  fun s =>
    match m s with
    | (Ok a, s') => k a s'
    | (Throw e, s') => (Throw e, s')
    | (OutOfFuel, s') => (OutOfFuel, s')
    end.
Definition lift {S A} (o : outcome A) : ST S A := fun s => (o, s).

(** Computations over the heap. *)
Abbreviation M := (ST heap).

Notation "'let*' x ':=' m 'in' k" := (bind m (fun x => k))
  (at level 10, x name, m at level 100, k at level 200).
Notation "'do*' m 'in' k" := (bind m (fun _ => k))
  (at level 10, m at level 100, k at level 200).

(** [xs.forEach(body)] *)
Fixpoint forEach {S A} (xs : list A) (body : A -> ST S unit) : ST S unit :=
  match xs with
  | [] => ret tt
  | x :: xs' => do* body x in forEach xs' body
  end.

(** Behaviour of the user-supplied functions, by identifier: each returns
    a value or raises. *)
Class Natives := native : nat -> value -> list value -> heap -> value + exn.

Definition completion (r : value + exn) : outcome value :=
  match r with
  | inl v => Ok v
  | inr e => Throw e
  end.

(** ** Property access *)

Fixpoint lookup_prop {A} (p : string) (ps : list (string * A)) : option A :=
  match ps with
  | [] => None
  | (q, d) :: ps' => if String.eqb p q then Some d else lookup_prop p ps'
  end.

Definition prop_value (d : prop) : value :=
  match d with PData v => v | PGetter v => v end.

Definition is_getter (d : prop) : bool :=
  match d with PData _ => false | PGetter _ => true end.

(** [object.hasOwnProperty(p)] of the intrinsic. *)
Definition has_own (h : heap) (l : loc) (p : string) : bool :=
  match h !! l with
  | Some o => match lookup_prop p (o_props o) with Some _ => true | None => false end
  | None => false
  end.

Definition getPrototypeOf (h : heap) (l : loc) : option loc :=
  match h !! l with
  | Some o => o_proto o
  | None => None
  end.

(** [[Get]] along the prototype chain; [n] bounds the walk (a chain has no
    cycle, so the size of the heap is enough). *)
Fixpoint get_from (n : nat) (h : heap) (l : loc) (p : string) : value :=
  match h !! l with
  | None => VUndef
  | Some o =>
      match lookup_prop p (o_props o) with
      | Some d => prop_value d
      | None =>
          match o_proto o, n with
          | Some l', S n' => get_from n' h l' p
          | _, _ => VUndef
          end
      end
  end.

Definition get_loc (h : heap) (l : loc) (p : string) : value :=
  get_from (length h) h l p.

(** [v[p]] or [v.p]; reading from [undefined] or [null] raises. *)
Definition get_pure (h : heap) (v : value) (p : string) : outcome value :=
  match v with
  | VUndef | VNull => Throw TypeError
  | VBool _ => Ok (get_loc h BooleanPrototype p)
  | VNum _ => Ok (get_loc h NumberPrototype p)
  | VStr _ => Ok (get_loc h StringPrototype p)
  | VRef l => Ok (get_loc h l p)
  end.

Definition get (v : value) (p : string) : M value :=
  fun h => (get_pure h v p, h).

Fixpoint set_prop (p : string) (v : value) (ps : list (string * prop))
  : list (string * prop) :=
  match ps with
  | [] => [(p, PData v)]
  | (q, d) :: ps' =>
      if String.eqb p q then (q, PData v) :: ps' else (q, d) :: set_prop p v ps'
  end.

Definition set_obj_prop (p : string) (v : value) (o : obj) : obj :=
  mkObj (o_tag o) (o_array o) (o_proto o) (set_prop p v (o_props o)) (o_code o).

(** [target[p] = v] in strict mode: a primitive target raises.  The
    property is defined or overwritten as a data property; the slots on
    which the source raises instead, or does more, are those that
    [assignable] leaves out. *)
Definition set (target : value) (p : string) (v : value) : M unit :=
  fun h =>
    match target with
    | VRef l =>
        match h !! l with
        | Some o => (Ok tt, <[l := set_obj_prop p v o]> h)
        | None => (Throw TypeError, h)
        end
    | _ => (Throw TypeError, h)
    end.

(** Allocation of a new object; its address is the next free one. *)
Definition alloc (o : obj) : M loc :=
  fun h => (Ok (length h), h ++ [o]).

(** ** Type classifier *)

(** The tag in [Object.prototype.toString.apply(value)] (none for an
    address that holds no object). *)
Definition toStringTag (h : heap) (v : value) : string :=
  match v with
  | VUndef => "Undefined"
  | VNull => "Null"
  | VBool _ => "Boolean"
  | VNum _ => "Number"
  | VStr _ => "String"
  | VRef l => match h !! l with Some o => o_tag o | None => "" end
  end.

Definition isA (h : heap) (typeName : string) (v : value) : bool :=
  String.eqb (toStringTag h v) typeName.

Definition isArray (h : heap) (v : value) : bool :=
  match v with
  | VRef l => match h !! l with Some o => o_array o | None => false end
  | _ => false
  end.

Definition getType (h : heap) (ref : value) : option string :=
  if isA h "Function" ref then Some "function"
  else if isArray h ref then Some "array"
  else if isA h "Object" ref then Some "object"
  else if isA h "Number" ref || isA h "String" ref || isA h "Boolean" ref
  then Some "constant"
  else if isA h "Map" ref || isA h "WeakMap" ref || isA h "Set" ref
  then Some "collection"
  else if isA h "RegExp" ref then Some "regexp"
  else if strict_equals ref VUndef then Some "undefined"
  else if strict_equals ref VNull then Some "null"
  else None.

(** ** Member enumerator *)

Definition isReadonlyProp (h : heap) (object : value) (prop : string) : bool :=
  ((String.eqb prop "arguments" || String.eqb prop "caller" ||
    String.eqb prop "callee" || String.eqb prop "name" ||
    String.eqb prop "length") && isA h "Function" object)
  ||
  ((String.eqb prop "source" || String.eqb prop "global" ||
    String.eqb prop "ignoreCase" || String.eqb prop "multiline") &&
   isA h "RegExp" object).

Definition mem_string (p : string) (ps : list string) : bool :=
  existsb (String.eqb p) ps.

(** [slots[prop] = true] on the plain object [slots]: a name seen before
    keeps its place, and ["__proto__"] reaches the inherited setter, which
    ignores [true], so it never becomes a key. *)
Definition slots_add (p : string) (slots : list string) : list string :=
  if String.eqb p "__proto__" then slots
  else if mem_string p slots then slots
  else slots ++ [p].

(** The [for] loop over [Object.getOwnPropertyNames(object)]. *)
Definition own_slots (h : heap) (object : loc) (o : obj) (slots : list string)
  : list string :=
  fold_left
    (fun slots (pd : string * prop) =>
       let (p, d) := pd in
       if negb (isReadonlyProp h (VRef object) p) then
         if negb (is_getter d) || truthy (get_loc h object "__esModule")
         then slots_add p slots
         else slots
       else slots)
    (o_props o) slots.

(** The [do ... while] loop; [n] bounds the walk up the chain. *)
Fixpoint getSlots_loop (n : nat) (h : heap) (object : loc) (parent : option loc)
    (slots : list string) : list string :=
  if Nat.eqb object FunctionPrototype then slots
  else
    let slots' :=
      match h !! object with
      | Some o => own_slots h object o slots
      | None => slots
      end in
    match parent with
    | None => slots'
    | Some object' =>
        match getPrototypeOf h object', n with
        | Some parent', S n' => getSlots_loop n' h object' (Some parent') slots'
        | _, _ => slots'
        end
    end.

(** [getSlots(object)] for a value of the heap.  A primitive has no own
    names here; the walk goes on from its intrinsic prototype. *)
Definition getSlots (h : heap) (object : value) : list string :=
  if negb (truthy object) then []
  else
    match object with
    | VRef l => getSlots_loop (length h) h l (getPrototypeOf h l) []
    | VBool _ =>
        match getPrototypeOf h BooleanPrototype with
        | Some pp => getSlots_loop (length h) h BooleanPrototype (Some pp) []
        | None => []
        end
    | VNum _ =>
        match getPrototypeOf h NumberPrototype with
        | Some pp => getSlots_loop (length h) h NumberPrototype (Some pp) []
        | None => []
        end
    | VStr _ =>
        match getPrototypeOf h StringPrototype with
        | Some pp => getSlots_loop (length h) h StringPrototype (Some pp) []
        | None => []
        end
    | _ => []
    end.

(** [getSlots] of a members record ([metadata.members], or the [prototype]
    of a mock): a plain object whose parent is [Object.prototype], so the
    loop body runs once, over data properties, none of them read-only. *)
Definition getSlots_members (members : option members_t) : list string :=
  match members with
  | None => []
  | Some ms => fold_left (fun slots kv => slots_add (fst kv) slots) ms []
  end.

(** ** Naming of a mock function ([createMockFunction])

    The function built by [new Function] forwards to [mockConstructor];
    here it and [mockConstructor] are one object, and [createMockFunction]
    yields the [name] it reports.  The wrapper is not strict and, for a
    name that starts with [bound], is bound to [null], so it hands its
    receiver on unchanged only in the cases [receives_receiver] names;
    the properties that depend on the receiver or on [f.prototype] say so.
    Names are ASCII: of [\s] and of the grammar of identifiers only the
    ASCII part is covered, and [new Function] refuses every other name
    ([label_compiles]). *)

Definition MOCK_CONSTRUCTOR_NAME : string := "mockConstructor".

Definition RESERVED_KEYWORDS : list string :=
  [ "do"; "if"; "in"; "for"; "let"; "new"; "try"; "var"; "case"; "else";
    "enum"; "eval"; "null"; "this"; "true"; "void"; "with"; "await";
    "break"; "catch"; "class"; "const"; "false"; "super"; "throw"; "while";
    "yield"; "delete"; "export"; "import"; "public"; "return"; "static";
    "switch"; "typeof"; "default"; "extends"; "finally"; "package";
    "private"; "continue"; "debugger"; "function"; "arguments";
    "interface"; "protected"; "implements"; "instanceof" ].

Definition boundFunctionPrefix : string := "bound ".

(** The [do ... while] that strips the prefix; the flag says whether
    [bindCall] was set. *)
Fixpoint strip_bound (n : nat) (name : string) (bound : bool) : string * bool :=
  match n with
  | 0 => (name, bound)
  | S n' =>
      if String.prefix boundFunctionPrefix name
      then strip_bound n'
             (String.substring (String.length boundFunctionPrefix)
                (String.length name - String.length boundFunctionPrefix) name)
             true
      else (name, bound)
  end.

(** A character matched by [/[\s-]/]. *)
Definition is_space_or_hyphen (c : ascii) : bool :=
  let n := nat_of_ascii c in
  (Nat.leb 9 n && Nat.leb n 13) || Nat.eqb n 32 || Nat.eqb n 45.

Fixpoint replace_reserved_chars (s : string) : string :=
  match s with
  | EmptyString => EmptyString
  | String c s' =>
      String (if is_space_or_hyphen c then "$"%char else c)
             (replace_reserved_chars s')
  end.

(** The first character of an identifier: an ASCII letter, [$] or [_]. *)
Definition is_identifier_start (c : ascii) : bool :=
  let n := nat_of_ascii c in
  (Nat.leb 65 n && Nat.leb n 90) || (Nat.leb 97 n && Nat.leb n 122) ||
  Nat.eqb n 36 || Nat.eqb n 95.

(** A later character: one of those, or a digit. *)
Definition is_identifier_part (c : ascii) : bool :=
  let n := nat_of_ascii c in
  is_identifier_start c || (Nat.leb 48 n && Nat.leb n 57).

Fixpoint all_chars (P : ascii -> bool) (s : string) : bool :=
  match s with
  | EmptyString => true
  | String c s' => P c && all_chars P s'
  end.

(** [function name() {...}] parses: [name] is empty or an identifier
    (it is never a reserved word, those get [$] in front). *)
Definition is_function_name (name : string) : bool :=
  match name with
  | EmptyString => true
  | String c name' => is_identifier_start c && all_chars is_identifier_part name'
  end.

(** The source text that [new Function] gets for the label [label] is
    accepted; a label that starts with [bound] stands for the name after
    the prefix, followed by [.bind(null)]. *)
Definition label_compiles (label : string) : bool :=
  if String.prefix boundFunctionPrefix label
  then is_function_name
         (String.substring (String.length boundFunctionPrefix)
            (String.length label - String.length boundFunctionPrefix) label)
  else is_function_name label.

Definition createMockFunction (metadata : MockFunctionMetadata) : outcome string :=
  match md_name metadata with
  | VStr name =>
      if negb (truthy (VStr name)) || String.eqb name MOCK_CONSTRUCTOR_NAME
      then Ok MOCK_CONSTRUCTOR_NAME
      else
        let (name1, bound) := strip_bound (String.length name) name false in
        let name2 :=
          if mem_string name1 RESERVED_KEYWORDS then "$" +:+ name1 else name1 in
        let name3 := replace_reserved_chars name2 in
        Ok (if bound then boundFunctionPrefix +:+ name3 else name3)
  | other =>
      if negb (truthy other) then Ok MOCK_CONSTRUCTOR_NAME
      else Throw TypeError   (* name.startsWith is not a function *)
  end.

(** ** Building one component ([makeComponent]) *)

Definition type_is (metadata : MockFunctionMetadata) (t : string) : bool :=
  match md_type metadata with
  | Some t' => String.eqb t' t
  | None => false
  end.

Definition plain_object (props : list (string * prop)) : obj :=
  mkObj "Object" false (Some ObjectPrototype) props None.

Definition empty_array : obj :=
  mkObj "Array" true (Some ArrayPrototype) [("length", PData (VNum 0))] None.

Definition empty_regexp : obj :=
  mkObj "RegExp" false (Some RegExpPrototype) [("lastIndex", PData (VNum 0))] None.

(** An arrow function closed over the state of the mock at [f]. *)
Definition closure (m : method) (f : loc) (arity : Z) : obj :=
  mkObj "Function" false (Some FunctionPrototype)
    [("length", PData (VNum arity)); ("name", PData (VStr ""))]
    (Some (MockMethod m f)).

(** [(metadata.members && metadata.members.prototype &&
      metadata.members.prototype.members) || {}] *)
Definition prototype_of (metadata : MockFunctionMetadata) : members_t :=
  match md_members metadata with
  | Some ms =>
      match lookup_prop "prototype" ms with
      | Some pm => match md_members pm with Some pms => pms | None => [] end
      | None => []
      end
  | None => []
  end.

(** The closure variables as [makeComponent] leaves them: everything
    empty, except that a truthy [metadata.mockImpl] has been installed by
    [f.mockImplementation]. *)
Definition initial_state (metadata : MockFunctionMetadata) : MockState :=
  mkMockState false VUndef
    (if truthy (md_mockImpl metadata) then md_mockImpl metadata else VUndef)
    [] [] [] []
    (prototype_of metadata)
    (getSlots_members (Some (prototype_of metadata))).

(** The objects the [function] branch creates, for a heap of size [base]:
    the two ledger arrays, [f] with its [prototype], and the closures and
    the [mock] record set on [f], in the order of the source
    ([f.mockImplementation = f.mockImpl = fn] defines [mockImpl] first).
    The ledger arrays carry identity only; their contents are [calls] and
    [instances] of the state.  A function made by [.bind(null)] has no
    [prototype] of its own: for a label that starts with [bound] the
    objects stand for the function that was bound. *)
Definition mock_objects (base : loc) (label : string)
    (metadata : MockFunctionMetadata) : list obj :=
  let callsArr := base in
  let instancesArr := base + 1 in
  let f := base + 2 in
  [ empty_array;
    empty_array;
    mkObj "Function" false (Some FunctionPrototype)
      [ ("length", PData (VNum 0));
        ("name", PData (VStr label));
        ("prototype", PData (VRef (base + 3)));
        ("_isMockFunction", PData (VBool true));
        ("getMockImplementation", PData (VRef (base + 4)));
        ("mock", PData (VRef (base + 5)));
        ("mockClear", PData (VRef (base + 6)));
        ("mockReturnValueOnce", PData (VRef (base + 7)));
        ("mockReturnValue", PData (VRef (base + 8)));
        ("mockImplementationOnce", PData (VRef (base + 9)));
        ("mockImpl", PData (VRef (base + 10)));
        ("mockImplementation", PData (VRef (base + 10)));
        ("mockReturnThis", PData (VRef (base + 11))) ]
      (Some (MockConstructor (initial_state metadata)));
    plain_object [("constructor", PData (VRef f))];
    closure GetMockImplementation f 0;
    plain_object [("calls", PData (VRef callsArr));
                  ("instances", PData (VRef instancesArr))];
    closure MockClear f 0;
    closure MockReturnValueOnce f 1;
    closure MockReturnValue f 1;
    closure MockImplementationOnce f 1;
    closure MockImplementation f 1;
    closure MockReturnThis f 0 ].

(** [metadata.type || 'undefined type'] *)
Definition unknownType (metadata : MockFunctionMetadata) : string :=
  match md_type metadata with
  | Some t => if negb (String.eqb t "") then t else "undefined type"
  | None => "undefined type"
  end.

Definition makeComponent (metadata : MockFunctionMetadata) : M value :=
  if type_is metadata "object" then
    let* l := alloc (plain_object []) in ret (VRef l)
  else if type_is metadata "array" then
    let* l := alloc empty_array in ret (VRef l)
  else if type_is metadata "regexp" then
    let* l := alloc empty_regexp in ret (VRef l)
  else if type_is metadata "constant" || type_is metadata "collection" ||
          type_is metadata "null" || type_is metadata "undefined" then
    ret (md_value metadata)
  else if type_is metadata "function" then
    let* label := lift (createMockFunction metadata) in
    if label_compiles label then
      fun h => (Ok (VRef (length h + 2)),
                h ++ mock_objects (length h) label metadata)
    else throw SyntaxError
  else throw (Error ("Unrecognized type " +:+ unknownType metadata)).

(** ** Generation ([generateMock], [generateFromMetadata]) *)

(** The setter [() => mock[slot] = refs[slotMetadata.ref]]; [refs] is the
    table shared by the whole generation and is read when the setter
    runs. *)
Record callback := mkCallback {
  cb_mock : value;
  cb_slot : string;
  cb_ref : nat
}.

Abbreviation refs_t := (gmap nat value).

(** [refs[id]] *)
Definition refs_get (refs : refs_t) (id : nat) : value :=
  default VUndef (refs !! id).

Abbreviation gen_state := (list callback * refs_t)%type.

(** The body of [getSlots(metadata.members).forEach(slot => ...)], with
    [generate] for the recursive call.  The members are visited in the order
    of [getSlots]: each name once, at its first entry
    ([members_loop_getSlots]). *)
Definition members_loop
    (generate : MockFunctionMetadata -> gen_state -> M (value * gen_state))
    (mock : value) :=
  fix loop (ms : members_t) (seen : list string) (st : gen_state)
    : M gen_state :=
    match ms with
    | [] => ret st
    | (slot, slotMetadata) :: ms' =>
        if String.eqb slot "__proto__" || mem_string slot seen
        then loop ms' seen st
        else
          let* st' :=
            match md_ref slotMetadata with
            | Some r =>
                ret (fst st ++ [mkCallback mock slot r], snd st)
            | None =>
                let* r := generate slotMetadata st in
                do* set mock slot (fst r) in
                ret (snd r)
            end in
          loop ms' (seen ++ [slot]) st'
    end.

(** [mock.prototype.constructor = mock], when [mock.prototype] is truthy. *)
Definition relink_constructor (metadata : MockFunctionMetadata) (mock : value)
  : M unit :=
  if negb (type_is metadata "undefined") && negb (type_is metadata "null")
  then
    let* p := get mock "prototype" in
    if truthy p then set p "constructor" mock else ret tt
  else ret tt.

Fixpoint generateMock (metadata : MockFunctionMetadata) (st : gen_state)
  : M (value * gen_state) :=
  let* mock := makeComponent metadata in
  let st1 : gen_state :=
    match md_refID metadata with
    | Some id => (fst st, <[id := mock]> (snd st))
    | None => st
    end in
  let* st2 :=
    match md_members metadata with
    | Some ms => members_loop generateMock mock ms [] st1
    | None => ret st1
    end in
  do* relink_constructor metadata mock in
  ret (mock, st2).

Definition run_callback (refs : refs_t) (cb : callback) : M unit :=
  set (cb_mock cb) (cb_slot cb) (refs_get refs (cb_ref cb)).

Definition generateFromMetadata (_metadata : MockFunctionMetadata) : M value :=
  let* r := generateMock _metadata ([], ∅) in
  let '(mock, (callbacks, refs)) := r in
  do* forEach callbacks (run_callback refs) in
  ret mock.

(** ** The mock-function runtime *)

(** The closure variables of the mock function at [f]. *)
Definition mock_state (h : heap) (f : loc) : option MockState :=
  match h !! f with
  | Some o =>
      match o_code o with
      | Some (MockConstructor st) => Some st
      | _ => None
      end
  | None => None
  end.

Definition set_code (c : code) (o : obj) : obj :=
  mkObj (o_tag o) (o_array o) (o_proto o) (o_props o) (Some c).

(** An assignment to closure variables of the mock at [f]. *)
Definition update_state (f : loc) (g : MockState -> MockState) : M unit :=
  fun h =>
    match h !! f with
    | Some o =>
        match o_code o with
        | Some (MockConstructor st) =>
            (Ok tt, <[f := set_code (MockConstructor (g st)) o]> h)
        | _ => (Ok tt, h)
        end
    | None => (Ok tt, h)
    end.

Definition read_state (f : loc) : M MockState :=
  fun h =>
    match mock_state h f with
    | Some st => (Ok st, h)
    | None => (Throw TypeError, h)
    end.

Definition set_flag (b : bool) (st : MockState) : MockState :=
  mkMockState b (defaultReturnValue st) (mockImpl st)
    (specificReturnValues st) (specificMockImpls st) (calls st)
    (instances st) (prototype st) (prototypeSlots st).

Definition set_defaultReturnValue (v : value) (st : MockState) : MockState :=
  mkMockState (isReturnValueLastSet st) v (mockImpl st)
    (specificReturnValues st) (specificMockImpls st) (calls st)
    (instances st) (prototype st) (prototypeSlots st).

Definition set_mockImpl (v : value) (st : MockState) : MockState :=
  mkMockState (isReturnValueLastSet st) (defaultReturnValue st) v
    (specificReturnValues st) (specificMockImpls st) (calls st)
    (instances st) (prototype st) (prototypeSlots st).

Definition set_specificReturnValues (q : list value) (st : MockState) : MockState :=
  mkMockState (isReturnValueLastSet st) (defaultReturnValue st) (mockImpl st)
    q (specificMockImpls st) (calls st)
    (instances st) (prototype st) (prototypeSlots st).

Definition set_specificMockImpls (q : list value) (st : MockState) : MockState :=
  mkMockState (isReturnValueLastSet st) (defaultReturnValue st) (mockImpl st)
    (specificReturnValues st) q (calls st)
    (instances st) (prototype st) (prototypeSlots st).

Definition set_calls (c : list (list value)) (st : MockState) : MockState :=
  mkMockState (isReturnValueLastSet st) (defaultReturnValue st) (mockImpl st)
    (specificReturnValues st) (specificMockImpls st) c
    (instances st) (prototype st) (prototypeSlots st).

Definition set_instances (i : list value) (st : MockState) : MockState :=
  mkMockState (isReturnValueLastSet st) (defaultReturnValue st) (mockImpl st)
    (specificReturnValues st) (specificMockImpls st) (calls st)
    i (prototype st) (prototypeSlots st).

(** [queue.shift()]: the first entry, or [undefined] from an empty queue. *)
Definition shift (q : list value) : value * list value :=
  match q with
  | [] => (VUndef, [])
  | v :: q' => (v, q')
  end.

(** The first argument of a call, [undefined] when there is none. *)
Definition arg0 (args : list value) : value :=
  match args with
  | [] => VUndef
  | v :: _ => v
  end.

(** *** The closures set on [f] *)

(** [f.getMockImplementation = () => mockImpl] *)
Definition getMockImplementation (f : loc) : M value :=
  let* st := read_state f in ret (mockImpl st).

(** [f.mockClear]: [calls.length = 0; instances.length = 0]. *)
Definition mockClear (f : loc) : M value :=
  do* update_state f (set_calls []) in
  do* update_state f (set_instances []) in
  ret VUndef.

Definition mockReturnValueOnce (f : loc) (v : value) : M value :=
  do* update_state f (set_flag true) in
  do* update_state f
        (fun st => set_specificReturnValues (specificReturnValues st ++ [v]) st) in
  ret (VRef f).

Definition mockReturnValue (f : loc) (v : value) : M value :=
  do* update_state f (set_flag true) in
  do* update_state f (set_defaultReturnValue v) in
  ret (VRef f).

Definition mockImplementationOnce (f : loc) (fn : value) : M value :=
  do* update_state f (set_flag false) in
  do* update_state f
        (fun st => set_specificMockImpls (specificMockImpls st ++ [fn]) st) in
  ret (VRef f).

Definition mockImplementation (f : loc) (fn : value) : M value :=
  do* update_state f (set_flag false) in
  do* update_state f (set_mockImpl fn) in
  ret (VRef f).

(** The function expression [function() { return this; }], with the
    [prototype] object every such function gets. *)
Definition alloc_return_this : M value :=
  fun h =>
    (Ok (VRef (length h)),
     h ++ [ mkObj "Function" false (Some FunctionPrototype)
              [("length", PData (VNum 0)); ("name", PData (VStr ""));
               ("prototype", PData (VRef (length h + 1)))]
              (Some ReturnThis);
            plain_object [("constructor", PData (VRef (length h)))] ]).

(** [this instanceof f] for a callable [f]. *)
Fixpoint chain_has (n : nat) (h : heap) (l : option loc) (target : loc) : bool :=
  match l with
  | None => false
  | Some l' =>
      if Nat.eqb l' target then true
      else
        match n with
        | 0 => false
        | S n' => chain_has n' h (getPrototypeOf h l') target
        end
  end.

Definition instanceof (this : value) (f : loc) : M bool :=
  fun h =>
    match this with
    | VRef l =>
        match get_loc h f "prototype" with
        | VRef p => (Ok (chain_has (length h) h (getPrototypeOf h l) p), h)
        | _ => (Throw TypeError, h)
        end
    | _ => (Ok false, h)
    end.

(** The intrinsic [hasOwnProperty], for the string keys the module uses. *)
Definition hasOwnProperty (this : value) (args : list value) : M value :=
  fun h =>
    match this with
    | VUndef | VNull => (Throw TypeError, h)
    | VRef l =>
        match arg0 args with
        | VStr p => (Ok (VBool (has_own h l p)), h)
        | _ => (Ok (VBool false), h)
        end
    | _ => (Ok (VBool false), h)
    end.

(** *** Invocation ([mockConstructor])

    [apply fn this args] stands for [fn.apply(this, args)]. *)

Definition apply_t := value -> value -> list value -> M value.

(** The body of [prototypeSlots.forEach] in a constructor-style call. *)
Definition install_slot (st : MockState) (this : value) (slot : string) : M unit :=
  match lookup_prop slot (prototype st) with
  | None => throw TypeError
  | Some slotMetadata =>
      if type_is slotMetadata "function" then
        let* protoImpl := get this slot in
        let* m := generateFromMetadata slotMetadata in
        do* set this slot m in
        let* m' := get this slot in
        set m' "_protoImpl" protoImpl
      else ret tt
  end.

(** [instances.push(this); calls.push(Array.prototype.slice.call(arguments))] *)
Definition record_call (f : loc) (this : value) (args : list value) : M unit :=
  do* update_state f (fun st => set_instances (instances st ++ [this]) st) in
  update_state f (fun st => set_calls (calls st ++ [args]) st).

Definition mockConstructor (apply : apply_t) (f : loc) (this : value)
    (args : list value) : M value :=
  do* record_call f this args in
  let* isInstance := instanceof this f in
  if isInstance then
    (* This is probably being called as a constructor *)
    let* st := read_state f in
    do* forEach (prototypeSlots st) (install_slot st this) in
    (* Run the mock constructor implementation *)
    let* st := read_state f in
    if truthy (mockImpl st) then apply (mockImpl st) this args
    else ret (mockImpl st)
  else
    let* st := read_state f in
    let* returnValue :=
      (if isReturnValueLastSet st then
         let (rv, rest) := shift (specificReturnValues st) in
         do* update_state f (set_specificReturnValues rest) in
         if strict_equals rv VUndef then ret (defaultReturnValue st)
         else ret rv
       else ret VUndef) in
    if strict_equals returnValue VUndef then
      let* st := read_state f in
      let (queued, rest) := shift (specificMockImpls st) in
      do* update_state f (set_specificMockImpls rest) in
      let specificMockImpl :=
        if strict_equals queued VUndef then mockImpl st else queued in
      if truthy specificMockImpl then apply specificMockImpl this args
      else
        (* Otherwise use prototype implementation *)
        let* protoImpl := get (VRef f) "_protoImpl" in
        if truthy protoImpl then apply protoImpl this args
        else ret returnValue
    else ret returnValue.

(** [f.mockReturnThis]: reads [f.mockImplementation] and calls it on a
    new [function() { return this; }]. *)
Definition mockReturnThis (apply : apply_t) (f : loc) : M value :=
  let* setter := get (VRef f) "mockImplementation" in
  let* fn := alloc_return_this in
  apply setter (VRef f) [fn].

Definition run_method (apply : apply_t) (m : method) (f : loc)
    (args : list value) : M value :=
  match m with
  | GetMockImplementation => getMockImplementation f
  | MockClear => mockClear f
  | MockReturnValueOnce => mockReturnValueOnce f (arg0 args)
  | MockReturnValue => mockReturnValue f (arg0 args)
  | MockImplementationOnce => mockImplementationOnce f (arg0 args)
  | MockImplementation => mockImplementation f (arg0 args)
  | MockReturnThis => mockReturnThis apply f
  end.

(** *** Extraction ([getMetadata]) *)

(** The identity table [refs]: a [Map] from components to ids, in
    insertion order. *)
Abbreviation table := (list (value * nat)).

Fixpoint Map_get (refs : table) (k : value) : option nat :=
  match refs with
  | [] => None
  | (k', id) :: refs' => if strict_equals k' k then Some id else Map_get refs' k
  end.

Fixpoint Map_set (refs : table) (k : value) (id : nat) : table :=
  match refs with
  | [] => [(k, id)]
  | (k', id') :: refs' =>
      if strict_equals k' k then (k', id) :: refs'
      else (k', id') :: Map_set refs' k id
  end.

Definition Map_size (refs : table) : nat := length refs.

(** Extraction runs over the identity table and the heap. *)
Abbreviation X := (ST (table * heap)).

Definition on_heap {A} (m : M A) : X A :=
  fun s =>
    match m (snd s) with
    | (r, h') => (r, (fst s, h'))
    end.

Definition on_table {A} (f : table -> A * table) : X A :=
  fun s =>
    match f (fst s) with
    | (a, refs') => (Ok a, (refs', snd s))
    end.

(** [a != b], exact when both sides have one type or one side is [null]
    or [undefined]; a comparison that would need a conversion counts as
    unequal. *)
Definition loose_not_equals (a b : value) : bool :=
  negb (strict_equals a b || (negb (not_nullish a) && negb (not_nullish b))).

(** [members[slot] = slotMetadata] on the record under construction. *)
Fixpoint members_set (slot : string) (m : MockFunctionMetadata) (ms : members_t)
  : members_t :=
  match ms with
  | [] => [(slot, m)]
  | (k, m') :: ms' =>
      if String.eqb slot k then (k, m) :: ms'
      else (k, m') :: members_set slot m ms'
  end.

Definition members_put (slot : string) (m : MockFunctionMetadata)
    (members : option members_t) : option members_t :=
  match members with
  | None => Some (members_set slot m [])
  | Some ms => Some (members_set slot m ms)
  end.

(** [slot.match(/^mock/)] *)
Definition starts_with_mock (slot : string) : bool := String.prefix "mock" slot.

Definition is_leaf_type (type : string) : bool :=
  String.eqb type "constant" || String.eqb type "collection" ||
  String.eqb type "undefined" || String.eqb type "null".

(** [{ref}] *)
Definition back_reference (r : nat) : MockFunctionMetadata :=
  Metadata (Some r) None VUndef VUndef None None VUndef.

(** [{type, value: component}] *)
Definition leaf_node (type : string) (component : value) : MockFunctionMetadata :=
  Metadata None None VUndef VUndef None (Some type) component.

(** [metadata.refID = refs.size; refs.set(component, metadata.refID)] *)
Definition register (component : value) : X nat :=
  on_table (fun refs => (Map_size refs, Map_set refs component (Map_size refs))).

Section Runtime.
Context {N : Natives}.

(** [fn.apply(this, args)]; [fuel] bounds the depth of nested calls.  The
    receiver is handed on as it is ([receives_receiver]). *)
Fixpoint call (fuel : nat) (fn : value) (this : value) (args : list value)
  : M value :=
  match fuel with
  | 0 => out_of_fuel
  | S fuel' =>
      fun h =>
        match fn with
        | VRef l =>
            match h !! l with
            | Some o =>
                match o_code o with
                | Some (Native id) => (completion (native id this args h), h)
                | Some HasOwnProperty => hasOwnProperty this args h
                | Some (MockConstructor _) =>
                    mockConstructor (call fuel') l this args h
                | Some (MockMethod m f) => run_method (call fuel') m f args h
                | Some ReturnThis => (Ok this, h)
                | None => (Throw TypeError, h)
                end
            | None => (Throw TypeError, h)
            end
        | _ => (Throw TypeError, h)
        end
  end.

(** The test that decides whether [slot] is described:
    [(!component.hasOwnProperty && component[slot] !== undefined) ||
     (component.hasOwnProperty && component.hasOwnProperty(slot)) ||
     (type === 'object' && component[slot] != Object.prototype[slot])]. *)
Definition slot_is_own (fuel : nat) (type : string) (component : value)
    (slot : string) : M bool :=
  let* hop := get component "hasOwnProperty" in
  let* v := get component slot in
  if negb (truthy hop) && negb (strict_equals v VUndef) then ret true
  else
    let* own :=
      (if truthy hop then
         let* r := call fuel hop component [VStr slot] in ret (truthy r)
       else ret false) in
    if own then ret true
    else if String.eqb type "object" then
      let* d := get (VRef ObjectPrototype) slot in
      ret (loose_not_equals v d)
    else ret false.

(** [type === 'function' && component._isMockFunction &&
     slot.match(/^mock/)] *)
Definition is_mock_surface (type : string) (component : value) (slot : string)
  : M bool :=
  if String.eqb type "function" then
    let* marker := get component "_isMockFunction" in
    ret (truthy marker && starts_with_mock slot)
  else ret false.

(** The body of [getSlots(component).forEach(slot => ...)]; [extract] is
    the recursive call, [members] the record under construction. *)
Definition extract_slot (extract : value -> X (option MockFunctionMetadata))
    (fuel : nat) (type : string) (component : value) (slot : string)
    (members : option members_t) : X (option members_t) :=
  let* skip := on_heap (is_mock_surface type component slot) in
  if skip then ret members
  else
    let* own := on_heap (slot_is_own fuel type component slot) in
    if own then
      let* v := on_heap (get component slot) in
      let* slotMetadata := extract v in
      match slotMetadata with
      | Some m => ret (members_put slot m members)
      | None => ret members
      end
    else ret members.

Fixpoint each_slot (step : string -> option members_t -> X (option members_t))
    (slots : list string) (members : option members_t) : X (option members_t) :=
  match slots with
  | [] => ret members
  | slot :: slots' =>
      let* members' := step slot members in
      each_slot step slots' members'
  end.

(** The [prototype] of a function, described last and kept only when it
    has members. *)
Definition extract_prototype (extract : value -> X (option MockFunctionMetadata))
    (type : string) (component : value) (members : option members_t)
  : X (option members_t) :=
  if String.eqb type "function" then
    let* p := on_heap (get component "prototype") in
    if truthy p then
      let* prototype := extract p in
      match prototype with
      | Some pm =>
          match md_members pm with
          | Some _ => ret (members_put "prototype" pm members)
          | None => ret members
          end
      | None => ret members
      end
    else ret members
  else ret members.

(** The members of a component that has just been registered: none for
    an array; otherwise those of its slots, then the [prototype]. *)
Definition extract_members (extract : value -> X (option MockFunctionMetadata))
    (fuel : nat) (type : string) (component : value) : X (option members_t) :=
  (* Leave arrays alone *)
  if negb (String.eqb type "array") then
    let* members :=
      (if negb (String.eqb type "undefined") then
         let* slots := on_heap (fun h => (Ok (getSlots h component), h)) in
         each_slot (extract_slot extract fuel type component) slots None
       else ret None) in
    extract_prototype extract type component members
  else ret None.

(** [metadata.name] and [metadata.mockImpl] of a function. *)
Definition function_fields (fuel : nat) (type : string) (component : value)
  : M (value * value) :=
  if String.eqb type "function" then
    let* name := get component "name" in
    let* marker := get component "_isMockFunction" in
    if truthy marker then
      let* g := get component "getMockImplementation" in
      let* impl := call fuel g component [] in
      ret (name, impl)
    else ret (name, VUndef)
  else ret (VUndef, VUndef).

Fixpoint getMetadata (fuel : nat) (component : value)
  : X (option MockFunctionMetadata) :=
  match fuel with
  | 0 => out_of_fuel
  | S fuel' =>
      let* ref := on_table (fun refs => (Map_get refs component, refs)) in
      match ref with
      | Some r =>
          ret (Some (back_reference r))
      | None =>
          let* type := on_heap (fun h => (Ok (getType h component), h)) in
          match type with
          | None => ret None
          | Some type =>
              if is_leaf_type type then
                ret (Some (leaf_node type component))
              else
                let* fields := on_heap (function_fields fuel' type component) in
                let* refID := register component in
                let* members :=
                  extract_members (getMetadata fuel') fuel' type component in
                ret (Some (Metadata None members (snd fields) (fst fields)
                             (Some refID) (Some type) VUndef))
          end
      end
  end.

(** [getMetadata(component)]: the table is a new [Map]. *)
Definition getMetadata_top (fuel : nat) (component : value)
  : M (option MockFunctionMetadata) :=
  fun h =>
    match getMetadata fuel component ([], h) with
    | (r, s) => (r, snd s)
    end.

(** ** [isMockFunction]: [!!fn._isMockFunction] *)
Definition isMockFunction (fn : value) : M bool :=
  let* marker := get fn "_isMockFunction" in
  ret (negb (negb (truthy marker))).

(** [new f(...args)], for [f] that is not bound ([not_bound]): the
    receiver is a new object whose prototype is [f.prototype]; an object
    returned by [f] replaces it. *)
Definition construct (fuel : nat) (f : loc) (args : list value) : M value :=
  let* p := get (VRef f) "prototype" in
  let proto := match p with VRef l => l | _ => ObjectPrototype end in
  let* this := alloc (mkObj "Object" false (Some proto) [] None) in
  let* r := call fuel (VRef f) (VRef this) args in
  match r with
  | VRef _ => ret r
  | _ => ret (VRef this)
  end.

End Runtime.

(** ** Vocabulary of the properties *)

(** The categories [makeComponent] knows. *)
Definition known_types : list string :=
  ["function"; "array"; "object"; "constant"; "collection"; "regexp";
   "undefined"; "null"].

Definition known_type (t : option string) : bool :=
  match t with
  | Some t => mem_string t known_types
  | None => false
  end.

(** The heap in which the closure variables of the mock at [f] are [st]. *)
Definition with_state (f : loc) (st : MockState) (h : heap) : heap :=
  match h !! f with
  | Some o => <[f := set_code (MockConstructor st) o]> h
  | None => h
  end.

(** [mockClear] on the closure variables. *)
Definition cleared (st : MockState) : MockState :=
  set_instances [] (set_calls [] st).

(** [record_call] on the closure variables. *)
Definition recorded (this : value) (args : list value) (st : MockState)
  : MockState :=
  set_calls (calls st ++ [args]) (set_instances (instances st ++ [this]) st).

(** What the return-value family yields in a plain call: the entry that
    [shift] removes, or [defaultReturnValue] when that is [undefined];
    [undefined] when the family is not tried. *)
Definition resolved_return_value (st : MockState) : value :=
  if isReturnValueLastSet st then
    if strict_equals (fst (shift (specificReturnValues st))) VUndef
    then defaultReturnValue st
    else fst (shift (specificReturnValues st))
  else VUndef.

(** What the implementation family yields. *)
Definition resolved_implementation (st : MockState) : value :=
  if strict_equals (fst (shift (specificMockImpls st))) VUndef
  then mockImpl st
  else fst (shift (specificMockImpls st)).

(** The closure variables once the return-value family has been tried. *)
Definition after_return_values (this : value) (args : list value)
    (st : MockState) : MockState :=
  if isReturnValueLastSet st
  then set_specificReturnValues (snd (shift (specificReturnValues st)))
         (recorded this args st)
  else recorded this args st.

(** ... and once the implementation family has been tried as well. *)
Definition after_implementations (this : value) (args : list value)
    (st : MockState) : MockState :=
  set_specificMockImpls (snd (shift (specificMockImpls st)))
    (after_return_values this args st).

(** A realm: the intrinsic objects and [hasOwnProperty]. *)
Definition realm : heap :=
  [ mkObj "Object" false None [("hasOwnProperty", PData (VRef 7))] None;
    mkObj "Function" false (Some ObjectPrototype)
      [("length", PData (VNum 0)); ("name", PData (VStr ""))] None;
    mkObj "Array" true (Some ObjectPrototype) [("length", PData (VNum 0))] None;
    mkObj "Object" false (Some ObjectPrototype)
      [("source", PGetter (VStr "(?:)")); ("global", PGetter (VBool false));
       ("ignoreCase", PGetter (VBool false)); ("multiline", PGetter (VBool false))]
      None;
    mkObj "Number" false (Some ObjectPrototype) [] None;
    mkObj "String" false (Some ObjectPrototype) [("length", PData (VNum 0))] None;
    mkObj "Boolean" false (Some ObjectPrototype) [] None;
    mkObj "Function" false (Some FunctionPrototype)
      [("length", PData (VNum 1)); ("name", PData (VStr "hasOwnProperty"))]
      (Some HasOwnProperty) ].

(** Three user functions: a constant, [return this], and the identity on
    the first argument. *)
Definition example_natives : Natives :=
  fun id this args h =>
    match id with
    | 0 => inl (VNum 42)
    | 1 => inl this
    | _ => inl (arg0 args)
    end.

Definition user_function (id : nat) : obj :=
  mkObj "Function" false (Some FunctionPrototype)
    [("length", PData (VNum 0)); ("name", PData (VStr "impl"))]
    (Some (Native id)).

(** [{type: 'function'}], the metadata of [getMockFunction()]. *)
Definition function_metadata : MockFunctionMetadata :=
  Metadata None None VUndef VUndef None (Some "function") VUndef.



(** The heap of a mock function (at address 10) and two user functions
    (at 20 and 21). *)
Definition mock_heap : heap :=
  snd (makeComponent function_metadata realm) ++ [user_function 0; user_function 1].

(** Two heaps with the same objects up to the code they run. *)
Definition same_shape (h h' : heap) : Prop :=
  forall l,
    match h !! l, h' !! l with
    | Some o, Some o' =>
        o_tag o = o_tag o' /\ o_array o = o_array o' /\
        o_proto o = o_proto o' /\ o_props o = o_props o'
    | None, None => True
    | _, _ => False
    end.

(** [metadata.members], empty when absent. *)
Definition members_of (metadata : MockFunctionMetadata) : members_t :=
  match md_members metadata with
  | Some ms => ms
  | None => []
  end.

(** [o'] is [o] up to its properties. *)
Definition same_kind (o o' : obj) : Prop :=
  o_tag o' = o_tag o /\ o_array o' = o_array o /\ o_proto o' = o_proto o /\
  o_code o' = o_code o.

(** [h'] has every object of [h], with the same tag, prototype and code. *)
Definition extends (h h' : heap) : Prop :=
  forall l o, h !! l = Some o -> exists o', h' !! l = Some o' /\ same_kind o o'.

(** A computation that only adds objects and assigns properties. *)
Definition grows {A} (m : M A) : Prop := forall h, extends h (snd (m h)).

Section Invocations.
Context {N : Natives}.



End Invocations.



(** ** Metadata that generation can always build

    [lacks n h l p]: the prototype chain of [l] ends within [n] links, and
    no object on it has an own property [p]. *)
Fixpoint lacks (n : nat) (h : heap) (l : loc) (p : string) : bool :=
  match h !! l with
  | None => false
  | Some o =>
      match lookup_prop p (o_props o) with
      | Some _ => false
      | None =>
          match o_proto o, n with
          | None, _ => true
          | Some l', S n' => lacks n' h l' p
          | Some _, 0 => false
          end
      end
  end.

(** [Object.prototype], [Array.prototype] and [RegExp.prototype] have no
    property named [prototype], as in a realm nobody has tampered with. *)
Definition intrinsics_plain (h : heap) : bool :=
  lacks (length h) h ObjectPrototype "prototype" &&
  lacks (length h) h ArrayPrototype "prototype" &&
  lacks (length h) h RegExpPrototype "prototype".

(** [v.prototype] can be read and is [undefined]. *)
Definition value_lacks_prototype (h : heap) (v : value) : bool :=
  match v with
  | VUndef | VNull => false
  | VBool _ => lacks (length h) h BooleanPrototype "prototype"
  | VNum _ => lacks (length h) h NumberPrototype "prototype"
  | VStr _ => lacks (length h) h StringPrototype "prototype"
  | VRef l => lacks (length h) h l "prototype"
  end.

(** The types for which [makeComponent] creates an object. *)
Definition is_shell (metadata : MockFunctionMetadata) : bool :=
  type_is metadata "object" || type_is metadata "array" ||
  type_is metadata "regexp" || type_is metadata "function".

Definition name_ok (metadata : MockFunctionMetadata) : bool :=
  match createMockFunction metadata with
  | Ok label => label_compiles label
  | _ => false
  end.

Definition no_members (metadata : MockFunctionMetadata) : bool :=
  match md_members metadata with
  | Some (_ :: _) => false
  | _ => true
  end.

(** The members that [members_loop] builds satisfy [plain]; one that is
    built under the name [prototype] is an object. *)
Definition plain_members (plain : MockFunctionMetadata -> bool) :=
  fix go (ms : members_t) (seen : list string) : bool :=
    match ms with
    | [] => true
    | (slot, slotMetadata) :: ms' =>
        if String.eqb slot "__proto__" || mem_string slot seen
        then go ms' seen
        else
          match md_ref slotMetadata with
          | Some _ => true
          | None =>
              plain slotMetadata &&
              (negb (String.eqb slot "prototype") || is_shell slotMetadata)
          end && go ms' (seen ++ [slot])
    end.

(** Metadata as [getMetadata] produces it: every node that is built has a
    known type; a function has a name that can be given to it; a constant
    or a collection has no members and a value without [prototype]. *)
Fixpoint plain_tree (h : heap) (metadata : MockFunctionMetadata) : bool :=
  if is_shell metadata then
    (negb (type_is metadata "function") || name_ok metadata) &&
    match md_members metadata with
    | Some ms => plain_members (plain_tree h) ms []
    | None => true
    end
  else if type_is metadata "constant" || type_is metadata "collection" then
    no_members metadata && value_lacks_prototype h (md_value metadata)
  else if type_is metadata "null" || type_is metadata "undefined" then
    no_members metadata
  else false.

(** The ids that the nodes of a tree carry. *)
Fixpoint all_ids (metadata : MockFunctionMetadata) : list nat :=
  match metadata with
  | Metadata _ ms _ _ id _ _ =>
      match id with Some r => [r] | None => [] end ++
      match ms with
      | Some l => flat_map (fun kv => all_ids (snd kv)) l
      | None => []
      end
  end.

(** ... and those below the root. *)
Definition sub_ids (metadata : MockFunctionMetadata) : list nat :=
  flat_map (fun kv => all_ids (snd kv)) (members_of metadata).

(** The setters that a members loop leaves for the object at [a]: one for
    each name in [ms], not in [seen], whose first entry is a
    back-reference. *)
Definition own_callbacks (a : loc) (ms : members_t) (seen : list string)
    (cbs : list callback) : Prop :=
  (forall cb, cb ∈ cbs -> cb_mock cb = VRef a ->
     cb_slot cb <> "__proto__" /\ mem_string (cb_slot cb) seen = false /\
     exists sm, lookup_prop (cb_slot cb) ms = Some sm /\
                md_ref sm = Some (cb_ref cb)) /\
  (forall slot sm r,
     slot <> "__proto__" -> mem_string slot seen = false ->
     lookup_prop slot ms = Some sm -> md_ref sm = Some r ->
     mkCallback (VRef a) slot r ∈ cbs).

(** The own property [p] of the object at [l]. *)
Definition own_prop (h : heap) (l : loc) (p : string) : option prop :=
  match h !! l with
  | Some o => lookup_prop p (o_props o)
  | None => None
  end.

(** What [generateMock] does on a plain tree: it returns, the heap it
    leaves is the old one followed by new objects, the setters it queues
    write to those new objects, and the ids it registers are ids of the
    tree; a member that is built and carries an id of its own, found
    nowhere else below the root, is registered under that id and is what
    the object holds under the name of the member. *)
Definition generates (md : MockFunctionMetadata) (st : gen_state) (h : heap)
  : Prop :=
  exists mock cbs refs added,
    generateMock md st h = (Ok (mock, (fst st ++ cbs, refs)), h ++ added) /\
    (if is_shell md then
       exists a, mock = VRef a /\ length h <= a < length h + length added /\
                 own_callbacks a (members_of md) [] cbs
     else mock = md_value md) /\
    (forall cb, cb ∈ cbs ->
       exists l, cb_mock cb = VRef l /\ length h <= l < length h + length added) /\
    (forall k, k ∉ all_ids md -> refs !! k = snd st !! k) /\
    (forall r, md_refID md = Some r -> r ∉ sub_ids md -> refs !! r = Some mock) /\
    (forall a s sm r,
       mock = VRef a -> NoDup (sub_ids md) -> s <> "__proto__" ->
       lookup_prop s (members_of md) = Some sm ->
       md_ref sm = None -> md_refID sm = Some r -> is_shell sm = true ->
       exists l, length h <= l < length h + length added /\ l <> a /\
                 refs !! r = Some (VRef l) /\
                 own_prop (h ++ added) a s = Some (PData (VRef l))).

(** The object at [a], allocated after [h], either has no own
    [prototype] and an intrinsic prototype without one, or its
    [prototype] is another object allocated after [h]. *)
Definition shell_at (h X : heap) (a : loc) : Prop :=
  exists o,
    (h ++ X) !! a = Some o /\ length h <= a /\
    ((lookup_prop "prototype" (o_props o) = None /\
      (o_proto o = Some ObjectPrototype \/ o_proto o = Some ArrayPrototype \/
       o_proto o = Some RegExpPrototype)) \/
     (exists p, lookup_prop "prototype" (o_props o) = Some (PData (VRef p)) /\
                length h <= p < length h + length X /\ p <> a)).

(** The id that the last setter for [l[p]] in [cbs] reads. *)
Fixpoint last_write (cbs : list callback) (l : loc) (p : string) : option nat :=
  match cbs with
  | [] => None
  | cb :: cbs' =>
      match last_write cbs' l p with
      | Some r => Some r
      | None =>
          if strict_equals (cb_mock cb) (VRef l) && String.eqb (cb_slot cb) p
          then Some (cb_ref cb)
          else None
      end
  end.

(** [{type: 'object', refID: 0, members: {self: {ref: 0}, n: 5,
      shared: {type: 'object', refID: 1}, x: {ref: 1}, y: {ref: 1}}}] *)
Definition cyclic_metadata : MockFunctionMetadata :=
  Metadata None
    (Some [ ("self", Metadata (Some 0) None VUndef VUndef None None VUndef);
            ("n", Metadata None None VUndef VUndef None (Some "constant") (VNum 5));
            ("shared", Metadata None None VUndef VUndef (Some 1) (Some "object") VUndef);
            ("x", Metadata (Some 1) None VUndef VUndef None None VUndef);
            ("y", Metadata (Some 1) None VUndef VUndef None None VUndef) ])
    VUndef VUndef (Some 0) (Some "object") VUndef.

(** The back-references that the nodes of a tree carry. *)
Fixpoint all_refs (metadata : MockFunctionMetadata) : list nat :=
  match metadata with
  | Metadata r ms _ _ _ _ _ =>
      match r with Some k => [k] | None => [] end ++
      match ms with
      | Some l => flat_map (fun kv => all_refs (snd kv)) l
      | None => []
      end
  end.

(** The ids, and the back-references, below a list of members. *)
Definition members_ids (ms : members_t) : list nat :=
  flat_map (fun kv => all_ids (snd kv)) ms.

Definition members_refs (ms : members_t) : list nat :=
  flat_map (fun kv => all_refs (snd kv)) ms.

(** The ids of a table are 0, 1, 2, ... in insertion order. *)
Definition table_ok (refs : table) : Prop :=
  map snd refs = seq 0 (length refs).

(** [refs'] is [refs] followed by entries with the next ids. *)
Definition grown (refs refs' : table) : Prop :=
  exists news,
    refs' = refs ++ news /\ map snd news = seq (length refs) (length news).

(** The ids of a tree are distinct and lie in [lo, hi); its
    back-references point below [hi]. *)
Definition ids_ok (lo hi : nat) (ids refs : list nat) : Prop :=
  NoDup ids /\ (forall id, id ∈ ids -> lo <= id < hi) /\
  (forall k, k ∈ refs -> k < hi).

Definition tree_ok (lo hi : nat) (md : MockFunctionMetadata) : Prop :=
  ids_ok lo hi (all_ids md) (all_refs md).

Definition members_ok (lo hi : nat) (members : option members_t) : Prop :=
  ids_ok lo hi (members_ids (default [] members))
    (members_refs (default [] members)).

(** A property of the table before, the result, and the table after,
    for every heap. *)
Definition triple {A} (m : X A) (Q : table -> outcome A -> table -> Prop)
  : Prop :=
  forall refs h,
    table_ok refs -> Q refs (fst (m (refs, h))) (fst (snd (m (refs, h)))).

(** What one extraction leaves: a grown table and, when it returns a
    node, a tree with fresh distinct ids; a node with a [refID] has the id
    that was next, under which the component is now registered. *)
Definition extracted (c : value) (refs : table)
    (r : outcome (option MockFunctionMetadata)) (refs' : table) : Prop :=
  grown refs refs' /\
  forall md, r = Ok (Some md) ->
    tree_ok (length refs) (length refs') md /\
    forall id, md_refID md = Some id ->
      id = length refs /\ Map_get refs c = None /\ Map_get refs' c = Some id.

(** What a step on the members under construction leaves. *)
Definition members_extended (members : option members_t) (refs : table)
    (r : outcome (option members_t)) (refs' : table) : Prop :=
  grown refs refs' /\
  forall members', r = Ok members' ->
    forall lo, lo <= length refs -> members_ok lo (length refs) members ->
               members_ok lo (length refs') members'.

(** [hasOwnProperty] as [getMetadata] finds it: absent, or the
    intrinsic. *)
Definition genuine_hasOwnProperty (h : heap) (v : value) : bool :=
  match v with
  | VRef l =>
      match h !! l with
      | Some o =>
          match o_code o with
          | Some HasOwnProperty => true
          | _ => false
          end
      | None => false
      end
  | _ => negb (truthy v)
  end.

(** [getMockImplementation] as [makeComponent] sets it. *)
Definition genuine_getMockImplementation (h : heap) (v : value) : bool :=
  match v with
  | VRef l =>
      match h !! l with
      | Some o =>
          match o_code o with
          | Some (MockMethod GetMockImplementation f) =>
              match mock_state h f with Some _ => true | None => false end
          | _ => false
          end
      | None => false
      end
  | _ => false
  end.

(** No object overrides [hasOwnProperty], and an object marked as a mock
    function has a genuine [getMockImplementation]. *)
Definition standard (h : heap) : bool :=
  forallb
    (fun l =>
       genuine_hasOwnProperty h (get_loc h l "hasOwnProperty") &&
       (negb (truthy (get_loc h l "_isMockFunction")) ||
        genuine_getMockImplementation h (get_loc h l "getMockImplementation")))
    (seq 0 (length h)).

(** The number of objects of the heap that the table does not hold. *)
Definition unvisited (refs : table) (h : heap) : nat :=
  length (List.filter
            (fun l => match Map_get refs (VRef l) with
                      | None => true
                      | Some _ => false
                      end)
            (seq 0 (length h))).

(** Every key of the table is a value with a type. *)
Definition keys_recognized (h : heap) (refs : table) : Prop :=
  forall k id, Map_get refs k = Some id -> getType h k <> None.

(** Every member recorded for the object at [l] has a value with a
    type. *)
Definition members_recognized (h : heap) (l : loc) (members : option members_t)
  : Prop :=
  forall slot child,
    lookup_prop slot (default [] members) = Some child ->
    getType h (get_loc h l slot) <> None.

(** What the recursive call does in a standard heap [h], for every
    table with at most [n] unvisited objects: it returns, leaves the heap
    alone, and yields a node only for a value that has a type. *)
Definition extract_ok (h : heap) (n : nat)
    (extract : value -> X (option MockFunctionMetadata)) : Prop :=
  forall v refs,
    table_ok refs -> keys_recognized h refs -> unvisited refs h <= n ->
    exists r refs',
      extract v (refs, h) = (Ok r, (refs', h)) /\
      grown refs refs' /\ keys_recognized h refs' /\
      (r <> None -> getType h v <> None) /\
      (forall md l, r = Some md -> v = VRef l ->
                    members_recognized h l (md_members md)).

(** What a step on the members of the object at [l] does there. *)
Definition step_ok (h : heap) (n : nat) (l : loc)
    (step : option members_t -> X (option members_t)) : Prop :=
  forall members refs,
    table_ok refs -> keys_recognized h refs -> unvisited refs h <= n ->
    exists members' refs',
      step members (refs, h) = (Ok members', (refs', h)) /\
      grown refs refs' /\ keys_recognized h refs' /\
      (members_recognized h l members -> members_recognized h l members').

(** [root = {self: root, n: 5, d: new Date()}] at address 8. *)
Definition cyclic_heap : heap :=
  realm ++
  [ plain_object [("self", PData (VRef 8)); ("n", PData (VNum 5));
                  ("d", PData (VRef 9))];
    mkObj "Date" false (Some ObjectPrototype) [] None ].

(** [parent = {x: shared, y: shared}] at address 8, with [shared] a
    [Map]. *)
Definition shared_map_heap : heap :=
  realm ++
  [ plain_object [("x", PData (VRef 9)); ("y", PData (VRef 9))];
    mkObj "Map" false (Some ObjectPrototype) [] None ].

(** Follows the spec's words (section 3): "every node ... that represents
    the same underlying identity is extracted exactly once; every other
    occurrence is a back-reference node", for two members of the root. *)
Definition spec_extracted_once (h : heap) (root : loc)
    (md : MockFunctionMetadata) : Prop :=
  forall x y nx ny l,
    x <> y ->
    get_loc h root x = VRef l -> get_loc h root y = VRef l ->
    lookup_prop x (members_of md) = Some nx ->
    lookup_prop y (members_of md) = Some ny ->
    md_ref nx <> None \/ md_ref ny <> None.

(** The prototype chain of [l] ends within [n] links. *)
Fixpoint settled (n : nat) (h : heap) (l : loc) : bool :=
  match h !! l with
  | None => false
  | Some o =>
      match o_proto o, n with
      | None, _ => true
      | Some l', S n' => settled n' h l'
      | Some _, 0 => false
      end
  end.

(** [h'] has the objects of [h], each with the same prototype and the
    same own property [p]. *)
Definition agrees_on (p : string) (h h' : heap) : Prop :=
  forall l o,
    h !! l = Some o ->
    exists o', h' !! l = Some o' /\ o_proto o' = o_proto o /\
               lookup_prop p (o_props o') = lookup_prop p (o_props o).

(** The function-typed members of a behaviour template. *)
Definition function_slot (st : MockState) (slot : string) : bool :=
  match lookup_prop slot (prototype st) with
  | Some sm => type_is sm "function"
  | None => false
  end.

(** The receiver at [t] after the slots [done] have been visited, in a
    heap that was [h0]: the other objects of [h0] are as they were; the
    receiver differs only in the function-typed slots; each of those holds
    a mock function of its own that [h0] did not have, whose state is the
    initial one and whose [_protoImpl] is what the receiver had there. *)
Definition installed (st : MockState) (t : loc) (h0 : heap)
    (done : list string) (h : heap) : Prop :=
  length h0 <= length h /\
  (forall l o, h0 !! l = Some o -> l <> t -> h !! l = Some o) /\
  (exists o0 o,
     h0 !! t = Some o0 /\ h !! t = Some o /\ same_kind o0 o /\
     forall p, (p ∈ done -> function_slot st p = false) ->
               lookup_prop p (o_props o) = lookup_prop p (o_props o0)) /\
  (forall slot,
     slot ∈ done -> function_slot st slot = true ->
     exists m sm,
       lookup_prop slot (prototype st) = Some sm /\
       own_prop h t slot = Some (PData (VRef m)) /\
       length h0 <= m < length h /\
       mock_state h m = Some (initial_state sm) /\
       own_prop h m "_protoImpl" = Some (PData (get_loc h0 t slot))) /\
  (forall slot slot' m,
     slot ∈ done -> slot' ∈ done ->
     function_slot st slot = true -> function_slot st slot' = true ->
     own_prop h t slot = Some (PData (VRef m)) ->
     own_prop h t slot' = Some (PData (VRef m)) -> slot = slot').

(** The members of a behaviour template that a constructor-style call
    rebuilds can always be built: none of them is called [prototype], and
    each function-typed one is a plain tree. *)
Definition template_plain (h : heap) (st : MockState) : bool :=
  negb (function_slot st "prototype") &&
  forallb (fun kv => negb (type_is (snd kv) "function") || plain_tree h (snd kv))
    (prototype st).

(** [{type: 'function', name: 'Greeter', members: {prototype:
      {type: 'object', members: {greet: {type: 'function', name: 'greet'},
                                 version: {type: 'constant', value: 1}}}}}] *)
Definition class_metadata : MockFunctionMetadata :=
  Metadata None
    (Some [ ("prototype",
             Metadata None
               (Some [ ("greet", Metadata None None VUndef (VStr "greet") None
                                   (Some "function") VUndef);
                       ("version", Metadata None None VUndef VUndef None
                                     (Some "constant") (VNum 1)) ])
               VUndef VUndef None (Some "object") VUndef) ])
    VUndef (VStr "Greeter") None (Some "function") VUndef.

(** The heap after [generateFromMetadata(class_metadata)] in [realm]; the
    mock class is at address 10. *)
Definition class_heap : heap := snd (generateFromMetadata class_metadata realm).


(** [xs.forEach(body)] for a body that also updates the arrays and tables
    it closes over, here the value [s]. *)
Fixpoint forEach_with {A S} (xs : list A) (body : A -> S -> M S) (s : S) : M S :=
  match xs with
  | [] => ret s
  | x :: xs' => let* s' := body x s in forEach_with xs' body s'
  end.

(** The callback of [getSlots(metadata.members).forEach] in [generateMock],
    as the source has it: [slotMetadata] is
    [metadata.members && metadata.members[slot] || {}]. *)
Definition generate_slot
    (generate : MockFunctionMetadata -> gen_state -> M (value * gen_state))
    (mock : value) (members : members_t) (slot : string) (st : gen_state)
  : M gen_state :=
  let slotMetadata := default md_empty (lookup_prop slot members) in
  match md_ref slotMetadata with
  | Some r => ret (fst st ++ [mkCallback mock slot r], snd st)
  | None =>
      let* r := generate slotMetadata st in
      do* set mock slot (fst r) in
      ret (snd r)
  end.

(** [/[\s-]/.test(s)], for the characters [is_space_or_hyphen] covers. *)
Fixpoint has_reserved_char (s : string) : bool :=
  match s with
  | EmptyString => false
  | String c s' => is_space_or_hyphen c || has_reserved_char s'
  end.

(** [n] copies of ["bound "]. *)
Fixpoint bound_prefixes (n : nat) : string :=
  match n with
  | 0 => ""
  | S n' => boundFunctionPrefix +:+ bound_prefixes n'
  end.

(** [{type: 'function', name}] *)
Definition named_function (name : value) : MockFunctionMetadata :=
  Metadata None None VUndef name None (Some "function") VUndef.

(** [s.includes(c)] *)
Fixpoint contains_char (c : ascii) (s : string) : bool :=
  match s with
  | EmptyString => false
  | String d s' => Ascii.eqb c d || contains_char c s'
  end.

(** The objects whose own names the loop of [getSlots] reads, in order:
    it starts at [object], stops before [Function.prototype], and goes on
    to the parent only when the parent has a prototype of its own. *)
Fixpoint walked (n : nat) (h : heap) (object : loc) (parent : option loc)
  : list loc :=
  if Nat.eqb object FunctionPrototype then []
  else
    object ::
    match parent with
    | None => []
    | Some object' =>
        match getPrototypeOf h object', n with
        | Some parent', S n' => walked n' h object' (Some parent')
        | _, _ => []
        end
    end.

(** [l'] is [l] or one of its prototypes. *)
Inductive on_chain (h : heap) : loc -> loc -> Prop :=
| chain_here l : on_chain h l l
| chain_up l p l' :
    getPrototypeOf h l = Some p -> on_chain h p l' -> on_chain h l l'.

(** What makes [getSlots] list the own property [slot], with descriptor
    [d], of the object at [l]. *)
Definition listed (h : heap) (l : loc) (slot : string) (d : prop) : Prop :=
  isReadonlyProp h (VRef l) slot = false /\
  (is_getter d = false \/ truthy (get_loc h l "__esModule") = true).

(** The closure variables after the configuration method [m] has been
    called with [v]: [mockReturnValueOnce] and [mockReturnValue] set the
    flag, [mockImplementationOnce] and [mockImplementation] clear it; the
    two [Once] methods append [v] to their queue, the other two store it as
    the persistent value. *)
Definition configured (m : method) (v : value) (st : MockState) : MockState :=
  match m with
  | MockReturnValueOnce =>
      mkMockState true (defaultReturnValue st) (mockImpl st)
        (specificReturnValues st ++ [v]) (specificMockImpls st)
        (calls st) (instances st) (prototype st) (prototypeSlots st)
  | MockReturnValue =>
      mkMockState true v (mockImpl st)
        (specificReturnValues st) (specificMockImpls st)
        (calls st) (instances st) (prototype st) (prototypeSlots st)
  | MockImplementationOnce =>
      mkMockState false (defaultReturnValue st) (mockImpl st)
        (specificReturnValues st) (specificMockImpls st ++ [v])
        (calls st) (instances st) (prototype st) (prototypeSlots st)
  | MockImplementation =>
      mkMockState false (defaultReturnValue st) v
        (specificReturnValues st) (specificMockImpls st)
        (calls st) (instances st) (prototype st) (prototypeSlots st)
  | _ => st
  end.

(** The four methods that take a value and return the mock. *)
Definition is_setter (m : method) : bool :=
  match m with
  | MockReturnValueOnce | MockReturnValue
  | MockImplementationOnce | MockImplementation => true
  | _ => false
  end.


(** The export [getMockFunction]. *)
Definition getMockFunction : M value := makeComponent function_metadata.

(** Every key of the members under construction satisfies [P]. *)
Definition keys_in (P : string -> Prop) (members : option members_t) : Prop :=
  forall k, is_Some (lookup_prop k (default [] members)) -> P k.

(** Where a member of the metadata of the object at [l], of type [type],
    can come from: a name that [getSlots] lists, not one of the [mock...]
    names when the object is a mock function; or the [prototype] of a
    function. *)
Definition member_origin (h : heap) (l : loc) (type : string) (k : string)
  : Prop :=
  (k ∈ getSlots h (VRef l) /\
   (type = "function" -> truthy (get_loc h l "_isMockFunction") = true ->
    starts_with_mock k = false)) \/
  (k = "prototype" /\ type = "function" /\
   truthy (get_loc h l "prototype") = true).

(** The array [[1]] at address 8. *)
Definition array_heap : heap :=
  realm ++
  [ mkObj "Array" true (Some ArrayPrototype)
      [("0", PData (VNum 1)); ("length", PData (VNum 1))] None ].




(** The receiver that [mockConstructor] sees is the receiver of the call.
    This is so when [f] is [mockConstructor] itself, a strict function;
    and for an object as receiver when [f] is the wrapper made by
    [new Function] and is not bound: the wrapper is not strict, so it
    replaces [undefined] and [null] by the global object and wraps any
    other primitive, and a bound wrapper ignores the receiver. *)
Definition receives_receiver (h : heap) (f : loc) (this : value) : Prop :=
  get_loc h f "name" = VStr MOCK_CONSTRUCTOR_NAME \/
  (exists label l,
     get_loc h f "name" = VStr label /\
     String.prefix boundFunctionPrefix label = false /\
     this = VRef l).



(** The function at [f] is not a bound one: the name it reports does not
    start with [bound].  A mock whose name starts with [bound] is the
    result of [.bind(null)]: it has no [prototype] of its own, and [new]
    on it builds the instance from the prototype of the function that was
    bound. *)
Definition not_bound (h : heap) (f : loc) : Prop :=
  exists label,
    get_loc h f "name" = VStr label /\
    String.prefix boundFunctionPrefix label = false.

(** ** Members that can be assigned

    [set] always defines a data property.  An assignment of the source, in
    strict mode, raises where it finds a read-only property or an accessor
    without a setter, and on an array [length] and the indices are
    special; [assignable] names the members for which [set] is what the
    source does.

    [no_accessor n h l p]: no object on the prototype chain of [l] has an
    accessor named [p] (the accessors of the embedding have a getter
    only). *)
Fixpoint no_accessor (n : nat) (h : heap) (l : loc) (p : string) : bool :=
  match h !! l with
  | None => true
  | Some o =>
      match lookup_prop p (o_props o) with
      | Some d => negb (is_getter d)
      | None =>
          match o_proto o, n with
          | Some l', S n' => no_accessor n' h l' p
          | _, _ => true
          end
      end
  end.

(** The prototype of the object that [makeComponent] creates. *)
Definition intrinsic_prototype (metadata : MockFunctionMetadata) : option loc :=
  if type_is metadata "object" then Some ObjectPrototype
  else if type_is metadata "array" then Some ArrayPrototype
  else if type_is metadata "regexp" then Some RegExpPrototype
  else if type_is metadata "function" then Some FunctionPrototype
  else None.

Definition starts_with_digit (s : string) : bool :=
  match s with
  | String c _ => Nat.leb 48 (nat_of_ascii c) && Nat.leb (nat_of_ascii c) 57
  | EmptyString => false
  end.

(** [mock[slot] = v] defines or overwrites a data property of the new
    component: [slot] is not [name], [length], [arguments] or [caller] of
    a function, which are read-only or raise; not [length] or an index of
    an array; and not an accessor inherited from the prototype. *)
Definition assignable (h : heap) (metadata : MockFunctionMetadata)
    (slot : string) : bool :=
  (if type_is metadata "function"
   then negb (mem_string slot ["name"; "length"; "arguments"; "caller"])
   else if type_is metadata "array"
   then negb (String.eqb slot "length") && negb (starts_with_digit slot)
   else true) &&
  match intrinsic_prototype metadata with
  | Some l => no_accessor (length h) h l slot
  | None => true
  end.

Definition assignable_members (h : heap) (metadata : MockFunctionMetadata)
    (assignable_nodes : MockFunctionMetadata -> bool) :=
  fix go (ms : members_t) : bool :=
    match ms with
    | [] => true
    | (slot, slotMetadata) :: ms' =>
        assignable h metadata slot &&
        match md_ref slotMetadata with
        | Some _ => true
        | None => assignable_nodes slotMetadata
        end && go ms'
    end.

(** Every member of every node, built or deferred, is assignable. *)
Fixpoint assignable_nodes (h : heap) (metadata : MockFunctionMetadata) : bool :=
  match md_members metadata with
  | Some ms => assignable_members h metadata (assignable_nodes h) ms
  | None => true
  end.

(** ... and [constructor] can be assigned on the [prototype] of a
    component. *)
Definition assignable_tree (h : heap) (metadata : MockFunctionMetadata) : bool :=
  forallb (fun l => no_accessor (length h) h l "constructor")
    [ObjectPrototype; ArrayPrototype; RegExpPrototype; FunctionPrototype] &&
  assignable_nodes h metadata.

(** The members of a behaviour template that a constructor-style call
    rebuilds can be assigned: on the instance, whose prototype is [p], on
    the mock functions built for them, and [_protoImpl] on those. *)
Definition template_assignable (h : heap) (st : MockState) (p : loc) : bool :=
  no_accessor (length h) h FunctionPrototype "_protoImpl" &&
  forallb
    (fun kv =>
       negb (type_is (snd kv) "function") ||
       (no_accessor (length h) h p (fst kv) && assignable_tree h (snd kv)))
    (prototype st).

(** * Properties *)

(** ** The state monad *)

Lemma bind_ok {S A B} (m : ST S A) (k : A -> ST S B) s a s' :
  m s = (Ok a, s') -> bind m k s = k a s'.
Proof. intros H. unfold bind. now rewrite H. Qed.

Lemma bind_throw {S A B} (m : ST S A) (k : A -> ST S B) s e s' :
  m s = (Throw e, s') -> bind m k s = (Throw e, s').
Proof. intros H. unfold bind. now rewrite H. Qed.

(** ** Closure variables in the heap *)

Lemma mock_state_lookup h f st :
  mock_state h f = Some st ->
  exists o, h !! f = Some o /\ o_code o = Some (MockConstructor st).
Proof.
  unfold mock_state. destruct (h !! f) as [o|]; [|discriminate].
  destruct (o_code o) as [[]|] eqn:E; try discriminate.
  intros [= ->]. eauto.
Qed.

Lemma update_state_eq h f st g :
  mock_state h f = Some st ->
  update_state f g h = (Ok tt, with_state f (g st) h).
Proof.
  intros H. destruct (mock_state_lookup _ _ _ H) as (o & Ho & Hc).
  unfold update_state, with_state. now rewrite Ho, Hc.
Qed.

Lemma mock_state_with_state h f st st' :
  mock_state h f = Some st ->
  mock_state (with_state f st' h) f = Some st'.
Proof.
  intros H. destruct (mock_state_lookup _ _ _ H) as (o & Ho & Hc).
  unfold with_state, mock_state. rewrite Ho.
  rewrite list_lookup_insert_eq by (eapply lookup_lt_Some; eauto).
  reflexivity.
Qed.

Lemma with_state_twice h f st st1 st2 :
  mock_state h f = Some st ->
  with_state f st2 (with_state f st1 h) = with_state f st2 h.
Proof.
  intros H. destruct (mock_state_lookup _ _ _ H) as (o & Ho & Hc).
  unfold with_state. rewrite Ho.
  rewrite list_lookup_insert_eq by (eapply lookup_lt_Some; eauto).
  rewrite list_insert_insert_eq. reflexivity.
Qed.

Lemma length_with_state h f st : length (with_state f st h) = length h.
Proof.
  unfold with_state. destruct (h !! f); [apply length_insert | reflexivity].
Qed.

Lemma lookup_with_state_ne h f st l :
  l <> f -> with_state f st h !! l = h !! l.
Proof.
  intros Hne. unfold with_state. destruct (h !! f); [|reflexivity].
  apply list_lookup_insert_ne. congruence.
Qed.

Lemma same_shape_refl h : same_shape h h.
Proof. intros l. destruct (h !! l); auto. Qed.

Lemma same_shape_trans h1 h2 h3 :
  same_shape h1 h2 -> same_shape h2 h3 -> same_shape h1 h3.
Proof.
  intros H12 H23 l. specialize (H12 l). specialize (H23 l).
  destruct (h1 !! l), (h2 !! l), (h3 !! l); try tauto.
  destruct H12 as (?&?&?&?), H23 as (?&?&?&?). repeat split; congruence.
Qed.

Lemma same_shape_length h h' : same_shape h h' -> length h = length h'.
Proof.
  intros H.
  destruct (Nat.lt_trichotomy (length h) (length h')) as [Hlt|[Heq|Hlt]]; auto.
  - specialize (H (length h)).
    rewrite (lookup_ge_None_2 h) in H by lia.
    destruct (lookup_lt_is_Some_2 h' (length h) Hlt) as [o Ho].
    rewrite Ho in H. contradiction.
  - specialize (H (length h')).
    rewrite (lookup_ge_None_2 h') in H by lia.
    destruct (lookup_lt_is_Some_2 h (length h') Hlt) as [o Ho].
    rewrite Ho in H. contradiction.
Qed.

Lemma same_shape_with_state h f st : same_shape h (with_state f st h).
Proof.
  intros l. unfold with_state.
  destruct (h !! f) as [o|] eqn:Ho.
  - destruct (decide (l = f)) as [->|Hne].
    + rewrite Ho, list_lookup_insert_eq by (eapply lookup_lt_Some; eauto).
      simpl. auto.
    + rewrite list_lookup_insert_ne by congruence.
      destruct (h !! l); auto.
  - destruct (h !! l); auto.
Qed.

Lemma get_from_shape h h' n l p :
  same_shape h h' -> get_from n h l p = get_from n h' l p.
Proof.
  intros H. revert l. induction n as [|n IH]; intros l; simpl;
    pose proof (H l) as Hl;
    destruct (h !! l) as [o|], (h' !! l) as [o'|]; try tauto;
    destruct Hl as (_ & _ & Hp & Hps); rewrite Hps, Hp;
    destruct (lookup_prop p (o_props o')); auto.
  destruct (o_proto o'); auto.
Qed.

Lemma get_loc_shape h h' l p :
  same_shape h h' -> get_loc h l p = get_loc h' l p.
Proof.
  intros H. unfold get_loc. rewrite (same_shape_length _ _ H).
  now apply get_from_shape.
Qed.

Lemma getPrototypeOf_shape h h' l :
  same_shape h h' -> getPrototypeOf h l = getPrototypeOf h' l.
Proof.
  intros H. unfold getPrototypeOf. specialize (H l).
  destruct (h !! l), (h' !! l); tauto.
Qed.

Lemma chain_has_shape h h' n l t :
  same_shape h h' -> chain_has n h l t = chain_has n h' l t.
Proof.
  intros H. revert l. induction n as [|n IH]; intros [l|]; simpl; auto.
  destruct (l =? t); auto. rewrite IH. f_equal. now apply getPrototypeOf_shape.
Qed.

Lemma instanceof_heap this f h : snd (instanceof this f h) = h.
Proof.
  unfold instanceof. destruct this; auto. destruct (get_loc h f "prototype"); auto.
Qed.

Lemma instanceof_shape this f h h' :
  same_shape h h' -> fst (instanceof this f h) = fst (instanceof this f h').
Proof.
  intros H. unfold instanceof. destruct this; auto.
  rewrite <- (get_loc_shape h h' f "prototype" H).
  destruct (get_loc h f "prototype"); auto. simpl.
  rewrite <- (same_shape_length _ _ H), <- (getPrototypeOf_shape _ _ _ H).
  f_equal. now apply chain_has_shape.
Qed.

Lemma instanceof_eq this f h :
  instanceof this f h = (fst (instanceof this f h), h).
Proof.
  rewrite <- (instanceof_heap this f h) at 3. now destruct (instanceof this f h).
Qed.

(** [record_call] is one assignment to each ledger. *)
Lemma record_call_eq h f st this args :
  mock_state h f = Some st ->
  record_call f this args h = (Ok tt, with_state f (recorded this args st) h).
Proof.
  intros H. unfold record_call.
  erewrite bind_ok by (apply update_state_eq; eauto).
  erewrite update_state_eq by (eapply mock_state_with_state; eauto).
  erewrite with_state_twice by eauto. reflexivity.
Qed.

Lemma read_state_eq h f st :
  mock_state h f = Some st -> read_state f h = (Ok st, h).
Proof. intros H. unfold read_state. now rewrite H. Qed.

(** A plain call, step by step. *)
Ltac bind_step tac := erewrite bind_ok; [ | tac ]; cbv beta iota.

Lemma get_eq h v p : get v p h = (get_pure h v p, h).
Proof. reflexivity. Qed.

Lemma implementation_phase (apply : apply_t) h h2 f st2 this args rv :
  mock_state h2 f = Some st2 ->
  same_shape h h2 ->
  (let* st0 := read_state f in
   let (queued, rest) := shift (specificMockImpls st0) in
   do* update_state f (set_specificMockImpls rest) in
   let specificMockImpl :=
     if strict_equals queued VUndef then mockImpl st0 else queued in
   if truthy specificMockImpl then apply specificMockImpl this args
   else
     let* protoImpl := get (VRef f) "_protoImpl" in
     if truthy protoImpl then apply protoImpl this args
     else ret rv) h2 =
  let h' :=
    with_state f (set_specificMockImpls (snd (shift (specificMockImpls st2))) st2)
      h2 in
  if truthy (resolved_implementation st2)
  then apply (resolved_implementation st2) this args h'
  else if truthy (get_loc h f "_protoImpl")
  then apply (get_loc h f "_protoImpl") this args h'
  else (Ok rv, h').
Proof.
  intros Hst Hsh.
  bind_step ltac:(apply read_state_eq; eauto).
  unfold resolved_implementation.
  destruct (shift (specificMockImpls st2)) as [queued rest]; cbn [fst snd].
  bind_step ltac:(apply update_state_eq; eauto).
  destruct (truthy (if strict_equals queued VUndef then mockImpl st2 else queued));
    [reflexivity|].
  pose proof (same_shape_with_state h2 f (set_specificMockImpls rest st2)) as Hsh2.
  bind_step ltac:(rewrite get_eq; cbn [get_pure]; reflexivity).
  rewrite <- (get_loc_shape h _ f "_protoImpl" (same_shape_trans _ _ _ Hsh Hsh2)).
  destruct (truthy (get_loc h f "_protoImpl")); reflexivity.
Qed.

Lemma plain_call_eq (apply : apply_t) h f st this args :
  mock_state h f = Some st ->
  fst (instanceof this f h) = Ok false ->
  mockConstructor apply f this args h =
    if strict_equals (resolved_return_value st) VUndef then
      let h' := with_state f (after_implementations this args st) h in
      if truthy (resolved_implementation st)
      then apply (resolved_implementation st) this args h'
      else if truthy (get_loc h f "_protoImpl")
      then apply (get_loc h f "_protoImpl") this args h'
      else (Ok VUndef, h')
    else (Ok (resolved_return_value st),
          with_state f (after_return_values this args st) h).
Proof.
  intros Hst Hplain. unfold mockConstructor.
  bind_step ltac:(eapply record_call_eq; eauto).
  pose proof (same_shape_with_state h f (recorded this args st)) as Hsh.
  pose proof (mock_state_with_state h f st (recorded this args st) Hst) as Hst1.
  set (h1 := with_state f (recorded this args st) h) in *.
  bind_step ltac:(rewrite instanceof_eq, <- (instanceof_shape this f h h1 Hsh), Hplain;
    reflexivity).
  bind_step ltac:(apply read_state_eq; eauto).
  unfold resolved_return_value, after_implementations, after_return_values.
  cbn [isReturnValueLastSet recorded set_calls set_instances
       specificReturnValues defaultReturnValue].
  destruct (isReturnValueLastSet st) eqn:Hflag.
  - destruct (shift (specificReturnValues st)) as [rv rest]; cbn [fst snd].
    set (st2 := set_specificReturnValues rest (recorded this args st)).
    assert (Hh2 : with_state f st2 h1 = with_state f st2 h)
      by (eapply with_state_twice; eauto).
    assert (Hst2 : mock_state (with_state f st2 h) f = Some st2)
      by (eapply mock_state_with_state; eauto).
    assert (Hstep :
      (do* update_state f (set_specificReturnValues rest) in
       if strict_equals rv VUndef then ret (defaultReturnValue st) else ret rv) h1
      = (Ok (if strict_equals rv VUndef then defaultReturnValue st else rv),
         with_state f st2 h)).
    { erewrite bind_ok by (apply update_state_eq; eauto).
      fold st2. rewrite Hh2. destruct (strict_equals rv VUndef); reflexivity. }
    bind_step ltac:(exact Hstep).
    destruct (strict_equals (if strict_equals rv VUndef then defaultReturnValue st else rv) VUndef)
      eqn:Hrv; [|reflexivity].
    rewrite (implementation_phase apply h _ f st2 this args _ Hst2
               (same_shape_with_state h f st2)).
    cbv zeta. erewrite with_state_twice by eauto.
    assert (Hv : (if strict_equals rv VUndef then defaultReturnValue st else rv) = VUndef).
    { destruct (if strict_equals rv VUndef then defaultReturnValue st else rv);
        try discriminate; reflexivity. }
    rewrite Hv. reflexivity.
  - bind_step ltac:(reflexivity). cbn [strict_equals].
    rewrite (implementation_phase apply h _ f _ this args _ Hst1 Hsh).
    cbv zeta. unfold h1. erewrite with_state_twice by eauto. reflexivity.
Qed.

(** ** The configuration calls *)

Ltac setter_eq :=
  intros H;
  repeat (erewrite bind_ok;
          [ | first [ apply update_state_eq; eassumption
                    | apply update_state_eq; eapply mock_state_with_state;
                      eassumption ] ]; cbv beta);
  erewrite with_state_twice by eassumption; reflexivity.

Lemma mockReturnValueOnce_eq h f st v :
  mock_state h f = Some st ->
  mockReturnValueOnce f v h =
    (Ok (VRef f),
     with_state f
       (set_specificReturnValues (specificReturnValues st ++ [v])
          (set_flag true st)) h).
Proof. unfold mockReturnValueOnce. setter_eq. Qed.

Lemma mockReturnValue_eq h f st v :
  mock_state h f = Some st ->
  mockReturnValue f v h =
    (Ok (VRef f), with_state f (set_defaultReturnValue v (set_flag true st)) h).
Proof. unfold mockReturnValue. setter_eq. Qed.

Lemma mockImplementationOnce_eq h f st fn :
  mock_state h f = Some st ->
  mockImplementationOnce f fn h =
    (Ok (VRef f),
     with_state f
       (set_specificMockImpls (specificMockImpls st ++ [fn])
          (set_flag false st)) h).
Proof. unfold mockImplementationOnce. setter_eq. Qed.

Lemma mockImplementation_eq h f st fn :
  mock_state h f = Some st ->
  mockImplementation f fn h =
    (Ok (VRef f), with_state f (set_mockImpl fn (set_flag false st)) h).
Proof. unfold mockImplementation. setter_eq. Qed.

Lemma mockClear_eq h f st :
  mock_state h f = Some st ->
  mockClear f h = (Ok VUndef, with_state f (cleared st) h).
Proof. unfold mockClear, cleared. setter_eq. Qed.


Lemma call_mock `{Natives} fuel h f st this args :
  mock_state h f = Some st ->
  call (S fuel) (VRef f) this args h = mockConstructor (call fuel) f this args h.
Proof.
  intros Hst. destruct (mock_state_lookup _ _ _ Hst) as (o & Ho & Hc).
  simpl. now rewrite Ho, Hc.
Qed.

(** ** Induction on metadata trees *)

Lemma metadata_ind (P : MockFunctionMetadata -> Prop) :
  (forall md, Forall (fun kv => P (snd kv)) (members_of md) -> P md) ->
  forall md, P md.
Proof.
  intros step. fix F 1. intros [r ms mi n id t v]. apply step.
  unfold members_of; simpl. destruct ms as [l|]; [|constructor].
  revert l. fix G 1. intros [|[k m] l]; constructor; [apply F | apply G].
Qed.

(** ** Heaps that only grow

    [extends h h']: every object of [h] is still there in [h'], with the
    same tag, prototype and code; its properties may have changed. *)

Lemma extends_refl h : extends h h.
Proof. intros l o Ho. exists o. repeat split; auto. Qed.

Lemma extends_trans h1 h2 h3 : extends h1 h2 -> extends h2 h3 -> extends h1 h3.
Proof.
  intros H12 H23 l o Ho.
  destruct (H12 l o Ho) as (o2 & Ho2 & (?&?&?&?)).
  destruct (H23 l o2 Ho2) as (o3 & Ho3 & (?&?&?&?)).
  exists o3. repeat split; congruence.
Qed.

Lemma extends_length h h' : extends h h' -> length h <= length h'.
Proof.
  intros H. destruct (decide (length h = 0)) as [->|Hne]; [lia|].
  destruct (lookup_lt_is_Some_2 h (length h - 1)) as [o Ho]; [lia|].
  destruct (H _ _ Ho) as (o' & Ho' & _).
  apply lookup_lt_Some in Ho'. lia.
Qed.

Lemma grows_ret {A} (a : A) : grows (ret a).
Proof. intros h. apply extends_refl. Qed.

Lemma grows_throw {A} e : grows (@throw heap A e).
Proof. intros h. apply extends_refl. Qed.

Lemma grows_lift {A} (o : outcome A) : grows (lift o).
Proof. intros h. apply extends_refl. Qed.

Lemma grows_bind {A B} (m : M A) (k : A -> M B) :
  grows m -> (forall a, grows (k a)) -> grows (bind m k).
Proof.
  intros Hm Hk h. unfold bind. specialize (Hm h).
  destruct (m h) as [[a| |] h1]; simpl in *; auto.
  eapply extends_trans; [exact Hm | apply Hk].
Qed.

Lemma grows_get v p : grows (get v p).
Proof. intros h. apply extends_refl. Qed.

Lemma grows_set t p v : grows (set t p v).
Proof.
  intros h. unfold set. destruct t; try apply extends_refl.
  destruct (h !! l) as [o|] eqn:Ho; [|apply extends_refl].
  intros l' o' Ho'. simpl.
  destruct (decide (l' = l)) as [->|Hne].
  - rewrite list_lookup_insert_eq by (eapply lookup_lt_Some; eauto).
    eexists; split; [reflexivity|].
    rewrite Ho in Ho'. injection Ho' as <-. repeat split.
  - rewrite list_lookup_insert_ne by congruence.
    exists o'. repeat split; auto.
Qed.

Lemma extends_app h added : extends h (h ++ added).
Proof.
  intros l o Ho. exists o. split; [|repeat split].
  rewrite lookup_app_l; auto. eapply lookup_lt_Some; eauto.
Qed.

Lemma grows_alloc o : grows (alloc o).
Proof. intros h. apply extends_app. Qed.

Lemma grows_forEach {A} (xs : list A) (body : A -> M unit) :
  (forall x, grows (body x)) -> grows (forEach xs body).
Proof.
  intros Hb. induction xs as [|x xs IH]; simpl.
  - apply grows_ret.
  - apply grows_bind; auto.
Qed.

Lemma grows_makeComponent md : grows (makeComponent md).
Proof.
  unfold makeComponent.
  repeat match goal with
         | |- grows (if ?b then _ else _) => destruct b
         | |- grows (bind _ _) => apply grows_bind; [|intros ?]
         | |- grows (ret _) => apply grows_ret
         | |- grows (throw _) => apply grows_throw
         | |- grows (lift _) => apply grows_lift
         | |- grows (alloc _) => apply grows_alloc
         end.
  intros h. apply extends_app.
Qed.

Lemma grows_relink md mock : grows (relink_constructor md mock).
Proof.
  unfold relink_constructor.
  destruct (_ && _); [|apply grows_ret].
  apply grows_bind; [apply grows_get|]. intros p.
  destruct (truthy p); [apply grows_set | apply grows_ret].
Qed.

Lemma grows_members_loop generate mock ms :
  Forall (fun kv => forall st, grows (generate (snd kv) st)) ms ->
  forall seen st, grows (members_loop generate mock ms seen st).
Proof.
  induction 1 as [|[slot sm] ms Hsm _ IH]; intros seen st; simpl.
  - apply grows_ret.
  - destruct (_ || _); [apply IH|].
    apply grows_bind; [|intros ?; apply IH].
    destruct (md_ref sm); [apply grows_ret|].
    apply grows_bind; [apply Hsm|]. intros r.
    apply grows_bind; [apply grows_set|]. intros _. apply grows_ret.
Qed.

Lemma generateMock_unfold md st :
  generateMock md st =
    (let* mock := makeComponent md in
     let st1 : gen_state :=
       match md_refID md with
       | Some id => (fst st, <[id := mock]> (snd st))
       | None => st
       end in
     let* st2 :=
       match md_members md with
       | Some ms => members_loop generateMock mock ms [] st1
       | None => ret st1
       end in
     do* relink_constructor md mock in
     ret (mock, st2)).
Proof. destruct md; reflexivity. Qed.

Lemma grows_generateMock md : forall st, grows (generateMock md st).
Proof.
  induction md as [md IH] using metadata_ind. intros st.
  rewrite generateMock_unfold.
  apply grows_bind; [apply grows_makeComponent|]. intros mock.
  apply grows_bind.
  - unfold members_of in IH. destruct (md_members md); [|apply grows_ret].
    now apply grows_members_loop.
  - intros st2. apply grows_bind; [apply grows_relink|]. intros _. apply grows_ret.
Qed.

Lemma grows_generateFromMetadata md : grows (generateFromMetadata md).
Proof.
  unfold generateFromMetadata.
  apply grows_bind; [apply grows_generateMock|].
  intros [mock [cbs refs]].
  apply grows_bind; [|intros _; apply grows_ret].
  apply grows_forEach. intros cb. apply grows_set.
Qed.

Lemma grows_install_slot st this slot : grows (install_slot st this slot).
Proof.
  unfold install_slot. destruct (lookup_prop slot (prototype st)); [|apply grows_throw].
  destruct (type_is _ _); [|apply grows_ret].
  apply grows_bind; [apply grows_get|]. intros protoImpl.
  apply grows_bind; [apply grows_generateFromMetadata|]. intros fresh.
  apply grows_bind; [apply grows_set|]. intros _.
  apply grows_bind; [apply grows_get|]. intros fresh'. apply grows_set.
Qed.

Lemma extends_mock_state h h' f st :
  extends h h' -> mock_state h f = Some st -> mock_state h' f = Some st.
Proof.
  intros He Hst. destruct (mock_state_lookup _ _ _ Hst) as (o & Ho & Hc).
  destruct (He _ _ Ho) as (o' & Ho' & (_ & _ & _ & Hc')).
  unfold mock_state. now rewrite Ho', Hc', Hc.
Qed.

Lemma install_slot_recorded st this0 args this slot :
  install_slot (recorded this0 args st) this slot = install_slot st this slot.
Proof. reflexivity. Qed.

(** A constructor-style call, step by step. *)
Lemma constructor_call_eq (apply : apply_t) h f st this args :
  mock_state h f = Some st ->
  fst (instanceof this f h) = Ok true ->
  mockConstructor apply f this args h =
    match forEach (prototypeSlots st) (install_slot st this)
            (with_state f (recorded this args st) h) with
    | (Ok _, h2) =>
        if truthy (mockImpl st) then apply (mockImpl st) this args h2
        else (Ok (mockImpl st), h2)
    | (Throw e, h2) => (Throw e, h2)
    | (OutOfFuel, h2) => (OutOfFuel, h2)
    end.
Proof.
  intros Hst Hnew. unfold mockConstructor.
  bind_step ltac:(eapply record_call_eq; eauto).
  pose proof (same_shape_with_state h f (recorded this args st)) as Hsh.
  pose proof (mock_state_with_state h f st (recorded this args st) Hst) as Hst1.
  set (h1 := with_state f (recorded this args st) h) in *.
  bind_step ltac:(rewrite instanceof_eq, <- (instanceof_shape this f h h1 Hsh), Hnew;
    reflexivity).
  bind_step ltac:(apply read_state_eq; eauto).
  cbn [prototypeSlots recorded set_calls set_instances].
  unfold bind at 1.
  pose proof (grows_forEach (prototypeSlots st) (install_slot st this)
                (grows_install_slot st this) h1) as Hg.
  change (install_slot (recorded this args st) this) with (install_slot st this).
  destruct (forEach (prototypeSlots st) (install_slot st this) h1)
    as [[[]| |] h2]; try reflexivity.
  simpl in Hg. cbv beta iota.
  bind_step ltac:(apply read_state_eq; eapply extends_mock_state; eauto).
  cbn [mockImpl recorded set_calls set_instances].
  destruct (truthy (mockImpl st)); reflexivity.
Qed.

(** ** isMockFunction *)

(** C10: [isMockFunction] reads [_isMockFunction] from its argument
    without a guard: on [undefined] and on [null] it raises a type error
    (it does not answer [false]); on every other argument it returns the
    truthiness of the property, found on the object or, for a primitive,
    on the prototype of its wrapper. *)
Theorem isMockFunction_reads_marker :
  (forall h, isMockFunction VUndef h = (Throw TypeError, h)) /\
  (forall h, isMockFunction VNull h = (Throw TypeError, h)) /\
  (forall h l,
     isMockFunction (VRef l) h
     = (Ok (truthy (get_loc h l "_isMockFunction")), h)) /\
  (forall h n,
     isMockFunction (VNum n) h
     = (Ok (truthy (get_loc h NumberPrototype "_isMockFunction")), h)) /\
  (forall h s,
     isMockFunction (VStr s) h
     = (Ok (truthy (get_loc h StringPrototype "_isMockFunction")), h)) /\
  (forall h b,
     isMockFunction (VBool b) h
     = (Ok (truthy (get_loc h BooleanPrototype "_isMockFunction")), h)).
Proof.
  repeat split; intros; unfold isMockFunction, bind, get; simpl;
    now rewrite ?negb_involutive.
Qed.

(** ** Unknown types *)

Lemma unknown_type_tests md :
  known_type (md_type md) = false ->
  type_is md "function" = false /\ type_is md "array" = false /\
  type_is md "object" = false /\ type_is md "constant" = false /\
  type_is md "collection" = false /\ type_is md "regexp" = false /\
  type_is md "undefined" = false /\ type_is md "null" = false.
Proof.
  unfold known_type, type_is. destruct (md_type md) as [t|]; [|tauto].
  unfold mem_string, known_types. simpl. rewrite !orb_false_iff. tauto.
Qed.

(** C6: a node whose [type] is none of function, array, object, constant,
    collection, regexp, undefined, null makes [makeComponent] raise
    [Error('Unrecognized type ' + type)], the type string itself whenever
    it is a non-empty string; nothing is built (the heap is as before), and
    [generateMock] and [generateFromMetadata] raise the same error for such
    a node. *)
Theorem unknown_type_raises (md : MockFunctionMetadata) (h : heap) :
  known_type (md_type md) = false ->
  makeComponent md h = (Throw (Error ("Unrecognized type " +:+ unknownType md)), h) /\
  (forall st,
     generateMock md st h
     = (Throw (Error ("Unrecognized type " +:+ unknownType md)), h)) /\
  generateFromMetadata md h
  = (Throw (Error ("Unrecognized type " +:+ unknownType md)), h) /\
  (forall t, md_type md = Some t -> t <> "" -> unknownType md = t).
Proof.
  intros Hk.
  destruct (unknown_type_tests md Hk) as (Hf & Ha & Ho & Hc & Hl & Hr & Hu & Hn).
  assert (Hmk : makeComponent md h
                = (Throw (Error ("Unrecognized type " +:+ unknownType md)), h)).
  { unfold makeComponent. now rewrite Ho, Ha, Hr, Hc, Hl, Hn, Hu, Hf. }
  assert (Hgen : forall st, generateMock md st h
                = (Throw (Error ("Unrecognized type " +:+ unknownType md)), h)).
  { intros st. rewrite generateMock_unfold. now apply bind_throw. }
  repeat split; auto.
  - unfold generateFromMetadata. now apply bind_throw.
  - intros t Ht Hne. unfold unknownType. rewrite Ht.
    destruct (String.eqb t "") eqn:E; [apply String.eqb_eq in E; contradiction|].
    reflexivity.
Qed.

Lemma unknown_type_raises_witness :
  known_type (Some "promise") = false /\
  generateFromMetadata
    (Metadata None None VUndef VUndef (Some 0) (Some "promise") VUndef) realm
  = (Throw (Error "Unrecognized type promise"), realm).
Proof.
  split; [reflexivity|].
  apply (unknown_type_raises
           (Metadata None None VUndef VUndef (Some 0) (Some "promise") VUndef)
           realm).
  reflexivity.
Defined.

(** ** Plain invocation *)





Section RuntimeProperties.
Context {N : Natives}.


End RuntimeProperties.



Section ReturnValues.
Context {N : Natives}.


End ReturnValues.



(** ** mockClear *)

Section Clear.
Context {N : Natives}.


End Clear.


(** ** The ledger *)









Section Ledger.
Context {N : Natives}.


End Ledger.



(** ** Generation on plain trees *)

Lemma lacks_mono n h l p :
  lacks n h l p = true ->
  forall n' X, n <= n' -> lacks n' (h ++ X) l p = true.
Proof.
  revert l. induction n as [|n IH]; intros l Hl n' X Hle; simpl in Hl;
    destruct (h !! l) as [o|] eqn:Ho; try discriminate;
    destruct n'; try lia; simpl; rewrite (lookup_app_l_Some _ _ _ _ Ho);
    destruct (lookup_prop p (o_props o)); try discriminate;
    destruct (o_proto o); try discriminate; auto.
  apply IH; auto. lia.
Qed.

Lemma lacks_length_app h X l p :
  lacks (length h) h l p = true -> lacks (length (h ++ X)) (h ++ X) l p = true.
Proof. intros H. apply (lacks_mono _ _ _ _ H). rewrite length_app. lia. Qed.

Lemma lacks_get n h l p :
  lacks n h l p = true -> forall m X, get_from m (h ++ X) l p = VUndef.
Proof.
  revert l. induction n as [|n IH]; intros l Hl m X; simpl in Hl;
    destruct (h !! l) as [o|] eqn:Ho; try discriminate;
    destruct m; simpl; rewrite (lookup_app_l_Some _ _ _ _ Ho);
    destruct (lookup_prop p (o_props o)); try discriminate;
    destruct (o_proto o); try discriminate; auto.
Qed.

Lemma intrinsics_plain_app h X :
  intrinsics_plain h = true -> intrinsics_plain (h ++ X) = true.
Proof.
  unfold intrinsics_plain. rewrite !andb_true_iff. intros [[H1 H2] H3].
  repeat split; now apply lacks_length_app.
Qed.

Lemma value_lacks_prototype_app h X v :
  value_lacks_prototype h v = true -> value_lacks_prototype (h ++ X) v = true.
Proof. destruct v; simpl; auto; apply lacks_length_app. Qed.

Lemma plain_members_mono (P Q : MockFunctionMetadata -> bool) ms :
  Forall (fun kv => P (snd kv) = true -> Q (snd kv) = true) ms ->
  forall seen, plain_members P ms seen = true -> plain_members Q ms seen = true.
Proof.
  induction 1 as [|[slot sm] ms Hsm _ IH]; intros seen; simpl; auto.
  destruct (_ || _); auto.
  rewrite !andb_true_iff. intros [H1 H2]. split; auto.
  destruct (md_ref sm); auto.
  rewrite andb_true_iff in *. destruct H1. split; auto.
Qed.

Lemma plain_tree_unfold h md :
  plain_tree h md =
    if is_shell md then
      (negb (type_is md "function") || name_ok md) &&
      match md_members md with
      | Some ms => plain_members (plain_tree h) ms []
      | None => true
      end
    else if type_is md "constant" || type_is md "collection" then
      no_members md && value_lacks_prototype h (md_value md)
    else if type_is md "null" || type_is md "undefined" then no_members md
    else false.
Proof. destruct md; reflexivity. Qed.

Lemma plain_tree_app h X md :
  plain_tree h md = true -> plain_tree (h ++ X) md = true.
Proof.
  induction md as [md IH] using metadata_ind.
  rewrite !plain_tree_unfold. destruct (is_shell md).
  - rewrite !andb_true_iff. intros [H1 H2]. split; auto.
    unfold members_of in IH. destruct (md_members md) as [ms|]; auto.
    eapply plain_members_mono; eauto.
  - destruct (_ || _).
    + rewrite !andb_true_iff. intros [H1 H2]. split; auto.
      now apply value_lacks_prototype_app.
    + auto.
Qed.

Lemma mem_string_app s seen slot :
  mem_string s (seen ++ [slot]) = mem_string s seen || String.eqb s slot.
Proof.
  unfold mem_string. rewrite existsb_app. simpl. now rewrite orb_false_r.
Qed.

Lemma lookup_prop_set_prop_eq p v ps :
  lookup_prop p (set_prop p v ps) = Some (PData v).
Proof.
  induction ps as [|[q d] ps IH]; simpl.
  - now rewrite String.eqb_refl.
  - destruct (String.eqb p q) eqn:E; simpl; rewrite E; auto.
Qed.

Lemma lookup_prop_set_prop_ne p q v ps :
  p <> q -> lookup_prop p (set_prop q v ps) = lookup_prop p ps.
Proof.
  intros Hne. induction ps as [|[k d] ps IH]; simpl.
  - apply String.eqb_neq in Hne. now rewrite Hne.
  - destruct (String.eqb q k) eqn:E; simpl.
    + apply String.eqb_eq in E. subst k.
      apply String.eqb_neq in Hne. now rewrite Hne.
    + destruct (String.eqb p k); auto.
Qed.

(** An assignment to an object that was allocated after [h]. *)
Lemma set_app_fresh (h X : heap) l o p v :
  (h ++ X) !! l = Some o -> length h <= l ->
  set (VRef l) p v (h ++ X)
  = (Ok tt, h ++ <[l - length h := set_obj_prop p v o]> X).
Proof.
  intros Ho Hl. unfold set. rewrite Ho. f_equal.
  now rewrite insert_app_r_alt.
Qed.

Lemma shell_at_lt h X a : shell_at h X a -> a < length h + length X.
Proof.
  intros (o & Ho & _). apply lookup_lt_Some in Ho.
  now rewrite length_app in Ho.
Qed.

Lemma is_shell_type md :
  is_shell md = true ->
  md_type md = Some "object" \/ md_type md = Some "array" \/
  md_type md = Some "regexp" \/ md_type md = Some "function".
Proof.
  unfold is_shell, type_is. destruct (md_type md) as [t|]; [|discriminate].
  rewrite !orb_true_iff, !String.eqb_eq. intuition congruence.
Qed.

Lemma own_callbacks_nil a seen : own_callbacks a [] seen [].
Proof.
  split.
  - intros cb Hcb. now apply not_elem_of_nil in Hcb.
  - intros slot sm r _ _ Hl. discriminate.
Qed.

Lemma own_callbacks_skip a slot sm ms seen cbs :
  String.eqb slot "__proto__" || mem_string slot seen = true ->
  own_callbacks a ms seen cbs ->
  own_callbacks a ((slot, sm) :: ms) seen cbs.
Proof.
  intros Hskip [Hsound Hcomplete].
  assert (Hne : forall s, s <> "__proto__" -> mem_string s seen = false ->
                          String.eqb s slot = false).
  { intros s Hn Hs. apply String.eqb_neq. intros ->.
    apply orb_true_iff in Hskip as [Hp|Hm]; [|congruence].
    apply String.eqb_eq in Hp. contradiction. }
  split.
  - intros cb Hcb Ha. destruct (Hsound cb Hcb Ha) as (Hn & Hs & sm' & Hl & Hr).
    split; [exact Hn|]. split; [exact Hs|]. exists sm'. split; [|exact Hr].
    simpl. now rewrite (Hne _ Hn Hs).
  - intros slot' sm' r Hn Hs Hl Hr. apply (Hcomplete slot' sm' r); auto.
    simpl in Hl. now rewrite (Hne _ Hn Hs) in Hl.
Qed.

Lemma own_callbacks_step a slot sm ms seen cbs0 cbs :
  String.eqb slot "__proto__" = false -> mem_string slot seen = false ->
  (forall cb, cb ∈ cbs0 -> cb_mock cb = VRef a ->
              cb_slot cb = slot /\ md_ref sm = Some (cb_ref cb)) ->
  (forall r, md_ref sm = Some r -> mkCallback (VRef a) slot r ∈ cbs0) ->
  own_callbacks a ms (seen ++ [slot]) cbs ->
  own_callbacks a ((slot, sm) :: ms) seen (cbs0 ++ cbs).
Proof.
  intros Hp Hseen H0 H1 [Hsound Hcomplete]. split.
  - intros cb Hcb Ha. apply elem_of_app in Hcb as [Hcb|Hcb].
    + destruct (H0 cb Hcb Ha) as [-> Hr].
      split; [now apply String.eqb_neq|]. split; [exact Hseen|].
      exists sm. simpl. now rewrite String.eqb_refl.
    + destruct (Hsound cb Hcb Ha) as (Hn & Hs & sm' & Hl & Hr).
      rewrite mem_string_app in Hs. apply orb_false_iff in Hs as [Hs Hne].
      split; [exact Hn|]. split; [exact Hs|]. exists sm'. split; [|exact Hr].
      simpl. now rewrite Hne.
  - intros slot' sm' r Hn Hs Hl Hr. apply elem_of_app. simpl in Hl.
    destruct (String.eqb slot' slot) eqn:E.
    + apply String.eqb_eq in E. subst slot'. injection Hl as <-. left. auto.
    + right. apply (Hcomplete slot' sm' r); auto.
      rewrite mem_string_app, Hs, E. reflexivity.
Qed.

Lemma get_loc_own h l p d : own_prop h l p = Some d -> get_loc h l p = prop_value d.
Proof.
  unfold own_prop, get_loc. intros H.
  destruct (h !! l) as [o|] eqn:Ho; [|discriminate].
  destruct (length h); simpl; now rewrite Ho, H.
Qed.

Lemma own_prop_set h l o p v l' p' :
  h !! l = Some o ->
  own_prop (<[l := set_obj_prop p v o]> h) l' p'
  = if Nat.eqb l' l && String.eqb p' p then Some (PData v) else own_prop h l' p'.
Proof.
  intros Ho. unfold own_prop.
  destruct (Nat.eqb l' l) eqn:El.
  - apply Nat.eqb_eq in El. subst l'.
    rewrite list_lookup_insert_eq by (eapply lookup_lt_Some; eauto).
    rewrite Ho. simpl.
    destruct (String.eqb p' p) eqn:Ep.
    + apply String.eqb_eq in Ep. subst p'. apply lookup_prop_set_prop_eq.
    + apply String.eqb_neq in Ep. now apply lookup_prop_set_prop_ne.
  - apply Nat.eqb_neq in El.
    now rewrite list_lookup_insert_ne by congruence.
Qed.

Lemma all_ids_unfold md :
  all_ids md
  = match md_refID md with Some r => [r] | None => [] end ++ sub_ids md.
Proof. destruct md as [r [ms|] mi n id t v]; reflexivity. Qed.

Lemma own_prop_app h X l p :
  l < length h -> own_prop (h ++ X) l p = own_prop h l p.
Proof. intros Hl. unfold own_prop. now rewrite lookup_app_l. Qed.

Lemma NoDup_ids_cons (sm : MockFunctionMetadata) (ms : members_t) :
  NoDup (all_ids sm ++ flat_map (fun kv => all_ids (snd kv)) ms) ->
  NoDup (all_ids sm) /\
  NoDup (flat_map (fun kv => all_ids (snd kv)) ms) /\
  (forall r, r ∈ all_ids sm ->
             r ∉ flat_map (fun kv => all_ids (snd kv)) ms).
Proof. intros H. apply NoDup_app in H as (H1 & H2 & H3). auto. Qed.

Lemma members_loop_plain h a :
  intrinsics_plain h = true ->
  forall ms,
    Forall (fun kv => forall H st, intrinsics_plain H = true ->
                                   plain_tree H (snd kv) = true ->
                                   generates (snd kv) st H) ms ->
    forall seen st X,
      plain_members (plain_tree h) ms seen = true ->
      shell_at h X a ->
      exists cbs refs X',
        members_loop generateMock (VRef a) ms seen st (h ++ X)
        = (Ok (fst st ++ cbs, refs), h ++ X') /\
        length X <= length X' /\
        shell_at h X' a /\
        own_callbacks a ms seen cbs /\
        (forall cb, cb ∈ cbs ->
           exists l, cb_mock cb = VRef l /\
                     length h <= l < length h + length X') /\
        (forall k, k ∉ flat_map (fun kv => all_ids (snd kv)) ms ->
                   refs !! k = snd st !! k) /\
        (* a name that is not visited keeps what it holds *)
        (forall s, s = "__proto__" \/ mem_string s seen = true ->
                   own_prop (h ++ X') a s = own_prop (h ++ X) a s) /\
        (* a member that is built and carries an id of its own *)
        (NoDup (flat_map (fun kv => all_ids (snd kv)) ms) ->
         forall s sm r,
           s <> "__proto__" -> mem_string s seen = false ->
           lookup_prop s ms = Some sm ->
           md_ref sm = None -> md_refID sm = Some r -> is_shell sm = true ->
           exists l, length h <= l < length h + length X' /\ l <> a /\
                     refs !! r = Some (VRef l) /\
                     own_prop (h ++ X') a s = Some (PData (VRef l))).
Proof.
  intros Hint ms Hall.
  induction Hall as [|[slot sm] ms Hsm _ IH]; intros seen st X Hplain Hshell.
  - exists [], (snd st), X. simpl. rewrite app_nil_r.
    split; [now destruct st|]. split; [lia|]. split; [exact Hshell|].
    split; [apply own_callbacks_nil|]. split; [|split; [reflexivity|split]].
    + intros cb Hcb. now apply not_elem_of_nil in Hcb.
    + reflexivity.
    + intros _ s sm r _ _ Hl. discriminate.
  - simpl in Hplain |- *.
    destruct (String.eqb slot "__proto__" || mem_string slot seen) eqn:Hskip.
    + (* a name that is skipped *)
      destruct (IH seen st X Hplain Hshell)
        as (cbs & refs & X' & Heq & Hlen & Hsh & Hown & Hrange & Hrefs
            & Hframe & Hbuilt).
      exists cbs, refs, X'.
      split; [exact Heq|]. split; [exact Hlen|]. split; [exact Hsh|].
      split; [now apply own_callbacks_skip|]. split; [exact Hrange|].
      split; [|split; [exact Hframe|]].
      { intros k Hk. apply Hrefs. intros Hin. apply Hk. simpl.
        apply elem_of_app. now right. }
      intros Hnd s sm' r Hn Hs Hl Hr Hid Hshl.
      apply NoDup_ids_cons in Hnd as (_ & Hnd & _).
      assert (Hne : String.eqb s slot = false).
      { apply String.eqb_neq. intros ->.
        apply orb_true_iff in Hskip as [Hp|Hm]; [|congruence].
        apply String.eqb_eq in Hp. contradiction. }
      rewrite Hne in Hl.
      apply (Hbuilt Hnd s sm' r); auto.
    + apply orb_false_iff in Hskip as [Hproto Hseen].
      apply andb_true_iff in Hplain as [Hsmp Hrest].
      destruct (md_ref sm) as [r|] eqn:Hr.
      * (* a back-reference: deferred *)
        bind_step ltac:(reflexivity).
        destruct (IH (seen ++ [slot])
                    (fst st ++ [mkCallback (VRef a) slot r], snd st) X Hrest Hshell)
          as (cbs & refs & X' & Heq & Hlen & Hsh & Hown & Hrange & Hrefs
              & Hframe & Hbuilt).
        exists (mkCallback (VRef a) slot r :: cbs), refs, X'.
        split.
        { rewrite Heq. cbn [fst snd]. now rewrite <- app_assoc. }
        split; [exact Hlen|]. split; [exact Hsh|].
        split.
        { apply (own_callbacks_step a slot sm ms seen [mkCallback (VRef a) slot r] cbs);
            auto.
          - intros cb Hcb _. apply list_elem_of_singleton in Hcb. subst cb.
            simpl. auto.
          - intros r' Hr'. rewrite Hr in Hr'. injection Hr' as <-.
            apply list_elem_of_singleton. reflexivity. }
        split.
        { intros cb Hcb. apply elem_of_cons in Hcb as [->|Hcb]; [|now apply Hrange].
          exists a. simpl. split; [reflexivity|].
          destruct Hsh as (o & Ho & Hle & _). split; [exact Hle|].
          apply lookup_lt_Some in Ho. now rewrite length_app in Ho. }
        split; [|split].
        { intros k Hk. rewrite Hrefs; [reflexivity|].
          intros Hin. apply Hk. simpl. apply elem_of_app. now right. }
        { intros s Hs. apply Hframe. destruct Hs as [Hs|Hs]; [now left|].
          right. now rewrite mem_string_app, Hs. }
        intros Hnd s sm' r' Hn Hs Hl Hr' Hid Hshl.
        apply NoDup_ids_cons in Hnd as (_ & Hnd & _).
        destruct (String.eqb s slot) eqn:Hne; [congruence|].
        apply (Hbuilt Hnd s sm' r'); auto.
        now rewrite mem_string_app, Hs, Hne.
      * (* a member that is built now *)
        apply andb_true_iff in Hsmp as [Hsmp Hprot]. cbn [snd] in Hsm.
        pose proof (Hsm (h ++ X) st (intrinsics_plain_app h X Hint)
                      (plain_tree_app h X sm Hsmp))
          as (mock_c & cbs_c & refs_c & added_c & Hgen & Hmock & Hrange_c
              & Hrefs_c & Hroot_c & _).
        destruct Hshell as (o & Ho & Hle & Hproto_prop).
        assert (Ho' : (h ++ (X ++ added_c)) !! a = Some o).
        { rewrite app_assoc. now apply lookup_app_l_Some. }
        set (X2 := <[a - length h := set_obj_prop slot mock_c o]> (X ++ added_c)).
        assert (Hset : set (VRef a) slot mock_c ((h ++ X) ++ added_c)
                       = (Ok tt, h ++ X2)).
        { rewrite <- app_assoc. now apply set_app_fresh. }
        assert (HlenX2 : length X2 = length X + length added_c).
        { unfold X2. now rewrite length_insert, length_app. }
        assert (Hsh2 : shell_at h X2 a).
        { exists (set_obj_prop slot mock_c o). split; [|split; [exact Hle|]].
          - unfold X2. rewrite <- insert_app_r_alt by exact Hle.
            apply list_lookup_insert_eq. now apply lookup_lt_Some in Ho'.
          - simpl. destruct (String.eqb slot "prototype") eqn:Esl.
            + apply String.eqb_eq in Esl. subst slot.
              rewrite lookup_prop_set_prop_eq. right.
              cbn [negb orb] in Hprot.
              rewrite Hprot in Hmock.
              destruct Hmock as (c & -> & Hc & _). exists c. split; [reflexivity|].
              rewrite length_app in Hc. apply lookup_lt_Some in Ho.
              rewrite length_app in Ho. lia.
            + apply String.eqb_neq in Esl.
              rewrite lookup_prop_set_prop_ne by congruence.
              destruct Hproto_prop as [Hnone|(p & Hp & Hrange_p & Hpa)]; [now left|].
              right. exists p. split; [exact Hp|]. split; [lia|exact Hpa]. }
        bind_step ltac:(
          erewrite bind_ok by exact Hgen; cbn [fst snd];
          erewrite bind_ok by exact Hset; reflexivity).
        destruct (IH (seen ++ [slot]) (fst st ++ cbs_c, refs_c) X2 Hrest Hsh2)
          as (cbs & refs & X' & Heq & Hlen & Hsh & Hown & Hrange & Hrefs
              & Hframe & Hbuilt).
        assert (Ha_lt : a < length (h ++ X)) by now apply lookup_lt_Some in Ho.
        assert (HX2 : forall s,
                  own_prop (h ++ X2) a s
                  = if String.eqb s slot then Some (PData mock_c)
                    else own_prop (h ++ X) a s).
        { intros s. unfold X2. rewrite <- insert_app_r_alt by exact Hle.
          rewrite (own_prop_set _ a o slot mock_c a s Ho'), Nat.eqb_refl.
          cbn [andb]. destruct (String.eqb s slot); [reflexivity|].
          rewrite app_assoc. now apply own_prop_app. }
        exists (cbs_c ++ cbs), refs, X'.
        split.
        { rewrite Heq. cbn [fst snd]. now rewrite <- app_assoc. }
        split; [lia|]. split; [exact Hsh|].
        assert (Hnot_a : forall cb, cb ∈ cbs_c -> cb_mock cb <> VRef a).
        { intros cb Hcb Ha. destruct (Hrange_c cb Hcb) as (l & Hl & Hge & _).
          rewrite Ha in Hl. injection Hl as <-.
          apply lookup_lt_Some in Ho. lia. }
        split.
        { apply (own_callbacks_step a slot sm ms seen cbs_c cbs); auto.
          - intros cb Hcb Ha. now destruct (Hnot_a cb Hcb).
          - intros r' Hr'. congruence. }
        split.
        { intros cb Hcb. apply elem_of_app in Hcb as [Hcb|Hcb]; [|now apply Hrange].
          destruct (Hrange_c cb Hcb) as (l & Hl & Hge & Hlt).
          exists l. split; [exact Hl|]. rewrite length_app in Hge, Hlt. lia. }
        split; [|split].
        { intros k Hk. rewrite Hrefs.
          { cbn [snd]. apply Hrefs_c. intros Hin. apply Hk. simpl.
            apply elem_of_app. now left. }
          intros Hin. apply Hk. simpl. apply elem_of_app. now right. }
        { intros s Hs. rewrite Hframe.
          - rewrite HX2.
            assert (Hne : String.eqb s slot = false).
            { apply String.eqb_neq. intros ->.
              destruct Hs as [Hs|Hs]; [|congruence].
              subst slot. discriminate. }
            now rewrite Hne.
          - destruct Hs as [Hs|Hs]; [now left|].
            right. now rewrite mem_string_app, Hs. }
        intros Hnd s sm' r' Hn Hs Hl Hr' Hid Hshl.
        apply NoDup_ids_cons in Hnd as (Hnd0 & Hnd & Hdisj).
        destruct (String.eqb s slot) eqn:Hne.
        -- (* the member built in this step *)
           apply String.eqb_eq in Hne. subst s. injection Hl as <-.
           rewrite Hshl in Hmock. destruct Hmock as (c & -> & Hc & _).
           rewrite length_app in Hc. rewrite length_app in Ha_lt.
           exists c. split; [lia|]. split; [lia|]. split.
           ++ rewrite Hrefs.
              ** cbn [snd]. apply Hroot_c; [exact Hid|].
                 rewrite all_ids_unfold, Hid in Hnd0.
                 apply NoDup_cons in Hnd0 as [Hnot _]. exact Hnot.
              ** apply Hdisj. rewrite all_ids_unfold, Hid.
                 apply elem_of_cons. now left.
           ++ rewrite Hframe.
              ** now rewrite HX2, String.eqb_refl.
              ** right. rewrite mem_string_app, String.eqb_refl.
                 apply orb_true_r.
        -- apply (Hbuilt Hnd s sm' r'); auto.
           now rewrite mem_string_app, Hs, Hne.
Qed.

Lemma type_is_eq md t : type_is md t = true <-> md_type md = Some t.
Proof.
  unfold type_is. destruct (md_type md) as [t'|]; split; try discriminate.
  - intros H. apply String.eqb_eq in H. congruence.
  - intros [= ->]. apply String.eqb_refl.
Qed.

Lemma type_is_other md t t' :
  md_type md = Some t -> t <> t' -> type_is md t' = false.
Proof.
  intros Ht Hne. unfold type_is. rewrite Ht. now apply String.eqb_neq.
Qed.

Lemma makeComponent_shell md h :
  is_shell md = true ->
  negb (type_is md "function") || name_ok md = true ->
  exists a X0,
    makeComponent md h = (Ok (VRef a), h ++ X0) /\ shell_at h X0 a.
Proof.
  intros Hshell Hname. unfold makeComponent.
  destruct (is_shell_type md Hshell) as [Ht|[Ht|[Ht|Ht]]].
  - rewrite (proj2 (type_is_eq md _) Ht).
    exists (length h), [plain_object []]. split; [reflexivity|].
    exists (plain_object []). split; [|split; [lia|]].
    + now rewrite lookup_app_r, Nat.sub_diag by lia.
    + left. simpl. auto.
  - rewrite (type_is_other md _ "object" Ht) by discriminate.
    rewrite (proj2 (type_is_eq md _) Ht).
    exists (length h), [empty_array]. split; [reflexivity|].
    exists empty_array. split; [|split; [lia|]].
    + now rewrite lookup_app_r, Nat.sub_diag by lia.
    + left. simpl. auto.
  - rewrite (type_is_other md _ "object" Ht), (type_is_other md _ "array" Ht)
      by discriminate.
    rewrite (proj2 (type_is_eq md _) Ht).
    exists (length h), [empty_regexp]. split; [reflexivity|].
    exists empty_regexp. split; [|split; [lia|]].
    + now rewrite lookup_app_r, Nat.sub_diag by lia.
    + left. simpl. auto.
  - rewrite (type_is_other md _ "object" Ht), (type_is_other md _ "array" Ht),
      (type_is_other md _ "regexp" Ht), (type_is_other md _ "constant" Ht),
      (type_is_other md _ "collection" Ht), (type_is_other md _ "null" Ht),
      (type_is_other md _ "undefined" Ht) by discriminate.
    cbn [orb].
    rewrite (proj2 (type_is_eq md _) Ht) in Hname |- *. cbn [negb orb] in Hname.
    unfold name_ok in Hname. destruct (createMockFunction md) as [label| |] eqn:Hl;
      try discriminate.
    bind_step ltac:(reflexivity). rewrite Hname.
    exists (length h + 2), (mock_objects (length h) label md).
    split; [reflexivity|].
    eexists. split; [|split; [lia|]].
    + rewrite lookup_app_r by lia.
      replace (length h + 2 - length h) with 2 by lia. reflexivity.
    + right. exists (length h + 3). split; [reflexivity|]. simpl. lia.
Qed.

Lemma get_loc_lacks h l p :
  lacks (length h) h l p = true -> get_loc h l p = VUndef.
Proof.
  intros H. unfold get_loc.
  pose proof (lacks_get _ _ _ _ H (length h) []) as Hg.
  now rewrite app_nil_r in Hg.
Qed.

(** [relink_constructor] on an object allocated after [h]. *)
Lemma relink_shell h X a md :
  intrinsics_plain h = true ->
  is_shell md = true ->
  shell_at h X a ->
  exists X',
    relink_constructor md (VRef a) (h ++ X) = (Ok tt, h ++ X') /\
    length X' = length X /\
    (forall s, own_prop (h ++ X') a s = own_prop (h ++ X) a s).
Proof.
  intros Hint Hshell (o & Ho & Hle & Hprop). unfold relink_constructor.
  destruct (is_shell_type md Hshell) as [Ht|[Ht|[Ht|Ht]]];
    rewrite (type_is_other md _ "undefined" Ht), (type_is_other md _ "null" Ht)
      by discriminate; cbn [negb andb].
  all: assert (Hget : get (VRef a) "prototype" (h ++ X)
                      = (Ok (get_loc (h ++ X) a "prototype"), h ++ X))
         by reflexivity.
  all: bind_step ltac:(exact Hget).
  all: unfold get_loc; pose proof (lookup_lt_Some _ _ _ Ho) as Hlt;
       destruct (length (h ++ X)) as [|n] eqn:Hn; [lia|];
       cbn [get_from]; rewrite Ho;
       unfold intrinsics_plain in Hint;
       apply andb_true_iff in Hint as [Hint Hre];
       apply andb_true_iff in Hint as [Hob Har].
  all: destruct Hprop as [[Hnone Hproto]|(p & Hp & Hrange & Hpa)].
  all: try (rewrite Hnone;
            destruct Hproto as [ -> | [ -> | -> ] ];
            [ rewrite (lacks_get _ _ _ _ Hob)
            | rewrite (lacks_get _ _ _ _ Har)
            | rewrite (lacks_get _ _ _ _ Hre) ];
            cbn [truthy]; exists X;
            (split; [reflexivity|split; [reflexivity|intros; reflexivity]])).
  all: rewrite Hp; cbn [prop_value truthy];
       destruct (lookup_lt_is_Some_2 (h ++ X) p) as [op Hop];
       [rewrite length_app; lia|];
       rewrite (set_app_fresh h X p op _ _ Hop) by lia;
       eexists; split; [reflexivity|split; [apply length_insert|]];
       intros s; rewrite <- insert_app_r_alt by lia;
       unfold own_prop; now rewrite list_lookup_insert_ne by congruence.
Qed.

Lemma leaf_not_shell md :
  is_shell md = false ->
  type_is md "object" = false /\ type_is md "array" = false /\
  type_is md "regexp" = false /\ type_is md "function" = false.
Proof. unfold is_shell. rewrite !orb_false_iff. tauto. Qed.

Lemma no_members_loop md generate mock st (h : heap) :
  no_members md = true ->
  match md_members md with
  | Some ms => members_loop generate mock ms [] st
  | None => ret st
  end h = (Ok st, h).
Proof.
  unfold no_members. destruct (md_members md) as [[|]|]; try discriminate; auto.
Qed.

Lemma no_members_of md : no_members md = true -> members_of md = [].
Proof.
  unfold no_members, members_of.
  destruct (md_members md) as [[|]|]; try discriminate; auto.
Qed.

Lemma registered_refs md (st : gen_state) mock (refs : refs_t) :
  (forall k, k ∉ sub_ids md ->
     refs !! k = snd (match md_refID md with
                      | Some id => (fst st, <[id := mock]> (snd st))
                      | None => st
                      end) !! k) ->
  (forall k, k ∉ all_ids md -> refs !! k = snd st !! k) /\
  (forall r, md_refID md = Some r -> r ∉ sub_ids md -> refs !! r = Some mock).
Proof.
  intros Hrefs. split.
  - intros k Hk. rewrite all_ids_unfold in Hk. rewrite Hrefs.
    + destruct (md_refID md) as [id|]; [|reflexivity]. cbn [snd].
      apply lookup_insert_ne. intros ->. apply Hk. apply elem_of_app. left.
      apply list_elem_of_singleton. reflexivity.
    + intros Hin. apply Hk. apply elem_of_app. now right.
  - intros r Hr Hsub. rewrite Hrefs by exact Hsub. rewrite Hr. cbn [snd].
    apply lookup_insert_eq.
Qed.

(** Generation of a plain tree returns and only allocates. *)
Lemma generateMock_plain md :
  forall h st,
    intrinsics_plain h = true -> plain_tree h md = true -> generates md st h.
Proof.
  induction md as [md IH] using metadata_ind. intros h st Hint Hplain.
  rewrite plain_tree_unfold in Hplain. unfold generates.
  rewrite generateMock_unfold.
  pose (st1 := fun mock : value =>
                 match md_refID md with
                 | Some id => (fst st, <[id := mock]> (snd st))
                 | None => st
                 end).
  destruct (is_shell md) eqn:Hshell.
  - (* an object is created *)
    apply andb_true_iff in Hplain as [Hname Hmembers].
    destruct (makeComponent_shell md h Hshell Hname) as (a & X0 & Hmk & Hsh0).
    bind_step ltac:(exact Hmk). cbv zeta.
    assert (Hloop : exists cbs refs X',
      match md_members md with
      | Some ms => members_loop generateMock (VRef a) ms [] (st1 (VRef a))
      | None => ret (st1 (VRef a))
      end (h ++ X0) = (Ok (fst st ++ cbs, refs), h ++ X') /\
      length X0 <= length X' /\ shell_at h X' a /\
      own_callbacks a (members_of md) [] cbs /\
      (forall cb, cb ∈ cbs ->
         exists l, cb_mock cb = VRef l /\ length h <= l < length h + length X') /\
      (forall k, k ∉ sub_ids md -> refs !! k = snd (st1 (VRef a)) !! k) /\
      (NoDup (sub_ids md) ->
       forall s sm r,
         s <> "__proto__" -> lookup_prop s (members_of md) = Some sm ->
         md_ref sm = None -> md_refID sm = Some r -> is_shell sm = true ->
         exists l, length h <= l < length h + length X' /\ l <> a /\
                   refs !! r = Some (VRef l) /\
                   own_prop (h ++ X') a s = Some (PData (VRef l)))).
    { unfold sub_ids, members_of in *.
      destruct (md_members md) as [ms|].
      - destruct (members_loop_plain h a Hint ms IH [] (st1 (VRef a)) X0
                    Hmembers Hsh0)
          as (cbs & refs & X' & Heq & Hlen & Hsh & Hown & Hrange & Hrefs
              & _ & Hbuilt).
        exists cbs, refs, X'. split.
        { rewrite Heq. unfold st1. now destruct (md_refID md). }
        repeat (split; [assumption|]).
        intros Hnd s sm r Hn Hl Hr Hid Hshl.
        now apply (Hbuilt Hnd s sm r).
      - exists [], (snd (st1 (VRef a))), X0. rewrite app_nil_r.
        split; [unfold st1; destruct (md_refID md); now destruct st|].
        split; [lia|]. split; [exact Hsh0|]. split; [apply own_callbacks_nil|].
        split; [|split; [reflexivity|]].
        + intros cb Hcb. now apply not_elem_of_nil in Hcb.
        + intros _ s sm r _ Hl. discriminate. }
    destruct Hloop
      as (cbs & refs & X' & Heq & Hlen & Hsh & Hown & Hrange & Hrefs & Hbuilt).
    bind_step ltac:(exact Heq).
    destruct (relink_shell h X' a md Hint Hshell Hsh)
      as (X'' & Hrel & HlenX & Hkeep).
    bind_step ltac:(exact Hrel).
    exists (VRef a), cbs, refs, X''. split; [reflexivity|].
    split.
    { exists a. split; [reflexivity|]. split; [|exact Hown].
      apply shell_at_lt in Hsh. destruct Hsh0 as (_ & _ & Hle & _). lia. }
    split.
    { intros cb Hcb. destruct (Hrange cb Hcb) as (l & Hl & Hr).
      exists l. split; [exact Hl|]. lia. }
    destruct (registered_refs md st (VRef a) refs Hrefs) as [Hk Hroot].
    split; [exact Hk|]. split; [exact Hroot|].
    intros a' s sm r [= <-] Hnd Hn Hl Hr Hid Hshl.
    destruct (Hbuilt Hnd s sm r Hn Hl Hr Hid Hshl) as (l & Hge & Hne & Hreg & Hp).
    exists l. rewrite Hkeep, HlenX. auto.
  - (* the value of the metadata is reused *)
    destruct (leaf_not_shell md Hshell) as (Hob & Har & Hre & Hfn).
    assert (Hleaf : (type_is md "constant" || type_is md "collection"
                     || type_is md "null" || type_is md "undefined") = true
                    /\ no_members md = true).
    { destruct (type_is md "constant" || type_is md "collection") eqn:E1.
      - apply andb_true_iff in Hplain as [Hn _]. auto.
      - destruct (type_is md "null" || type_is md "undefined") eqn:E2;
          [|discriminate].
        split; [cbn [orb]; exact E2|exact Hplain]. }
    destruct Hleaf as [Hleaf Hnone].
    assert (Hmk : makeComponent md h = (Ok (md_value md), h)).
    { unfold makeComponent. now rewrite Hob, Har, Hre, Hleaf. }
    bind_step ltac:(exact Hmk). cbv zeta.
    bind_step ltac:(apply no_members_loop; exact Hnone).
    assert (Hrel : relink_constructor md (md_value md) h = (Ok tt, h)).
    { unfold relink_constructor.
      destruct (type_is md "constant" || type_is md "collection") eqn:E1.
      - apply andb_true_iff in Hplain as [_ Hv].
        assert (Hu : type_is md "undefined" = false /\ type_is md "null" = false).
        { apply orb_true_iff in E1 as [E|E]; apply type_is_eq in E;
            split; eapply type_is_other; eauto; discriminate. }
        destruct Hu as [-> ->]. cbn [negb andb].
        assert (Hget : get (md_value md) "prototype" h = (Ok VUndef, h)).
        { unfold get. f_equal.
          destruct (md_value md); simpl in Hv |- *; try discriminate;
            now rewrite get_loc_lacks. }
        bind_step ltac:(exact Hget). reflexivity.
      - cbn [orb] in Hleaf.
        apply orb_true_iff in Hleaf as [-> | ->];
          cbn [negb andb]; rewrite ?andb_false_r; reflexivity. }
    bind_step ltac:(exact Hrel).
    exists (md_value md), [], (snd (st1 (md_value md))), [].
    rewrite !app_nil_r.
    split; [unfold st1; destruct (md_refID md); now destruct st|].
    split; [reflexivity|].
    split; [intros cb Hcb; now apply not_elem_of_nil in Hcb|].
    destruct (registered_refs md st (md_value md) (snd (st1 (md_value md))))
      as [Hk Hroot]; [reflexivity|].
    split; [exact Hk|]. split; [exact Hroot|].
    intros a' s sm r _ _ _ Hl. rewrite (no_members_of md Hnone) in Hl.
    discriminate.
Qed.

(** ** The second pass *)

Lemma run_callbacks (refs : refs_t) cbs :
  forall h,
    (forall cb, cb ∈ cbs -> exists l, cb_mock cb = VRef l /\ l < length h) ->
    exists hf,
      forEach cbs (run_callback refs) h = (Ok tt, hf) /\
      length hf = length h /\
      forall l p,
        own_prop hf l p
        = match last_write cbs l p with
          | Some r => Some (PData (refs_get refs r))
          | None => own_prop h l p
          end.
Proof.
  induction cbs as [|cb cbs IH]; intros h Hvalid.
  - exists h. simpl. auto.
  - destruct (Hvalid cb) as (l0 & Hl0 & Hlt); [apply elem_of_cons; now left|].
    destruct (lookup_lt_is_Some_2 h l0 Hlt) as [o Ho].
    assert (Hset : run_callback refs cb h
                   = (Ok tt, <[l0 := set_obj_prop (cb_slot cb)
                                       (refs_get refs (cb_ref cb)) o]> h)).
    { unfold run_callback, set. now rewrite Hl0, Ho. }
    cbn [forEach]. bind_step ltac:(exact Hset).
    destruct (IH (<[l0 := set_obj_prop (cb_slot cb)
                            (refs_get refs (cb_ref cb)) o]> h))
      as (hf & Hrun & Hlen & Hown).
    { intros cb' Hcb'. destruct (Hvalid cb') as (l & Hl & Hltl);
        [apply elem_of_cons; now right|].
      exists l. split; [exact Hl|]. now rewrite length_insert. }
    exists hf. split; [exact Hrun|]. split; [now rewrite Hlen, length_insert|].
    intros l p. rewrite Hown. simpl.
    destruct (last_write cbs l p); [reflexivity|].
    rewrite (own_prop_set h l0 o _ _ l p Ho), Hl0. simpl.
    rewrite (Nat.eqb_sym l0 l), (String.eqb_sym (cb_slot cb) p).
    now destruct (_ && _).
Qed.

Lemma targets_eq cb l p :
  strict_equals (cb_mock cb) (VRef l) && String.eqb (cb_slot cb) p = true <->
  cb_mock cb = VRef l /\ cb_slot cb = p.
Proof.
  rewrite andb_true_iff, String.eqb_eq. split; intros [H1 H2]; split; auto.
  - destruct (cb_mock cb); simpl in H1; try discriminate.
    apply Nat.eqb_eq in H1. now subst.
  - rewrite H1. simpl. apply Nat.eqb_refl.
Qed.

Lemma last_write_some cbs l p r :
  last_write cbs l p = Some r ->
  exists cb, cb ∈ cbs /\ cb_mock cb = VRef l /\ cb_slot cb = p /\ cb_ref cb = r.
Proof.
  induction cbs as [|c cbs IH]; simpl; [discriminate|].
  destruct (last_write cbs l p) as [r'|].
  - intros [= ->]. destruct (IH eq_refl) as (cb & Hin & H).
    exists cb. split; [apply elem_of_cons; now right|exact H].
  - destruct (strict_equals (cb_mock c) (VRef l) && String.eqb (cb_slot c) p)
      eqn:E; [|discriminate].
    intros [= <-]. apply targets_eq in E as [Hm Hs].
    exists c. split; [apply elem_of_cons; now left|auto].
Qed.

Lemma last_write_none cbs l p :
  last_write cbs l p = None ->
  forall cb, cb ∈ cbs -> cb_mock cb = VRef l -> cb_slot cb <> p.
Proof.
  induction cbs as [|c cbs IH]; simpl; intros Hlast cb Hin Hm Hs.
  - now apply not_elem_of_nil in Hin.
  - destruct (last_write cbs l p); [discriminate|].
    apply elem_of_cons in Hin as [->|Hin]; [|now apply (IH eq_refl cb)].
    assert (E : strict_equals (cb_mock c) (VRef l) && String.eqb (cb_slot c) p = true)
      by now apply targets_eq.
    now rewrite E in Hlast.
Qed.

Lemma last_write_unique cbs l p r :
  (exists cb, cb ∈ cbs /\ cb_mock cb = VRef l /\ cb_slot cb = p) ->
  (forall cb, cb ∈ cbs -> cb_mock cb = VRef l -> cb_slot cb = p -> cb_ref cb = r) ->
  last_write cbs l p = Some r.
Proof.
  intros (cb0 & Hin & Hm & Hs) Hall.
  destruct (last_write cbs l p) as [r'|] eqn:Hlast.
  - destruct (last_write_some _ _ _ _ Hlast) as (cb & Hcb & Hm' & Hs' & <-).
    f_equal. now apply Hall.
  - now destruct (last_write_none _ _ _ Hlast cb0 Hin Hm).
Qed.

Lemma strict_equals_refl v : strict_equals v v = true.
Proof.
  destruct v; simpl; auto using Z.eqb_refl, String.eqb_refl, Nat.eqb_refl.
  now destruct b.
Qed.

(** The two passes together: the object built for the root, and what
    each of its deferred members holds in the end. *)
Lemma generateFromMetadata_plain md h :
  intrinsics_plain h = true -> plain_tree h md = true -> is_shell md = true ->
  exists a hf (refs : refs_t),
    generateFromMetadata md h = (Ok (VRef a), hf) /\
    length h <= a < length hf /\
    (forall r, md_refID md = Some r -> r ∉ sub_ids md -> refs !! r = Some (VRef a)) /\
    (forall slot sm r,
       slot <> "__proto__" -> lookup_prop slot (members_of md) = Some sm ->
       md_ref sm = Some r ->
       get_loc hf a slot = refs_get refs r) /\
    (forall s sm r,
       NoDup (sub_ids md) -> s <> "__proto__" ->
       lookup_prop s (members_of md) = Some sm ->
       md_ref sm = None -> md_refID sm = Some r -> is_shell sm = true ->
       exists l, length h <= l < length hf /\ l <> a /\
                 refs !! r = Some (VRef l) /\ get_loc hf a s = VRef l).
Proof.
  intros Hint Hplain Hshell.
  destruct (generateMock_plain md h ([], ∅) Hint Hplain)
    as (mock & cbs & refs & added & Hgen & Hmock & Hrange & _ & Hroot & Hbuilt).
  rewrite Hshell in Hmock. destruct Hmock as (a & -> & Ha & Hsound & Hcomplete).
  destruct (run_callbacks refs cbs (h ++ added)) as (hf & Hrun & Hlen & Hown).
  { intros cb Hcb. destruct (Hrange cb Hcb) as (l & Hl & Hr).
    exists l. split; [exact Hl|]. rewrite length_app. lia. }
  exists a, hf, refs. split; [|split; [|split; [|split]]].
  - unfold generateFromMetadata.
    bind_step ltac:(exact Hgen). cbn [fst app].
    bind_step ltac:(exact Hrun). reflexivity.
  - rewrite Hlen, length_app. lia.
  - exact Hroot.
  - intros slot sm r Hn Hl Hr.
    assert (Hlast : last_write cbs a slot = Some r).
    { apply last_write_unique.
      - exists (mkCallback (VRef a) slot r). split; [|split; reflexivity].
        now apply (Hcomplete slot sm r).
      - intros cb Hcb Hm Hs.
        destruct (Hsound cb Hcb Hm) as (_ & _ & sm' & Hl' & Hr').
        rewrite Hs, Hl in Hl'. injection Hl' as <-. congruence. }
    pose proof (Hown a slot) as Hp. rewrite Hlast in Hp.
    now rewrite (get_loc_own _ _ _ _ Hp).
  - intros s sm r Hnd Hn Hl Hr Hid Hshl.
    destruct (Hbuilt a s sm r eq_refl Hnd Hn Hl Hr Hid Hshl)
      as (l & Hge & Hne & Hreg & Hp).
    exists l. split; [rewrite Hlen, length_app; exact Hge|].
    split; [exact Hne|]. split; [exact Hreg|].
    assert (Hlast : last_write cbs a s = None).
    { destruct (last_write cbs a s) as [r'|] eqn:Hlast; [|reflexivity].
      destruct (last_write_some _ _ _ _ Hlast) as (cb & Hcb & Hm & Hs & _).
      destruct (Hsound cb Hcb Hm) as (_ & _ & sm' & Hl' & Hr').
      rewrite Hs, Hl in Hl'. injection Hl' as <-. congruence. }
    pose proof (Hown a s) as Hfin. rewrite Hlast, Hp in Hfin.
    now rewrite (get_loc_own _ _ _ _ Hfin).
Qed.

(** C2: generation restores shared identity.  For a plain tree with
    assignable members whose root is an object, an array, a regexp or a
    function, generation returns the new object [a'] it built for the
    root, and (1) a member that back-references the root's own [refID] ends
    up holding [a'] itself: [a'.self === a']; (2) two members that
    back-reference one id end up holding the same value:
    [mock.x === mock.y]; when that id belongs to a member [s] of the root
    that is built, and the ids below the root are distinct, what they hold
    is the new object built for [s], which is not [a'].  The root is
    registered before its members are visited, a back-reference member is
    queued instead of being built, and the queue runs against the final
    table. *)
Theorem identity_restored (h : heap) (md : MockFunctionMetadata) :
  intrinsics_plain h = true -> plain_tree h md = true ->
  assignable_tree h md = true -> is_shell md = true ->
  exists a hf,
    generateFromMetadata md h = (Ok (VRef a), hf) /\
    length h <= a < length hf /\
    (forall self sm r,
       self <> "__proto__" ->
       md_refID md = Some r -> r ∉ sub_ids md ->
       lookup_prop self (members_of md) = Some sm -> md_ref sm = Some r ->
       get_loc hf a self = VRef a /\
       strict_equals (get_loc hf a self) (VRef a) = true) /\
    (forall x y smx smy r,
       x <> "__proto__" -> y <> "__proto__" ->
       lookup_prop x (members_of md) = Some smx -> md_ref smx = Some r ->
       lookup_prop y (members_of md) = Some smy -> md_ref smy = Some r ->
       strict_equals (get_loc hf a x) (get_loc hf a y) = true /\
       forall s sm,
         NoDup (sub_ids md) -> s <> "__proto__" ->
         lookup_prop s (members_of md) = Some sm ->
         md_ref sm = None -> md_refID sm = Some r -> is_shell sm = true ->
         exists l,
           length h <= l < length hf /\ l <> a /\
           get_loc hf a s = VRef l /\
           get_loc hf a x = VRef l /\ get_loc hf a y = VRef l).
Proof.
  intros Hint Hplain _ Hshell.
  destruct (generateFromMetadata_plain md h Hint Hplain Hshell)
    as (a & hf & refs & Hgen & Ha & Hroot & Hdeferred & Hbuilt).
  exists a, hf. split; [exact Hgen|]. split; [exact Ha|]. split.
  - intros self sm r Hn Hid Hsub Hl Hr.
    rewrite (Hdeferred self sm r Hn Hl Hr).
    unfold refs_get. rewrite (Hroot r Hid Hsub). simpl.
    split; [reflexivity|apply Nat.eqb_refl].
  - intros x y smx smy r Hx Hy Hlx Hrx Hly Hry.
    rewrite (Hdeferred x smx r Hx Hlx Hrx), (Hdeferred y smy r Hy Hly Hry).
    split; [apply strict_equals_refl|].
    intros s sm Hnd Hs Hls Hrs Hid Hshl.
    destruct (Hbuilt s sm r Hnd Hs Hls Hrs Hid Hshl) as (l & Hl & Hne & Hreg & Hget).
    exists l. unfold refs_get. rewrite Hreg. auto.
Qed.

Lemma identity_restored_witness :
  intrinsics_plain realm = true /\ plain_tree realm cyclic_metadata = true /\
  assignable_tree realm cyclic_metadata = true /\
  is_shell cyclic_metadata = true /\
  exists a hf,
    generateFromMetadata cyclic_metadata realm = (Ok (VRef a), hf) /\
    get_loc hf a "self" = VRef a /\
    strict_equals (get_loc hf a "x") (get_loc hf a "y") = true /\
    exists l,
      length realm <= l < length hf /\ l <> a /\
      get_loc hf a "shared" = VRef l /\
      get_loc hf a "x" = VRef l /\ get_loc hf a "y" = VRef l.
Proof.
  split; [reflexivity|]. split; [reflexivity|]. split; [reflexivity|].
  split; [reflexivity|].
  destruct (identity_restored realm cyclic_metadata eq_refl eq_refl eq_refl eq_refl)
    as (a & hf & Hgen & _ & Hself & Hshared).
  exists a, hf. split; [exact Hgen|]. split.
  - refine (proj1 (Hself "self" _ 0 _ eq_refl _ eq_refl eq_refl)).
    + discriminate.
    + intros Hin. apply list_elem_of_In in Hin. simpl in Hin.
      destruct Hin as [H|[]]. discriminate.
  - destruct (Hshared "x" "y" _ _ 1 ltac:(discriminate) ltac:(discriminate)
                eq_refl eq_refl eq_refl eq_refl) as [Heq Hobj].
    split; [exact Heq|].
    apply (Hobj "shared"
             (Metadata None None VUndef VUndef (Some 1) (Some "object") VUndef));
      try reflexivity; try discriminate.
    repeat constructor. intros Hin. now apply not_elem_of_nil in Hin.
Defined.

(** ** Extraction: the identity table *)

Lemma strict_equals_eq a b : strict_equals a b = true <-> a = b.
Proof.
  split; [|intros ->; apply strict_equals_refl].
  destruct a, b; simpl; try discriminate; auto.
  - intros H. apply Bool.eqb_prop in H. now subst.
  - intros H. apply Z.eqb_eq in H. now subst.
  - intros H. apply String.eqb_eq in H. now subst.
  - intros H. apply Nat.eqb_eq in H. now subst.
Qed.

Lemma grown_refl refs : grown refs refs.
Proof. exists []. now rewrite app_nil_r. Qed.

Lemma grown_trans r1 r2 r3 : grown r1 r2 -> grown r2 r3 -> grown r1 r3.
Proof.
  intros (n1 & -> & H1) (n2 & -> & H2). exists (n1 ++ n2).
  split; [now rewrite app_assoc|].
  rewrite map_app, H1, H2, !length_app, seq_app. reflexivity.
Qed.

Lemma grown_length r1 r2 : grown r1 r2 -> length r1 <= length r2.
Proof. intros (n & -> & _). rewrite length_app. lia. Qed.

Lemma grown_ok r1 r2 : table_ok r1 -> grown r1 r2 -> table_ok r2.
Proof.
  unfold table_ok. intros H1 (n & -> & H2).
  rewrite map_app, H1, H2, length_app, seq_app. reflexivity.
Qed.

Lemma Map_get_elem refs k id : Map_get refs k = Some id -> (k, id) ∈ refs.
Proof.
  induction refs as [|[k' id'] refs IH]; simpl; [discriminate|].
  destruct (strict_equals k' k) eqn:E.
  - intros [= ->]. apply strict_equals_eq in E. subst. apply elem_of_cons. now left.
  - intros H. apply elem_of_cons. right. auto.
Qed.

Lemma Map_get_bound refs k id :
  table_ok refs -> Map_get refs k = Some id -> id < length refs.
Proof.
  intros Hok Hget. apply Map_get_elem in Hget.
  assert (Hin : id ∈ map snd refs).
  { apply list_elem_of_In, in_map_iff. exists (k, id). split; [reflexivity|].
    now apply list_elem_of_In. }
  rewrite Hok in Hin. apply list_elem_of_In, in_seq in Hin. lia.
Qed.

Lemma Map_set_fresh refs k id :
  Map_get refs k = None -> Map_set refs k id = refs ++ [(k, id)].
Proof.
  induction refs as [|[k' id'] refs IH]; simpl; [reflexivity|].
  destruct (strict_equals k' k); [discriminate|].
  intros H. now rewrite IH.
Qed.

Lemma Map_get_app_Some refs news k id :
  Map_get refs k = Some id -> Map_get (refs ++ news) k = Some id.
Proof.
  induction refs as [|[k' id'] refs IH]; simpl; [discriminate|].
  destruct (strict_equals k' k); auto.
Qed.

Lemma Map_get_registered refs k id :
  Map_get refs k = None -> Map_get (refs ++ [(k, id)]) k = Some id.
Proof.
  induction refs as [|[k' id'] refs IH]; simpl.
  - now rewrite strict_equals_refl.
  - destruct (strict_equals k' k); [discriminate|]. auto.
Qed.

Lemma Map_get_grown refs refs' k id :
  grown refs refs' -> Map_get refs k = Some id -> Map_get refs' k = Some id.
Proof. intros (n & -> & _). apply Map_get_app_Some. Qed.

(** *** Rules for [triple] *)

Lemma triple_ret {A} (a : A) (Q : table -> outcome A -> table -> Prop) :
  (forall refs, table_ok refs -> Q refs (Ok a) refs) -> triple (ret a) Q.
Proof. intros H refs h Hok. simpl. auto. Qed.

Lemma triple_on_heap {A} (m : M A) (Q : table -> outcome A -> table -> Prop) :
  (forall refs r, table_ok refs -> Q refs r refs) -> triple (on_heap m) Q.
Proof.
  intros H refs h Hok. unfold on_heap. simpl. destruct (m h). simpl. auto.
Qed.

Lemma triple_bind {A B} (m : X A) (k : A -> X B)
    (Q1 : table -> outcome A -> table -> Prop)
    (Q : table -> outcome B -> table -> Prop) :
  triple m Q1 ->
  (forall refs e refs', table_ok refs -> Q1 refs (Throw e) refs' ->
                        Q refs (Throw e) refs') ->
  (forall refs refs', table_ok refs -> Q1 refs OutOfFuel refs' ->
                      Q refs OutOfFuel refs') ->
  (forall a refs refs1 h1,
     table_ok refs -> Q1 refs (Ok a) refs1 ->
     Q refs (fst (k a (refs1, h1))) (fst (snd (k a (refs1, h1))))) ->
  triple (bind m k) Q.
Proof.
  intros Hm Hthrow Hfuel Hk refs h Hok. specialize (Hm refs h Hok).
  unfold bind. destruct (m (refs, h)) as [[a|e|] [refs1 h1]]; simpl in *; auto.
Qed.

Lemma triple_weaken {A} (m : X A) (Q Q' : table -> outcome A -> table -> Prop) :
  triple m Q ->
  (forall refs r refs', table_ok refs -> Q refs r refs' -> Q' refs r refs') ->
  triple m Q'.
Proof. intros H Hw refs h Hok. apply Hw; auto. Qed.

Lemma triple_on_heap_same {A} (m : M A) :
  triple (on_heap m) (fun refs _ refs' => refs' = refs).
Proof. apply triple_on_heap. reflexivity. Qed.

Lemma members_set_ids slot m ms id :
  id ∈ members_ids (members_set slot m ms) ->
  id ∈ members_ids ms \/ id ∈ all_ids m.
Proof.
  unfold members_ids. induction ms as [|[k m'] ms IH]; simpl.
  - rewrite app_nil_r. auto.
  - destruct (String.eqb slot k); simpl; rewrite !elem_of_app.
    + intros [H|H]; auto.
    + intros [H|H]; auto. destruct (IH H); auto.
Qed.

Lemma members_set_refs slot m ms k :
  k ∈ members_refs (members_set slot m ms) ->
  k ∈ members_refs ms \/ k ∈ all_refs m.
Proof.
  unfold members_refs. induction ms as [|[k' m'] ms IH]; simpl.
  - rewrite app_nil_r. auto.
  - destruct (String.eqb slot k'); simpl; rewrite !elem_of_app.
    + intros [H|H]; auto.
    + intros [H|H]; auto. destruct (IH H); auto.
Qed.

Lemma members_set_NoDup slot m ms :
  NoDup (members_ids ms) -> NoDup (all_ids m) ->
  (forall id, id ∈ all_ids m -> id ∉ members_ids ms) ->
  NoDup (members_ids (members_set slot m ms)).
Proof.
  unfold members_ids. induction ms as [|[k m'] ms IH]; simpl; intros Hms Hm Hdis.
  - now rewrite app_nil_r.
  - apply NoDup_app in Hms as (Hm' & Hdis' & Hrest).
    destruct (String.eqb slot k); simpl; apply NoDup_app.
    + split; [exact Hm|]. split; [|exact Hrest].
      intros id Hid Hin. apply (Hdis id Hid). apply elem_of_app. now right.
    + split; [exact Hm'|]. split.
      * intros id Hid Hin. apply members_set_ids in Hin as [Hin|Hin].
        -- now apply (Hdis' id).
        -- apply (Hdis id Hin). apply elem_of_app. now left.
      * apply IH; auto. intros id Hid Hin. apply (Hdis id Hid).
        apply elem_of_app. now right.
Qed.

Lemma members_put_ok slot m members lo mid hi :
  members_ok lo mid members -> tree_ok mid hi m -> lo <= mid -> mid <= hi ->
  members_ok lo hi (members_put slot m members).
Proof.
  intros (Hnd & Hids & Hrefs) (Hnd' & Hids' & Hrefs') Hlo Hle.
  assert (Hput : default [] (members_put slot m members)
                 = members_set slot m (default [] members))
    by now destruct members.
  unfold members_ok. rewrite Hput. split; [|split].
  - apply members_set_NoDup; auto.
    intros id Hid Hin. specialize (Hids id Hin). specialize (Hids' id Hid). lia.
  - intros id Hid. apply members_set_ids in Hid as [Hid|Hid].
    + specialize (Hids id Hid). lia.
    + specialize (Hids' id Hid). lia.
  - intros k Hk. apply members_set_refs in Hk as [Hk|Hk].
    + specialize (Hrefs k Hk). lia.
    + now apply Hrefs'.
Qed.

Lemma members_ok_mono members lo mid hi :
  members_ok lo mid members -> mid <= hi -> members_ok lo hi members.
Proof.
  intros (Hnd & Hids & Hrefs) Hle. split; [exact Hnd|]. split.
  - intros id Hid. specialize (Hids id Hid). lia.
  - intros k Hk. specialize (Hrefs k Hk). lia.
Qed.

Lemma members_extended_keep members refs refs' r :
  grown refs refs' ->
  (forall members', r = Ok members' -> members' = members) ->
  members_extended members refs r refs'.
Proof.
  intros Hg Hsame. split; [exact Hg|].
  intros members' Hr lo _ Hok. rewrite (Hsame _ Hr).
  eapply members_ok_mono; eauto using grown_length.
Qed.

Lemma triple_bind_heap {A B} (m : M A) (k : A -> X B)
    (Q : table -> outcome B -> table -> Prop) :
  (forall refs e, table_ok refs -> Q refs (Throw e) refs) ->
  (forall refs, table_ok refs -> Q refs OutOfFuel refs) ->
  (forall a, triple (k a) Q) ->
  triple (bind (on_heap m) k) Q.
Proof.
  intros Hthrow Hfuel Hk.
  eapply triple_bind; [apply triple_on_heap_same|..].
  - intros refs e refs' Hok ->. auto.
  - intros refs refs' Hok ->. auto.
  - intros a refs refs1 h1 Hok ->. now apply Hk.
Qed.

Lemma members_extended_fail members refs refs' r' :
  grown refs refs' -> (forall m, r' <> Ok m) ->
  members_extended members refs r' refs'.
Proof. intros Hg Hne. split; [exact Hg|]. intros m Hm. now destruct (Hne m). Qed.

Ltac fails :=
  intros;
  first [ apply members_extended_fail;
          [ first [apply grown_refl | eassumption] | discriminate ] ].

Lemma triple_keep (members : option members_t) :
  triple (ret members) (members_extended members).
Proof.
  apply triple_ret. intros refs _.
  apply members_extended_keep; [apply grown_refl|congruence].
Qed.

Section ExtractionProperties.
Context {N : Natives}.

Lemma triple_extract_slot (extract : value -> X (option MockFunctionMetadata))
    fuel type c slot members :
  (forall v, triple (extract v) (extracted v)) ->
  triple (extract_slot extract fuel type c slot members)
         (members_extended members).
Proof.
  intros Hex. unfold extract_slot.
  apply triple_bind_heap; [fails|fails|]. intros skip.
  destruct skip; [apply triple_keep|].
  apply triple_bind_heap; [fails|fails|]. intros own.
  destruct own; [|apply triple_keep].
  apply triple_bind_heap; [fails|fails|]. intros v.
  eapply triple_bind; [apply Hex|..].
  - intros refs e refs' _ [Hg _]. now apply members_extended_fail.
  - intros refs refs' _ [Hg _]. now apply members_extended_fail.
  - intros [m|] refs refs1 h1 Hok [Hg Htree]; simpl.
    + split; [exact Hg|]. intros members' [= <-] lo Hlo Hmem.
      destruct (Htree m eq_refl) as [Ht _].
      eapply members_put_ok; eauto using grown_length.
    + apply members_extended_keep; [exact Hg|congruence].
Qed.

Lemma triple_each_slot
    (step : string -> option members_t -> X (option members_t)) slots :
  (forall slot members, triple (step slot members) (members_extended members)) ->
  forall members, triple (each_slot step slots members) (members_extended members).
Proof.
  intros Hstep. induction slots as [|slot slots IH]; intros members; simpl.
  - apply triple_keep.
  - eapply triple_bind; [apply Hstep|..].
    + intros refs e refs' _ [Hg _]. now apply members_extended_fail.
    + intros refs refs' _ [Hg _]. now apply members_extended_fail.
    + intros members1 refs refs1 h1 Hok [Hg Hm1].
      destruct (IH members1 refs1 h1 (grown_ok _ _ Hok Hg)) as [Hg2 Hm2].
      split; [eapply grown_trans; eauto|].
      intros members' Hr lo Hlo Hmem.
      apply (Hm2 members' Hr lo); [pose proof (grown_length _ _ Hg); lia|].
      now apply (Hm1 members1 eq_refl lo).
Qed.

Lemma triple_extract_prototype
    (extract : value -> X (option MockFunctionMetadata)) type c members :
  (forall v, triple (extract v) (extracted v)) ->
  triple (extract_prototype extract type c members) (members_extended members).
Proof.
  intros Hex. unfold extract_prototype.
  destruct (String.eqb type "function"); [|apply triple_keep].
  apply triple_bind_heap; [fails|fails|]. intros p.
  destruct (truthy p); [|apply triple_keep].
  eapply triple_bind; [apply Hex|..].
  - intros refs e refs' _ [Hg _]. now apply members_extended_fail.
  - intros refs refs' _ [Hg _]. now apply members_extended_fail.
  - intros [pm|] refs refs1 h1 Hok [Hg Htree]; simpl.
    + destruct (md_members pm); simpl.
      * split; [exact Hg|]. intros members' [= <-] lo Hlo Hmem.
        destruct (Htree pm eq_refl) as [Ht _].
        eapply members_put_ok; eauto using grown_length.
      * apply members_extended_keep; [exact Hg|congruence].
    + apply members_extended_keep; [exact Hg|congruence].
Qed.

End ExtractionProperties.

Lemma triple_members_seq (m : X (option members_t))
    (k : option members_t -> X (option members_t)) members0 :
  triple m (members_extended members0) ->
  (forall members1, triple (k members1) (members_extended members1)) ->
  triple (bind m k) (members_extended members0).
Proof.
  intros Hm Hk. eapply triple_bind; [apply Hm|..].
  - intros refs e refs' _ [Hg _]. now apply members_extended_fail.
  - intros refs refs' _ [Hg _]. now apply members_extended_fail.
  - intros members1 refs refs1 h1 Hok [Hg Hm1].
    destruct (Hk members1 refs1 h1 (grown_ok _ _ Hok Hg)) as [Hg2 Hm2].
    split; [eapply grown_trans; eauto|].
    intros members' Hr lo Hlo Hmem.
    apply (Hm2 members' Hr lo); [pose proof (grown_length _ _ Hg); lia|].
    now apply (Hm1 members1 eq_refl lo).
Qed.

Lemma extracted_fail c refs refs' r :
  grown refs refs' -> (forall m, r <> Ok (Some m)) -> extracted c refs r refs'.
Proof. intros Hg Hne. split; [exact Hg|]. intros m Hm. now destruct (Hne m). Qed.

Section ExtractionTable.
Context {N : Natives}.

Lemma getMetadata_unfold fuel c :
  getMetadata (S fuel) c =
    (let* ref := on_table (fun refs => (Map_get refs c, refs)) in
     match ref with
     | Some r => ret (Some (back_reference r))
     | None =>
         let* type := on_heap (fun h => (Ok (getType h c), h)) in
         match type with
         | None => ret None
         | Some type =>
             if is_leaf_type type then ret (Some (leaf_node type c))
             else
               let* fields := on_heap (function_fields fuel type c) in
               let* refID := register c in
               let* members := extract_members (getMetadata fuel) fuel type c in
               ret (Some (Metadata None members (snd fields) (fst fields)
                            (Some refID) (Some type) VUndef))
         end
     end).
Proof. reflexivity. Qed.

(** The four ways a visit goes. *)
Lemma getMetadata_registered fuel c refs h k :
  Map_get refs c = Some k ->
  getMetadata (S fuel) c (refs, h) = (Ok (Some (back_reference k)), (refs, h)).
Proof.
  intros Hget. rewrite getMetadata_unfold. unfold bind, on_table. cbn [fst snd].
  now rewrite Hget.
Qed.

Lemma getMetadata_unrecognized fuel c refs h :
  Map_get refs c = None -> getType h c = None ->
  getMetadata (S fuel) c (refs, h) = (Ok None, (refs, h)).
Proof.
  intros Hget Htype. rewrite getMetadata_unfold.
  unfold bind at 1, on_table at 1. cbn [fst snd]. rewrite Hget.
  unfold bind at 1, on_heap at 1. cbn [fst snd]. now rewrite Htype.
Qed.

Lemma getMetadata_leaf fuel c refs h type :
  Map_get refs c = None -> getType h c = Some type -> is_leaf_type type = true ->
  getMetadata (S fuel) c (refs, h) = (Ok (Some (leaf_node type c)), (refs, h)).
Proof.
  intros Hget Htype Hleaf. rewrite getMetadata_unfold.
  unfold bind at 1, on_table at 1. cbn [fst snd]. rewrite Hget.
  unfold bind at 1, on_heap at 1. cbn [fst snd]. now rewrite Htype, Hleaf.
Qed.

Lemma getMetadata_full fuel c refs h type :
  Map_get refs c = None -> getType h c = Some type -> is_leaf_type type = false ->
  getMetadata (S fuel) c (refs, h) =
    match function_fields fuel type c h with
    | (Ok fields, h1) =>
        match extract_members (getMetadata fuel) fuel type c
                (refs ++ [(c, length refs)], h1) with
        | (Ok members, s2) =>
            (Ok (Some (Metadata None members (snd fields) (fst fields)
                         (Some (length refs)) (Some type) VUndef)), s2)
        | (Throw e, s2) => (Throw e, s2)
        | (OutOfFuel, s2) => (OutOfFuel, s2)
        end
    | (Throw e, h1) => (Throw e, (refs, h1))
    | (OutOfFuel, h1) => (OutOfFuel, (refs, h1))
    end.
Proof.
  intros Hget Htype Hleaf. rewrite getMetadata_unfold.
  unfold bind at 1, on_table at 1. cbn [fst snd]. rewrite Hget.
  unfold bind at 1, on_heap at 1. cbn [fst snd]. rewrite Htype, Hleaf.
  unfold bind at 1, on_heap at 1. cbn [fst snd].
  destruct (function_fields fuel type c h) as [[fields|e|] h1]; try reflexivity.
  unfold bind at 1, register at 1, on_table at 1. cbn [fst snd].
  rewrite (Map_set_fresh refs c _ Hget). unfold Map_size.
  unfold bind.
  destruct (extract_members (getMetadata fuel) fuel type c
              (refs ++ [(c, length refs)], h1))
    as [[members|e|] s2]; reflexivity.
Qed.

Lemma triple_extract_members
    (extract : value -> X (option MockFunctionMetadata)) fuel type c :
  (forall v, triple (extract v) (extracted v)) ->
  triple (extract_members extract fuel type c) (members_extended None).
Proof.
  intros IH. unfold extract_members.
  destruct (negb (String.eqb type "array")); [|apply triple_keep].
  apply triple_members_seq.
  - destruct (negb (String.eqb type "undefined")); [|apply triple_keep].
    apply triple_bind_heap; [fails|fails|]. intros slots.
    apply triple_each_slot. intros slot members.
    now apply triple_extract_slot.
  - intros members1. now apply triple_extract_prototype.
Qed.

Lemma triple_getMetadata fuel :
  forall c, triple (getMetadata fuel c) (extracted c).
Proof.
  induction fuel as [|fuel IH]; intros c refs h Hok.
  - simpl. apply extracted_fail; [apply grown_refl|discriminate].
  - destruct (Map_get refs c) as [k|] eqn:Hget.
    { (* registered: a back-reference *)
      rewrite (getMetadata_registered fuel c refs h k Hget). cbn [fst snd].
      split; [apply grown_refl|]. intros md [= <-]. split.
      - split; [constructor|]. split.
        + intros id Hid. now apply not_elem_of_nil in Hid.
        + intros k' Hk'. apply list_elem_of_singleton in Hk'. subst k'.
          eapply Map_get_bound; eauto.
      - discriminate. }
    destruct (getType h c) as [type|] eqn:Htype.
    2: { rewrite (getMetadata_unrecognized fuel c refs h Hget Htype).
         apply extracted_fail; [apply grown_refl|discriminate]. }
    destruct (is_leaf_type type) eqn:Hleaf.
    { (* a leaf: no id *)
      rewrite (getMetadata_leaf fuel c refs h type Hget Htype Hleaf).
      cbn [fst snd]. split; [apply grown_refl|]. intros md [= <-]. split.
      - split; [constructor|]. split; intros x Hx;
          now apply not_elem_of_nil in Hx.
      - discriminate. }
    rewrite (getMetadata_full fuel c refs h type Hget Htype Hleaf).
    destruct (function_fields fuel type c h) as [[fields|e|] h1]; cbn [fst snd].
    2, 3: apply extracted_fail; [apply grown_refl|discriminate].
    set (refs1 := refs ++ [(c, length refs)]).
    assert (Hg1 : grown refs refs1).
    { exists [(c, length refs)]. split; reflexivity. }
    pose proof (grown_ok _ _ Hok Hg1) as Hok1.
    pose proof (triple_extract_members (getMetadata fuel) fuel type c IH
                  refs1 h1 Hok1)
      as [Hg2 Hmem].
    destruct (extract_members (getMetadata fuel) fuel type c (refs1, h1))
      as [[members|e|] [refs2 h2]]; cbn [fst snd] in *.
    2, 3: apply extracted_fail; [eapply grown_trans; eauto|discriminate].
    split; [eapply grown_trans; eauto|]. intros md [= <-].
    assert (Hlen1 : length refs1 = S (length refs)).
    { unfold refs1. rewrite length_app. simpl. lia. }
    destruct (Hmem members eq_refl (length refs1)) as (Hnd & Hids & Hrefs);
      [lia| |].
    { split; [constructor|]. split; intros x Hx;
        now apply not_elem_of_nil in Hx. }
    pose proof (grown_length _ _ Hg2) as Hlen2.
    assert (Hall : all_ids (Metadata None members (snd fields) (fst fields)
                              (Some (length refs)) (Some type) VUndef)
                   = length refs :: members_ids (default [] members))
      by now destruct members.
    assert (Hallr : all_refs (Metadata None members (snd fields) (fst fields)
                               (Some (length refs)) (Some type) VUndef)
                    = members_refs (default [] members))
      by now destruct members.
    split.
    + unfold tree_ok. rewrite Hall, Hallr. split; [|split].
      * constructor; [|exact Hnd]. intros Hin. specialize (Hids _ Hin). lia.
      * intros id Hid. apply elem_of_cons in Hid as [->|Hid].
        -- lia.
        -- specialize (Hids _ Hid). lia.
      * exact Hrefs.
    + simpl. intros id [= <-]. split; [reflexivity|]. split; [exact Hget|].
      eapply Map_get_grown; [exact Hg2|]. now apply Map_get_registered.
Qed.

End ExtractionTable.

(** ** Extraction in a standard heap *)

Lemma standard_at h l :
  standard h = true -> l < length h ->
  genuine_hasOwnProperty h (get_loc h l "hasOwnProperty") = true /\
  (truthy (get_loc h l "_isMockFunction") = true ->
   genuine_getMockImplementation h (get_loc h l "getMockImplementation") = true).
Proof.
  unfold standard. rewrite forallb_forall. intros Hall Hl.
  specialize (Hall l). rewrite in_seq in Hall.
  apply andb_true_iff in Hall as [H1 H2]; [|lia]. split; [exact H1|].
  intros Ht. rewrite Ht in H2. exact H2.
Qed.

Lemma getType_object h c type :
  getType h c = Some type -> is_leaf_type type = false ->
  exists l, c = VRef l /\ l < length h.
Proof.
  destruct c as [| |b|n|s|l]; try (cbv; intros [= <-]; discriminate).
  intros Ht _. exists l. split; [reflexivity|].
  destruct (h !! l) as [o|] eqn:Ho; [now apply lookup_lt_Some in Ho|].
  unfold getType, isA, isArray, toStringTag in Ht. rewrite Ho in Ht.
  simpl in Ht. discriminate.
Qed.

Lemma filter_length_mono {A} (P Q : A -> bool) l :
  (forall x, P x = true -> Q x = true) ->
  length (List.filter P l) <= length (List.filter Q l).
Proof.
  intros HPQ. induction l as [|x l IH]; simpl; [lia|].
  destruct (P x) eqn:EP.
  - rewrite (HPQ x EP). simpl. lia.
  - destruct (Q x); simpl; lia.
Qed.

Lemma filter_length_strict {A} (P Q : A -> bool) l x :
  (forall y, P y = true -> Q y = true) ->
  In x l -> P x = false -> Q x = true ->
  length (List.filter P l) < length (List.filter Q l).
Proof.
  intros HPQ. induction l as [|y l IH]; simpl; [tauto|].
  intros [->|Hin] HP HQ.
  - rewrite HP, HQ. simpl. pose proof (filter_length_mono P Q l HPQ). lia.
  - specialize (IH Hin HP HQ). destruct (P y) eqn:EP.
    + rewrite (HPQ y EP). simpl. lia.
    + destruct (Q y); simpl; lia.
Qed.

Lemma unvisited_le refs h : unvisited refs h <= length h.
Proof.
  unfold unvisited.
  etransitivity; [apply (filter_length_mono _ (fun _ => true)); auto|].
  rewrite forallb_filter_id by (apply forallb_forall; auto).
  now rewrite length_seq.
Qed.

Lemma Map_get_app_None refs news k :
  Map_get (refs ++ news) k = None -> Map_get refs k = None.
Proof.
  induction refs as [|[k' id'] refs IH]; simpl; [reflexivity|].
  destruct (strict_equals k' k); auto.
Qed.

Lemma unvisited_grown refs refs' h :
  grown refs refs' -> unvisited refs' h <= unvisited refs h.
Proof.
  intros (news & -> & _). apply filter_length_mono. intros l.
  destruct (Map_get (refs ++ news) (VRef l)) eqn:E; [discriminate|].
  now rewrite (Map_get_app_None _ _ _ E).
Qed.

Lemma unvisited_register refs h l id :
  Map_get refs (VRef l) = None -> l < length h ->
  unvisited (refs ++ [(VRef l, id)]) h < unvisited refs h.
Proof.
  intros Hget Hl. apply (filter_length_strict _ _ _ l).
  - intros l'. destruct (Map_get (refs ++ _) (VRef l')) eqn:E; [discriminate|].
    now rewrite (Map_get_app_None _ _ _ E).
  - apply in_seq. lia.
  - now rewrite (Map_get_registered refs (VRef l) id Hget).
  - now rewrite Hget.
Qed.

Lemma lookup_members_set slot m ms slot' :
  lookup_prop slot' (members_set slot m ms)
  = if String.eqb slot' slot then Some m else lookup_prop slot' ms.
Proof.
  induction ms as [|[k m'] ms IH]; simpl.
  - reflexivity.
  - destruct (String.eqb slot k) eqn:E; simpl.
    + apply String.eqb_eq in E. subst k. now destruct (String.eqb slot' slot).
    + destruct (String.eqb slot' k) eqn:E'; [|exact IH].
      apply String.eqb_eq in E'. subst k.
      rewrite String.eqb_sym in E. now rewrite E.
Qed.

Lemma members_recognized_put h l slot m members :
  getType h (get_loc h l slot) <> None ->
  members_recognized h l members ->
  members_recognized h l (members_put slot m members).
Proof.
  intros Hv Hm slot' child.
  assert (Hput : default [] (members_put slot m members)
                 = members_set slot m (default [] members))
    by now destruct members.
  rewrite Hput, lookup_members_set.
  destruct (String.eqb slot' slot) eqn:E.
  - apply String.eqb_eq in E. now subst.
  - apply Hm.
Qed.

Lemma keys_recognized_register h refs c type :
  keys_recognized h refs -> getType h c = Some type ->
  keys_recognized h (refs ++ [(c, length refs)]).
Proof.
  intros Hk Ht k id. generalize (length refs) at 1. intros n Hget.
  destruct (Map_get refs k) as [id'|] eqn:E.
  - now apply (Hk k id').
  - assert (Hkc : k = c); [|rewrite Hkc, Ht; discriminate].
    clear -Hget E.
    induction refs as [|[k' i'] refs IH]; simpl in *.
    + destruct (strict_equals c k) eqn:E2; [|discriminate].
      apply strict_equals_eq in E2. congruence.
    + destruct (strict_equals k' k); [discriminate|]. auto.
Qed.

Section StandardHeap.
Context {N : Natives}.

Lemma function_fields_standard fuel h type l :
  standard h = true -> l < length h ->
  exists fields, function_fields (S fuel) type (VRef l) h = (Ok fields, h).
Proof.
  intros Hstd Hl. destruct (standard_at h l Hstd Hl) as [_ Hgetter].
  unfold function_fields. destruct (String.eqb type "function"); [|eauto].
  bind_step ltac:(reflexivity). bind_step ltac:(reflexivity).
  cbn [get_pure].
  destruct (truthy (get_loc h l "_isMockFunction")); [|eauto].
  specialize (Hgetter eq_refl). bind_step ltac:(reflexivity). cbn [get_pure].
  unfold genuine_getMockImplementation in Hgetter.
  destruct (get_loc h l "getMockImplementation") as [| | | | |g]; try discriminate.
  destruct (h !! g) as [o|] eqn:Ho; [|discriminate].
  destruct (o_code o) as [[| | |[] f|]|] eqn:Hc; try discriminate.
  destruct (mock_state h f) as [st|] eqn:Hst; [|discriminate].
  assert (Hcall : call (S fuel) (VRef g) (VRef l) [] h = (Ok (mockImpl st), h)).
  { simpl. rewrite Ho, Hc. simpl. unfold getMockImplementation.
    erewrite bind_ok by (apply read_state_eq; eauto). reflexivity. }
  bind_step ltac:(exact Hcall). eauto.
Qed.

Lemma slot_is_own_standard fuel h type l slot :
  standard h = true -> l < length h ->
  exists b, slot_is_own (S fuel) type (VRef l) slot h = (Ok b, h).
Proof.
  intros Hstd Hl. destruct (standard_at h l Hstd Hl) as [Hhop _].
  unfold slot_is_own.
  bind_step ltac:(reflexivity). bind_step ltac:(reflexivity). cbn [get_pure].
  unfold genuine_hasOwnProperty in Hhop.
  destruct (get_loc h l "hasOwnProperty") as [| |b|n|s|g] eqn:Hg.
  all: try (destruct (negb (truthy _) && _) eqn:E1; [eauto|];
            simpl in Hhop |- *; try rewrite (negb_true_iff _) in Hhop;
            try rewrite Hhop;
            bind_step ltac:(reflexivity);
            destruct (String.eqb type "object");
            [bind_step ltac:(reflexivity); eauto|eauto]).
  cbn [truthy negb andb].
  destruct (h !! g) as [o|] eqn:Ho; [|discriminate].
  destruct (o_code o) as [[]|] eqn:Hc; try discriminate.
  assert (Hcall : call (S fuel) (VRef g) (VRef l) [VStr slot] h
                  = (Ok (VBool (has_own h l slot)), h)).
  { simpl. now rewrite Ho, Hc. }
  bind_step ltac:(erewrite bind_ok by exact Hcall; reflexivity).
  destruct (truthy (VBool (has_own h l slot))); [eauto|].
  destruct (String.eqb type "object");
    [bind_step ltac:(reflexivity); eauto|eauto].
Qed.

Lemma is_mock_surface_ok h type l slot :
  exists b, is_mock_surface type (VRef l) slot h = (Ok b, h).
Proof.
  unfold is_mock_surface. destruct (String.eqb type "function"); [|eauto].
  bind_step ltac:(reflexivity). eauto.
Qed.

End StandardHeap.

Lemma bind_on_heap {A B} (m : M A) (k : A -> X B) refs h a h' :
  m h = (Ok a, h') -> bind (on_heap m) k (refs, h) = k a (refs, h').
Proof. intros H. unfold bind, on_heap. cbn [fst snd]. now rewrite H. Qed.

Lemma step_ok_keep h n l : step_ok h n l (fun members => ret members).
Proof.
  intros members refs Hok Hk Hn. exists members, refs.
  split; [reflexivity|]. split; [apply grown_refl|]. auto.
Qed.

Section StandardExtraction.
Context {N : Natives}.

Lemma extract_slot_standard extract fuel h n type l slot :
  standard h = true -> l < length h -> extract_ok h n extract ->
  step_ok h n l (extract_slot extract (S fuel) type (VRef l) slot).
Proof.
  intros Hstd Hl Hex members refs Hok Hk Hn. unfold extract_slot.
  destruct (is_mock_surface_ok h type l slot) as [skip Hskip].
  rewrite (bind_on_heap _ _ refs h _ _ Hskip).
  destruct skip; [exact (step_ok_keep h n l members refs Hok Hk Hn)|].
  destruct (slot_is_own_standard fuel h type l slot Hstd Hl) as [own Hown].
  rewrite (bind_on_heap _ _ refs h _ _ Hown).
  destruct own; [|exact (step_ok_keep h n l members refs Hok Hk Hn)].
  rewrite (bind_on_heap _ _ refs h (get_loc h l slot) h) by reflexivity.
  destruct (Hex (get_loc h l slot) refs Hok Hk Hn)
    as (r & refs' & Heq & Hg & Hk' & Hrec & _).
  unfold bind. rewrite Heq.
  destruct r as [m|].
  - exists (members_put slot m members), refs'.
    split; [reflexivity|]. split; [exact Hg|]. split; [exact Hk'|].
    intros Hm. apply members_recognized_put; [|exact Hm].
    apply Hrec. discriminate.
  - exists members, refs'. auto.
Qed.

Lemma each_slot_standard h n l
    (step : string -> option members_t -> X (option members_t)) slots :
  (forall slot, step_ok h n l (step slot)) ->
  step_ok h n l (each_slot step slots).
Proof.
  intros Hstep. induction slots as [|slot slots IH];
    intros members refs Hok Hk Hn; simpl.
  - exact (step_ok_keep h n l members refs Hok Hk Hn).
  - destruct (Hstep slot members refs Hok Hk Hn)
      as (members1 & refs1 & Heq1 & Hg1 & Hk1 & Hm1).
    unfold bind. rewrite Heq1.
    destruct (IH members1 refs1 (grown_ok _ _ Hok Hg1) Hk1)
      as (members2 & refs2 & Heq2 & Hg2 & Hk2 & Hm2).
    { pose proof (unvisited_grown _ _ h Hg1). lia. }
    exists members2, refs2. split; [exact Heq2|].
    split; [eapply grown_trans; eauto|]. split; [exact Hk2|]. auto.
Qed.

Lemma extract_prototype_standard extract h n type l :
  extract_ok h n extract ->
  step_ok h n l (extract_prototype extract type (VRef l)).
Proof.
  intros Hex members refs Hok Hk Hn. unfold extract_prototype.
  destruct (String.eqb type "function"); [|exact (step_ok_keep h n l members refs Hok Hk Hn)].
  rewrite (bind_on_heap _ _ refs h (get_loc h l "prototype") h) by reflexivity.
  destruct (truthy (get_loc h l "prototype")); [|exact (step_ok_keep h n l members refs Hok Hk Hn)].
  destruct (Hex (get_loc h l "prototype") refs Hok Hk Hn)
    as (r & refs' & Heq & Hg & Hk' & Hrec & _).
  unfold bind. rewrite Heq.
  destruct r as [pm|]; [destruct (md_members pm)|].
  - exists (members_put "prototype" pm members), refs'.
    split; [reflexivity|]. split; [exact Hg|]. split; [exact Hk'|].
    intros Hm. apply members_recognized_put; [|exact Hm].
    apply Hrec. discriminate.
  - exists members, refs'. auto.
  - exists members, refs'. auto.
Qed.

Lemma extract_members_standard extract fuel h n type l :
  standard h = true -> l < length h -> extract_ok h n extract ->
  forall refs,
    table_ok refs -> keys_recognized h refs -> unvisited refs h <= n ->
    exists members refs',
      extract_members extract (S fuel) type (VRef l) (refs, h)
      = (Ok members, (refs', h)) /\
      grown refs refs' /\ keys_recognized h refs' /\
      members_recognized h l members.
Proof.
  intros Hstd Hl Hex refs Hok Hk Hn. unfold extract_members.
  assert (Hnone : members_recognized h l None) by (intros slot child; discriminate).
  destruct (negb (String.eqb type "array")).
  2: { exists None, refs. split; [reflexivity|]. split; [apply grown_refl|]. auto. }
  assert (Hslots : exists members1 refs1,
    (if negb (String.eqb type "undefined") then
       let* slots := on_heap (fun h => (Ok (getSlots h (VRef l)), h)) in
       each_slot (extract_slot extract (S fuel) type (VRef l)) slots None
     else ret None) (refs, h) = (Ok members1, (refs1, h)) /\
    grown refs refs1 /\ keys_recognized h refs1 /\
    members_recognized h l members1).
  { destruct (negb (String.eqb type "undefined")).
    - rewrite (bind_on_heap _ _ refs h (getSlots h (VRef l)) h) by reflexivity.
      destruct (each_slot_standard h n l
                  (extract_slot extract (S fuel) type (VRef l))
                  (getSlots h (VRef l))
                  (fun slot => extract_slot_standard extract fuel h n type l slot
                                 Hstd Hl Hex)
                  None refs Hok Hk Hn)
        as (members1 & refs1 & Heq & Hg & Hk1 & Hm).
      exists members1, refs1. auto.
    - exists None, refs. split; [reflexivity|]. split; [apply grown_refl|]. auto. }
  destruct Hslots as (members1 & refs1 & Heq1 & Hg1 & Hk1 & Hm1).
  rewrite (bind_ok _ _ _ _ _ Heq1).
  destruct (extract_prototype_standard extract h n type l Hex members1 refs1
              (grown_ok _ _ Hok Hg1) Hk1)
    as (members2 & refs2 & Heq2 & Hg2 & Hk2 & Hm2).
  { pose proof (unvisited_grown _ _ h Hg1). lia. }
  exists members2, refs2. split; [exact Heq2|].
  split; [eapply grown_trans; eauto|]. auto.
Qed.

(** In a standard heap, with more fuel than unvisited objects,
    extraction returns. *)
Lemma getMetadata_standard h :
  standard h = true ->
  forall fuel n, n < fuel -> extract_ok h n (getMetadata fuel).
Proof.
  intros Hstd. induction fuel as [|fuel IH]; intros n Hfuel; [lia|].
  intros c refs Hok Hk Hn.
  destruct (Map_get refs c) as [k|] eqn:Hget.
  { exists (Some (back_reference k)), refs.
    split; [now apply getMetadata_registered|]. split; [apply grown_refl|].
    split; [exact Hk|]. split; [intros _; now apply (Hk c k)|].
    intros md l [= <-] _ slot child. discriminate. }
  destruct (getType h c) as [type|] eqn:Htype.
  2: { exists None, refs.
       split; [now apply getMetadata_unrecognized|]. split; [apply grown_refl|].
       split; [exact Hk|]. split; [congruence|]. discriminate. }
  destruct (is_leaf_type type) eqn:Hleaf.
  { exists (Some (leaf_node type c)), refs.
    split; [now apply getMetadata_leaf|]. split; [apply grown_refl|].
    split; [exact Hk|]. split; [discriminate|].
    intros md l [= <-] _ slot child. discriminate. }
  destruct (getType_object h c type Htype Hleaf) as (l & -> & Hl).
  rewrite (getMetadata_full fuel (VRef l) refs h type Hget Htype Hleaf).
  pose proof (unvisited_register refs h l (length refs) Hget Hl) as Hdec.
  destruct fuel as [|fuel]; [lia|].
  destruct (function_fields_standard fuel h type l Hstd Hl) as [fields ->].
  assert (Hg1 : grown refs (refs ++ [(VRef l, length refs)])).
  { exists [(VRef l, length refs)]. split; reflexivity. }
  destruct (extract_members_standard (getMetadata (S fuel)) fuel h
              (unvisited (refs ++ [(VRef l, length refs)]) h) type l Hstd Hl
              (IH (unvisited (refs ++ [(VRef l, length refs)]) h) ltac:(lia))
              (refs ++ [(VRef l, length refs)])
              (grown_ok _ _ Hok Hg1)
              (keys_recognized_register h refs (VRef l) type Hk Htype)
              (Nat.le_refl _))
    as (members & refs' & -> & Hg & Hk' & Hm).
  eexists _, refs'. split; [reflexivity|].
  split; [eapply grown_trans; eauto|]. split; [exact Hk'|].
  split; [congruence|].
  intros md l' [= <-] [= <-]. exact Hm.
Qed.

End StandardExtraction.

Section ExtractionClaims.
Context {N : Natives}.

(** C5 (amended): within one extraction the table only grows, by entries
    that carry the next ids 0, 1, 2, ... in the order of the visits.  A
    value typed function, array, object or regexp is described in full on
    its first visit, where it is registered under the next id, and every
    later visit of it returns a back-reference with that id; the ids of a
    returned tree are pairwise distinct.  A value typed constant,
    collection, undefined or null is described in full at every occurrence,
    without an id, and is never registered.  In a standard heap the
    extraction returns as soon as the fuel exceeds the number of objects
    not yet visited. *)
Theorem extraction_identity (fuel : nat) (c : value) (refs : table) (h : heap) :
  table_ok refs ->
  let r := getMetadata fuel c (refs, h) in
  let refs' := fst (snd r) in
  grown refs refs' /\ table_ok refs' /\
  (* a later visit *)
  (forall k fuel',
     Map_get refs c = Some k ->
     getMetadata (S fuel') c (refs, h)
     = (Ok (Some (back_reference k)), (refs, h))) /\
  (* constant, collection, undefined, null *)
  (forall type fuel',
     Map_get refs c = None -> getType h c = Some type ->
     is_leaf_type type = true ->
     getMetadata (S fuel') c (refs, h)
     = (Ok (Some (leaf_node type c)), (refs, h))) /\
  (* the first visit of a function, array, object or regexp *)
  (forall type md,
     Map_get refs c = None -> getType h c = Some type ->
     is_leaf_type type = false -> fst r = Ok (Some md) ->
     md_ref md = None /\ md_type md = Some type /\
     md_refID md = Some (length refs) /\
     Map_get refs' c = Some (length refs)) /\
  (* the ids of the tree *)
  (forall md,
     fst r = Ok (Some md) ->
     NoDup (all_ids md) /\
     (forall id, id ∈ all_ids md -> length refs <= id < length refs') /\
     (forall k, k ∈ all_refs md -> k < length refs')) /\
  (* it returns *)
  (standard h = true -> keys_recognized h refs -> unvisited refs h < fuel ->
   exists res, r = (Ok res, (refs', h))).
Proof.
  intros Hok r refs'.
  destruct (triple_getMetadata fuel c refs h Hok) as [Hg Htree].
  fold r in Hg, Htree. fold refs' in Hg, Htree.
  split; [exact Hg|]. split; [eapply grown_ok; eauto|].
  split; [intros k fuel' Hget; now apply getMetadata_registered|].
  split; [intros type fuel' Hget Ht Hl; now apply getMetadata_leaf|].
  split; [|split].
  - intros type md Hget Ht Hl Hr.
    destruct fuel as [|fuel]; [discriminate|].
    unfold refs', r in *.
    rewrite (getMetadata_full fuel c refs h type Hget Ht Hl) in *.
    destruct (function_fields fuel type c h) as [[fields|e|] h1];
      try discriminate.
    destruct (extract_members _ _ _ _ _) as [[members|e|] s2];
      try discriminate.
    cbn [fst snd] in *. injection Hr as <-.
    split; [reflexivity|]. split; [reflexivity|]. split; [reflexivity|].
    destruct (Htree _ eq_refl) as [_ Hid].
    now destruct (Hid (length refs) eq_refl) as (_ & _ & Hreg).
  - intros md Hr. now destruct (Htree md Hr) as [Ht _].
  - intros Hstd Hk Hfuel.
    destruct (getMetadata_standard h Hstd fuel (unvisited refs h) Hfuel
                c refs Hok Hk (Nat.le_refl _))
      as (res & refs2 & Heq & _).
    exists res. unfold refs', r. now rewrite Heq.
Qed.

(** C7: a value without a type is not described: [getMetadata] returns
    [null] for it and does not raise; and in a standard heap the
    description of an object (its node is returned) has no entry for a
    member whose value has no type: the step of the members loop leaves the
    members and the table as they were. *)
Theorem unrecognized_is_skipped (fuel : nat) (h : heap) (l : loc)
    (type : string) :
  standard h = true -> length h < fuel ->
  getType h (VRef l) = Some type -> is_leaf_type type = false ->
  (forall c refs,
     Map_get refs c = None -> getType h c = None ->
     getMetadata fuel c (refs, h) = (Ok None, (refs, h))) /\
  (forall c, getType h c = None -> getMetadata_top fuel c h = (Ok None, h)) /\
  (forall slot members refs f,
     keys_recognized h refs ->
     getType h (get_loc h l slot) = None ->
     extract_slot (getMetadata (S f)) (S f) type (VRef l) slot members (refs, h)
     = (Ok members, (refs, h))) /\
  exists md,
    getMetadata_top fuel (VRef l) h = (Ok (Some md), h) /\
    md_type md = Some type /\ md_refID md = Some 0 /\
    forall slot,
      getType h (get_loc h l slot) = None ->
      lookup_prop slot (members_of md) = None.
Proof.
  intros Hstd Hfuel Htype Hleaf.
  destruct (getType_object h _ type Htype Hleaf) as (l' & [= <-] & Hl).
  destruct fuel as [|fuel]; [lia|].
  split; [intros c refs Hget Hc; now apply getMetadata_unrecognized|].
  split.
  { intros c Hc. unfold getMetadata_top.
    now rewrite (getMetadata_unrecognized fuel c [] h eq_refl Hc). }
  split.
  { intros slot members refs f Hk Hv. unfold extract_slot.
    destruct (is_mock_surface_ok h type l slot) as [skip Hskip].
    rewrite (bind_on_heap _ _ refs h _ _ Hskip).
    destruct skip; [reflexivity|].
    destruct (slot_is_own_standard f h type l slot Hstd Hl) as [own Hown].
    rewrite (bind_on_heap _ _ refs h _ _ Hown).
    destruct own; [|reflexivity].
    rewrite (bind_on_heap _ _ refs h (get_loc h l slot) h) by reflexivity.
    assert (Hget : Map_get refs (get_loc h l slot) = None).
    { destruct (Map_get refs (get_loc h l slot)) as [k|] eqn:E; [|reflexivity].
      now destruct (Hk _ _ E). }
    unfold bind. now rewrite (getMetadata_unrecognized f _ refs h Hget Hv). }
  unfold getMetadata_top.
  rewrite (getMetadata_full fuel (VRef l) [] h type eq_refl Htype Hleaf).
  destruct fuel as [|fuel].
  { assert (length h = 0) by lia. lia. }
  destruct (function_fields_standard fuel h type l Hstd Hl) as [fields ->].
  assert (Hk1 : keys_recognized h [(VRef l, 0)]).
  { apply (keys_recognized_register h [] (VRef l) type); [|exact Htype].
    intros k id. discriminate. }
  assert (Hok1 : table_ok [(VRef l, 0)]) by reflexivity.
  assert (Hn : unvisited [(VRef l, 0)] h < S fuel).
  { pose proof (unvisited_register [] h l 0 eq_refl Hl) as Hdec.
    pose proof (unvisited_le [] h). simpl in Hdec. lia. }
  destruct (extract_members_standard (getMetadata (S fuel)) fuel h
              (unvisited [(VRef l, 0)] h) type l Hstd Hl
              (getMetadata_standard h Hstd (S fuel) _ Hn)
              [(VRef l, 0)] Hok1 Hk1 (Nat.le_refl _))
    as (members & refs' & Heq & _ & _ & Hm).
  cbn [length app]. rewrite Heq. cbn [snd].
  eexists. split; [reflexivity|]. split; [reflexivity|]. split; [reflexivity|].
  intros slot Hv. unfold members_of. cbn [md_members].
  destruct (lookup_prop slot (default [] members)) as [child|] eqn:E.
  - now destruct (Hm slot child E).
  - now destruct members.
Qed.

End ExtractionClaims.

Lemma extraction_identity_witness :
  table_ok [] /\
  standard cyclic_heap = true /\
  exists md,
    fst (@getMetadata example_natives 12 (VRef 8) ([], cyclic_heap))
    = Ok (Some md) /\
    md_refID md = Some 0 /\ NoDup (all_ids md) /\
    lookup_prop "self" (members_of md) = Some (back_reference 0).
Proof.
  split; [reflexivity|]. split; [reflexivity|].
  destruct (@extraction_identity example_natives 12 (VRef 8) [] cyclic_heap
              eq_refl) as (_ & _ & _ & _ & Hfirst & Htree & _).
  eexists. split; [reflexivity|].
  split; [|split; [|reflexivity]].
  - exact (proj1 (proj2 (proj2 (Hfirst "object" _ eq_refl eq_refl eq_refl eq_refl)))).
  - exact (proj1 (Htree _ eq_refl)).
Defined.

Lemma unrecognized_is_skipped_witness :
  standard cyclic_heap = true /\
  getType cyclic_heap (get_loc cyclic_heap 8 "d") = None /\
  exists md,
    @getMetadata_top example_natives 12 (VRef 8) cyclic_heap
    = (Ok (Some md), cyclic_heap) /\
    lookup_prop "d" (members_of md) = None /\
    lookup_prop "n" (members_of md) = Some (leaf_node "constant" (VNum 5)).
Proof.
  split; [reflexivity|]. split; [reflexivity|].
  destruct (@unrecognized_is_skipped example_natives 12 cyclic_heap 8 "object"
              eq_refl ltac:(simpl; lia) eq_refl eq_refl)
    as (_ & _ & _ & md & Heq & _ & _ & Hskip).
  exists md. split; [exact Heq|]. split; [now apply Hskip|].
  assert (Hmd : Ok (Some md)
                = fst (@getMetadata_top example_natives 12 (VRef 8) cyclic_heap))
    by now rewrite Heq.
  vm_compute in Hmd. injection Hmd as ->. reflexivity.
Defined.

(** C5, as stated, fails: the two members [x] and [y] of the parent hold
    one [Map]; both are described in full, neither is a back-reference. *)
Lemma collection_extracted_twice :
  exists md,
    fst (@getMetadata_top example_natives 5 (VRef 8) shared_map_heap)
    = Ok (Some md) /\
    get_loc shared_map_heap 8 "x" = VRef 9 /\
    get_loc shared_map_heap 8 "y" = VRef 9 /\
    lookup_prop "x" (members_of md) = Some (leaf_node "collection" (VRef 9)) /\
    lookup_prop "y" (members_of md) = Some (leaf_node "collection" (VRef 9)) /\
    ~ spec_extracted_once shared_map_heap 8 md.
Proof.
  eexists. split; [reflexivity|]. repeat split.
  intros Hspec.
  destruct (Hspec "x" "y" _ _ 9 ltac:(discriminate) eq_refl eq_refl
              eq_refl eq_refl) as [H|H]; now apply H.
Qed.

(** ** Constructor-style calls *)

Lemma lacks_agree p n h h' l :
  agrees_on p h h' -> lacks n h l p = true ->
  forall n', n <= n' -> lacks n' h' l p = true.
Proof.
  intros Hag. revert l. induction n as [|n IH]; intros l Hl n' Hle; simpl in Hl;
    destruct (h !! l) as [o|] eqn:Ho; try discriminate;
    destruct (Hag l o Ho) as (o' & Ho' & Hp & Hlk);
    destruct n'; try lia; simpl; rewrite Ho', Hlk, Hp;
    destruct (lookup_prop p (o_props o)); try discriminate;
    destruct (o_proto o); try discriminate; auto.
  apply IH; auto. lia.
Qed.

Lemma agrees_on_length p h h' : agrees_on p h h' -> length h <= length h'.
Proof.
  intros H. destruct (decide (length h = 0)) as [ -> | Hne]; [lia|].
  destruct (lookup_lt_is_Some_2 h (length h - 1)) as [o Ho]; [lia|].
  destruct (H _ _ Ho) as (o' & Ho' & _).
  apply lookup_lt_Some in Ho'. lia.
Qed.

Lemma intrinsics_plain_agree h h' :
  agrees_on "prototype" h h' ->
  intrinsics_plain h = true -> intrinsics_plain h' = true.
Proof.
  intros Hag. pose proof (agrees_on_length _ _ _ Hag).
  unfold intrinsics_plain. rewrite !andb_true_iff. intros [[H1 H2] H3].
  repeat split; eapply lacks_agree; eauto.
Qed.

Lemma value_lacks_prototype_agree h h' v :
  agrees_on "prototype" h h' ->
  value_lacks_prototype h v = true -> value_lacks_prototype h' v = true.
Proof.
  intros Hag. pose proof (agrees_on_length _ _ _ Hag).
  destruct v; simpl; auto; intros Hl; eapply lacks_agree; eauto.
Qed.

Lemma plain_tree_agree h h' md :
  agrees_on "prototype" h h' ->
  plain_tree h md = true -> plain_tree h' md = true.
Proof.
  intros Hag. induction md as [md IH] using metadata_ind.
  rewrite !plain_tree_unfold. destruct (is_shell md).
  - rewrite !andb_true_iff. intros [H1 H2]. split; auto.
    unfold members_of in IH. destruct (md_members md) as [ms|]; auto.
    eapply plain_members_mono; eauto.
  - destruct (_ || _).
    + rewrite !andb_true_iff. intros [H1 H2]. split; auto.
      eapply value_lacks_prototype_agree; eauto.
    + auto.
Qed.

Lemma get_from_agree p n h h' l :
  agrees_on p h h' -> settled n h l = true ->
  forall n', n <= n' -> get_from n' h' l p = get_from n h l p.
Proof.
  intros Hag. revert l. induction n as [|n IH]; intros l Hl n' Hle; simpl in Hl;
    destruct (h !! l) as [o|] eqn:Ho; try discriminate;
    destruct (Hag l o Ho) as (o' & Ho' & Hp & Hlk);
    destruct n'; try lia; simpl; rewrite Ho, Ho', Hlk, Hp;
    destruct (lookup_prop p (o_props o)); auto;
    destruct (o_proto o); try discriminate; auto.
  apply IH; auto. lia.
Qed.

Lemma get_loc_agree p h h' l :
  agrees_on p h h' -> settled (length h) h l = true ->
  get_loc h' l p = get_loc h l p.
Proof.
  intros Hag Hs. unfold get_loc. eapply get_from_agree; eauto.
  eapply agrees_on_length; eauto.
Qed.

(** The second pass writes only to the objects its setters name. *)
Lemma run_callbacks_frame (refs : refs_t) cbs :
  forall h hf,
    forEach cbs (run_callback refs) h = (Ok tt, hf) ->
    forall l, (forall cb, cb ∈ cbs -> cb_mock cb <> VRef l) -> hf !! l = h !! l.
Proof.
  induction cbs as [|cb cbs IH]; intros h hf Hrun l Hl.
  - simpl in Hrun. now injection Hrun as <-.
  - cbn [forEach] in Hrun. unfold bind in Hrun.
    destruct (run_callback refs cb h) as [[[]| |] h1] eqn:Hcb; try discriminate.
    rewrite (IH h1 hf Hrun l)
      by (intros cb' Hcb'; apply Hl; apply elem_of_cons; now right).
    unfold run_callback, set in Hcb.
    destruct (cb_mock cb) as [| | | | |l0] eqn:Hm; try discriminate.
    destruct (h !! l0) as [o|]; [|discriminate]. injection Hcb as <-.
    apply list_lookup_insert_ne. intros ->.
    apply (Hl cb); [apply elem_of_cons; now left|exact Hm].
Qed.

(** The object that [generateMock] returns is the one [makeComponent]
    made, and what follows only grows the heap. *)
Lemma generateMock_component md st h mock st' h' :
  generateMock md st h = (Ok (mock, st'), h') ->
  exists h1, makeComponent md h = (Ok mock, h1) /\ extends h1 h'.
Proof.
  rewrite generateMock_unfold. unfold bind at 1.
  destruct (makeComponent md h) as [[mock1| |] h1]; try discriminate.
  intros Hrest. exists h1.
  set (rest := (let* st2 := _ in _) : M (value * gen_state)) in Hrest.
  assert (Hg : grows rest).
  { unfold rest. apply grows_bind.
    - destruct (md_members md); [|apply grows_ret].
      apply grows_members_loop. apply Forall_forall. intros kv _ st0.
      apply grows_generateMock.
    - intros st2. apply grows_bind; [apply grows_relink|].
      intros _. apply grows_ret. }
  specialize (Hg h1). rewrite Hrest in Hg. cbn [snd] in Hg.
  split; [|exact Hg].
  unfold rest, bind in Hrest.
  destruct (match md_members md with _ => _ end h1) as [[st2| |] h2];
    try discriminate.
  destruct (relink_constructor md mock1 h2) as [[[]| |] h3]; try discriminate.
  now injection Hrest as <- _ _.
Qed.

(** Generation of a plain function node: a new mock function, in its
    initial state, at the third new address; the objects that were there
    are untouched. *)
Lemma generateFromMetadata_function md h :
  intrinsics_plain h = true -> plain_tree h md = true ->
  type_is md "function" = true ->
  exists hf,
    generateFromMetadata md h = (Ok (VRef (length h + 2)), hf) /\
    length h + 2 < length hf /\
    mock_state hf (length h + 2) = Some (initial_state md) /\
    forall l, l < length h -> hf !! l = h !! l.
Proof.
  intros Hint Hplain Hfn.
  assert (Hshell : is_shell md = true)
    by (unfold is_shell; rewrite Hfn; auto using orb_true_r).
  destruct (generateMock_plain md h ([], ∅) Hint Hplain)
    as (mock & cbs & refs & added & Hgen & Hmock & Hrange & _).
  destruct (generateMock_component _ _ _ _ _ _ Hgen) as (h1 & Hmk & Hext).
  destruct (run_callbacks refs cbs (h ++ added)) as (hf & Hrun & Hlen & _).
  { intros cb Hcb. destruct (Hrange cb Hcb) as (l & Hl & Hr).
    exists l. split; [exact Hl|]. rewrite length_app. lia. }
  assert (Hmk' : exists label,
    makeComponent md h
    = (Ok (VRef (length h + 2)), h ++ mock_objects (length h) label md)).
  { unfold makeComponent in Hmk |- *.
    apply type_is_eq in Hfn.
    rewrite (type_is_other md _ "object" Hfn), (type_is_other md _ "array" Hfn),
      (type_is_other md _ "regexp" Hfn), (type_is_other md _ "constant" Hfn),
      (type_is_other md _ "collection" Hfn), (type_is_other md _ "null" Hfn),
      (type_is_other md _ "undefined" Hfn) by discriminate.
    rewrite (type_is_other md _ "object" Hfn), (type_is_other md _ "array" Hfn),
      (type_is_other md _ "regexp" Hfn), (type_is_other md _ "constant" Hfn),
      (type_is_other md _ "collection" Hfn), (type_is_other md _ "null" Hfn),
      (type_is_other md _ "undefined" Hfn) in Hmk by discriminate.
    rewrite (proj2 (type_is_eq md _) Hfn) in Hmk |- *. cbn [orb] in Hmk |- *.
    unfold bind, lift in Hmk |- *.
    destruct (createMockFunction md) as [label| |]; try discriminate.
    destruct (label_compiles label); try discriminate.
    exists label. reflexivity. }
  destruct Hmk' as (label & Hmk'). rewrite Hmk' in Hmk.
  injection Hmk as <- <-.
  exists hf. split; [|split; [|split]].
  - unfold generateFromMetadata.
    bind_step ltac:(exact Hgen). cbn [fst app].
    bind_step ltac:(exact Hrun). reflexivity.
  - rewrite Hlen. apply extends_length in Hext.
    rewrite length_app in Hext. simpl in Hext. lia.
  - pose proof (grows_forEach cbs (run_callback refs)
                  (fun cb => grows_set _ _ _) (h ++ added)) as Hg.
    rewrite Hrun in Hg. cbn [snd] in Hg.
    eapply extends_mock_state; [exact Hg|].
    eapply extends_mock_state; [exact Hext|].
    unfold mock_state. rewrite lookup_app_r by lia.
    replace (length h + 2 - length h) with 2 by lia. reflexivity.
  - intros l Hl.
    rewrite (run_callbacks_frame refs cbs _ _ Hrun l).
    + apply lookup_app_l. exact Hl.
    + intros cb Hcb Heq. destruct (Hrange cb Hcb) as (l' & Hl' & Hge & _).
      rewrite Heq in Hl'. injection Hl' as <-. lia.
Qed.

Lemma agrees_on_with_state p h f st : agrees_on p h (with_state f st h).
Proof.
  intros l o Ho. unfold with_state.
  destruct (h !! f) as [o1|] eqn:Hf; [|eauto].
  destruct (decide (l = f)) as [ -> | Hne].
  - rewrite list_lookup_insert_eq by (eapply lookup_lt_Some; eauto).
    assert (o1 = o) by congruence. subst o1. eexists. split; [reflexivity|].
    simpl. auto.
  - rewrite list_lookup_insert_ne by congruence. eauto.
Qed.

Lemma settled_agree p n h h' l :
  agrees_on p h h' -> settled n h l = true ->
  forall n', n <= n' -> settled n' h' l = true.
Proof.
  intros Hag. revert l. induction n as [|n IH]; intros l Hl n' Hle; simpl in Hl;
    destruct (h !! l) as [o|] eqn:Ho; try discriminate;
    destruct (Hag l o Ho) as (o' & Ho' & Hp & Hlk);
    destruct n'; try lia; simpl; rewrite Ho', Hp;
    destruct (o_proto o); try discriminate; auto.
  apply IH; auto. lia.
Qed.

Lemma installed_start st t h0 o :
  h0 !! t = Some o -> installed st t h0 [] h0.
Proof.
  intros Ho. split; [lia|]. split; [auto|]. split; [|split].
  - exists o, o. unfold same_kind. repeat split; auto.
  - intros slot Hin. now apply not_elem_of_nil in Hin.
  - intros slot slot' m Hin. now apply not_elem_of_nil in Hin.
Qed.

Lemma installed_agrees st t h0 done h p :
  installed st t h0 done h ->
  (p ∈ done -> function_slot st p = false) ->
  agrees_on p h0 h.
Proof.
  intros (_ & Hold & (o0 & o & Ho0 & Ho & (_ & _ & Hp & _) & Hlk) & _) Hp0 l ol Hl.
  destruct (decide (l = t)) as [ -> | Hne].
  - assert (ol = o0) by congruence. subst ol. exists o. auto.
  - exists ol. auto.
Qed.

(** A slot that is not function-typed is left alone. *)
Lemma install_slot_other st this slot h :
  is_Some (lookup_prop slot (prototype st)) ->
  function_slot st slot = false ->
  install_slot st this slot h = (Ok tt, h).
Proof.
  unfold function_slot, install_slot. intros [sm ->] ->. reflexivity.
Qed.

(** A function-typed slot: the value read from the receiver, the
    generation of a new mock function, the assignment to the receiver and
    the assignment of [_protoImpl]. *)
Lemma install_slot_function st t slot sm h o :
  lookup_prop slot (prototype st) = Some sm ->
  type_is sm "function" = true ->
  intrinsics_plain h = true -> plain_tree h sm = true ->
  h !! t = Some o ->
  exists hf,
    install_slot st (VRef t) slot h = (Ok tt, hf) /\
    length h + 2 < length hf /\
    (forall l, l < length h -> l <> t -> hf !! l = h !! l) /\
    hf !! t = Some (set_obj_prop slot (VRef (length h + 2)) o) /\
    mock_state hf (length h + 2) = Some (initial_state sm) /\
    own_prop hf (length h + 2) "_protoImpl" = Some (PData (get_loc h t slot)).
Proof.
  intros Hlk Hfn Hint Hplain Ho.
  pose proof (lookup_lt_Some _ _ _ Ho) as Hlt.
  destruct (generateFromMetadata_function sm h Hint Hplain Hfn)
    as (h1 & Hgen & Hlen & Hst & Hold).
  destruct (mock_state_lookup _ _ _ Hst) as (om & Hom & Hcode).
  set (m := length h + 2) in *.
  set (h2 := <[t := set_obj_prop slot (VRef m) o]> h1).
  assert (Ht1 : h1 !! t = Some o) by (rewrite Hold; auto).
  assert (Hm2 : h2 !! m = Some om).
  { unfold h2. rewrite list_lookup_insert_ne by (unfold m; lia). exact Hom. }
  exists (<[m := set_obj_prop "_protoImpl" (get_loc h t slot) om]> h2).
  split; [|split; [|split; [|split; [|split]]]].
  - unfold install_slot. rewrite Hlk, Hfn.
    unfold bind at 1. unfold get at 1. cbn [get_pure].
    bind_step ltac:(exact Hgen).
    unfold bind at 1. unfold set at 1. rewrite Ht1. fold h2.
    unfold bind, get. cbn [get_pure].
    rewrite (get_loc_own h2 t slot (PData (VRef m))).
    + simpl. unfold set. now rewrite Hm2.
    + unfold h2. rewrite (own_prop_set h1 t o slot (VRef m) t slot Ht1).
      now rewrite Nat.eqb_refl, String.eqb_refl.
  - unfold h2. rewrite !length_insert. exact Hlen.
  - intros l Hl Hne. rewrite list_lookup_insert_ne by (unfold m; lia).
    unfold h2. rewrite list_lookup_insert_ne by congruence. auto.
  - rewrite list_lookup_insert_ne by (unfold m; lia).
    unfold h2. apply list_lookup_insert_eq. eapply lookup_lt_Some; eauto.
  - unfold mock_state.
    rewrite list_lookup_insert_eq by (eapply lookup_lt_Some; eauto).
    simpl. now rewrite Hcode.
  - rewrite (own_prop_set h2 m om _ _ m "_protoImpl" Hm2).
    now rewrite Nat.eqb_refl, String.eqb_refl.
Qed.

Lemma installed_skip st t h0 done h slot :
  installed st t h0 done h -> function_slot st slot = false ->
  installed st t h0 (done ++ [slot]) h.
Proof.
  intros (Hlen & Hold & (o0 & o & Ho0 & Ho & Hk & Hsame) & Hdone & Hdist) Hf.
  assert (Hin : forall s, s ∈ done ++ [slot] -> function_slot st s = true -> s ∈ done).
  { intros s Hs Hfs. apply elem_of_app in Hs. destruct Hs as [Hs|Hs]; [exact Hs|].
    apply list_elem_of_singleton in Hs. congruence. }
  split; [exact Hlen|]. split; [exact Hold|]. split; [|split].
  - exists o0, o. repeat split; try apply Hk; auto.
    intros p Hp. apply Hsame. intros Hpd. apply Hp. apply elem_of_app. now left.
  - intros s Hs Hfs. apply Hdone; auto.
  - intros s s' m Hs Hs' Hfs Hfs'. apply Hdist; auto.
Qed.

Lemma installed_step st t h0 done h slot :
  intrinsics_plain h0 = true ->
  settled (length h0) h0 t = true ->
  function_slot st "prototype" = false ->
  (forall s sm, lookup_prop s (prototype st) = Some sm ->
                type_is sm "function" = true -> plain_tree h0 sm = true) ->
  installed st t h0 done h ->
  slot ∉ done ->
  is_Some (lookup_prop slot (prototype st)) ->
  exists hf,
    install_slot st (VRef t) slot h = (Ok tt, hf) /\
    installed st t h0 (done ++ [slot]) hf.
Proof.
  intros Hint Hset Hproto Hplain Hinst Hnew Hsome.
  destruct (function_slot st slot) eqn:Hf.
  2:{ exists h. split; [now apply install_slot_other|now apply installed_skip]. }
  assert (Hagp : agrees_on "prototype" h0 h)
    by (eapply installed_agrees; eauto).
  assert (Hags : agrees_on slot h0 h)
    by (eapply installed_agrees; eauto; intros Hin; contradiction).
  destruct Hinst as (Hlen & Hold & (o0 & o & Ho0 & Ho & Hk & Hsame) & Hdone & Hdist).
  pose proof (lookup_lt_Some _ _ _ Ho0) as Ht0.
  unfold function_slot in Hf.
  destruct (lookup_prop slot (prototype st)) as [sm|] eqn:Hlk; [|discriminate].
  destruct (install_slot_function st t slot sm h o Hlk Hf)
    as (hf & Hrun & Hlenf & Hframe & Htf & Hstf & Himpl); auto.
  { eapply intrinsics_plain_agree; eauto. }
  { eapply plain_tree_agree; eauto. }
  rewrite (get_loc_agree slot h0 h t Hags Hset) in Himpl.
  assert (Hown : forall p, p <> slot -> own_prop hf t p = own_prop h t p).
  { intros p Hp. unfold own_prop. rewrite Htf, Ho. simpl.
    now apply lookup_prop_set_prop_ne. }
  assert (Hnew_own : own_prop hf t slot = Some (PData (VRef (length h + 2)))).
  { unfold own_prop. rewrite Htf. simpl. apply lookup_prop_set_prop_eq. }
  assert (Hbound : forall s m,
            s ∈ done -> function_slot st s = true ->
            own_prop h t s = Some (PData (VRef m)) -> m < length h).
  { intros s m Hs Hfs Hm. destruct (Hdone s Hs Hfs) as (m' & _ & _ & Hm' & Hr & _).
    rewrite Hm in Hm'. injection Hm' as <-. lia. }
  assert (Hne : forall s, s ∈ done -> s <> slot) by (intros s Hs ->; contradiction).
  exists hf. split; [exact Hrun|].
  split; [lia|]. split; [|split; [|split]].
  - intros l ol Hl Hlt. rewrite Hframe; auto.
    apply lookup_lt_Some in Hl. lia.
  - exists o0, (set_obj_prop slot (VRef (length h + 2)) o).
    split; [exact Ho0|]. split; [exact Htf|]. split.
    + destruct Hk as (? & ? & ? & ?). unfold same_kind. simpl. auto.
    + intros p Hp. simpl.
      assert (p <> slot).
      { intros ->. unfold function_slot in Hp. rewrite Hlk, Hf in Hp.
        assert (true = false); [|discriminate].
        apply Hp. apply elem_of_app. right. now apply list_elem_of_singleton. }
      rewrite lookup_prop_set_prop_ne by assumption.
      apply Hsame. intros Hpd. apply Hp. apply elem_of_app. now left.
  - intros s Hs Hfs. apply elem_of_app in Hs. destruct Hs as [Hs|Hs].
    + destruct (Hdone s Hs Hfs) as (m & sm' & Hlk' & Hm & Hr & Hst & Hpi).
      assert (Hmf : hf !! m = h !! m) by (apply Hframe; lia).
      exists m, sm'. split; [exact Hlk'|]. split; [|split; [lia|split]].
      * rewrite Hown; auto.
      * unfold mock_state in *. now rewrite Hmf.
      * unfold own_prop in *. now rewrite Hmf.
    + apply list_elem_of_singleton in Hs. subst s.
      exists (length h + 2), sm. split; [exact Hlk|]. split; [exact Hnew_own|].
      split; [lia|]. split; [exact Hstf|exact Himpl].
  - intros s s' m Hs Hs' Hfs Hfs' Hm Hm'.
    apply elem_of_app in Hs, Hs'.
    destruct Hs as [Hs|Hs], Hs' as [Hs'|Hs'];
      try (apply list_elem_of_singleton in Hs; subst s);
      try (apply list_elem_of_singleton in Hs'; subst s'); auto.
    + rewrite Hown in Hm, Hm' by auto. eapply Hdist; eauto.
    + rewrite Hown in Hm by auto. rewrite Hnew_own in Hm'. injection Hm' as <-.
      pose proof (Hbound s _ Hs Hfs Hm). lia.
    + rewrite Hown in Hm' by auto. rewrite Hnew_own in Hm. injection Hm as <-.
      pose proof (Hbound s' _ Hs' Hfs' Hm'). lia.
Qed.

(** The loop [prototypeSlots.forEach] of a constructor-style call. *)
Lemma install_all st t h0 :
  intrinsics_plain h0 = true ->
  settled (length h0) h0 t = true ->
  function_slot st "prototype" = false ->
  (forall s sm, lookup_prop s (prototype st) = Some sm ->
                type_is sm "function" = true -> plain_tree h0 sm = true) ->
  forall todo done h,
    NoDup (done ++ todo) ->
    (forall s, s ∈ todo -> is_Some (lookup_prop s (prototype st))) ->
    installed st t h0 done h ->
    exists hf,
      forEach todo (install_slot st (VRef t)) h = (Ok tt, hf) /\
      installed st t h0 (done ++ todo) hf.
Proof.
  intros Hint Hset Hproto Hplain todo.
  induction todo as [|slot todo IH]; intros done h Hnd Hsome Hinst.
  - exists h. rewrite app_nil_r. split; [reflexivity|exact Hinst].
  - destruct (installed_step st t h0 done h slot) as (h1 & Hrun & Hinst1); auto.
    + apply NoDup_app in Hnd. destruct Hnd as (_ & Hd & _).
      intros Hin. apply (Hd slot Hin). apply elem_of_cons. now left.
    + apply Hsome. apply elem_of_cons. now left.
    + destruct (IH (done ++ [slot]) h1) as (hf & Hrest & Hinstf); auto.
      * now rewrite <- app_assoc.
      * intros s Hs. apply Hsome. apply elem_of_cons. now right.
      * exists hf. split.
        -- cbn [forEach]. bind_step ltac:(exact Hrun). exact Hrest.
        -- now rewrite <- app_assoc in Hinstf.
Qed.

Lemma mem_string_elem_of s l : mem_string s l = true <-> s ∈ l.
Proof.
  unfold mem_string. rewrite existsb_exists. split.
  - intros (x & Hx & He). apply String.eqb_eq in He. subst x.
    now apply list_elem_of_In.
  - intros Hs. exists s. split; [now apply list_elem_of_In|apply String.eqb_refl].
Qed.

Lemma elem_of_slots_add s p slots :
  s ∈ slots_add p slots <-> s ∈ slots \/ (s = p /\ p <> "__proto__").
Proof.
  unfold slots_add. destruct (String.eqb p "__proto__") eqn:Ep.
  - apply String.eqb_eq in Ep. split; [auto|]. intros [H|[_ H]]; [auto|contradiction].
  - apply String.eqb_neq in Ep. destruct (mem_string p slots) eqn:Em.
    + apply mem_string_elem_of in Em. split; [auto|].
      intros [H|[-> _]]; auto.
    + rewrite elem_of_app, list_elem_of_singleton. split.
      * intros [H|H]; auto.
      * intros [H|[H _]]; auto.
Qed.

Lemma NoDup_slots_add p slots : NoDup slots -> NoDup (slots_add p slots).
Proof.
  intros Hnd. unfold slots_add. destruct (String.eqb p "__proto__"); auto.
  destruct (mem_string p slots) eqn:Em; auto.
  apply NoDup_app. split; [exact Hnd|]. split; [|apply NoDup_singleton].
  intros x Hx Hp. apply list_elem_of_singleton in Hp. subst x.
  apply mem_string_elem_of in Hx. congruence.
Qed.

Lemma slots_fold (ms : members_t) :
  forall acc,
    let slots := fold_left (fun slots kv => slots_add (fst kv) slots) ms acc in
    (NoDup acc -> NoDup slots) /\
    forall s, s ∈ slots <->
              s ∈ acc \/ (s <> "__proto__" /\ is_Some (lookup_prop s ms)).
Proof.
  induction ms as [|[p d] ms IH]; intros acc; cbn [fold_left fst].
  - split; [auto|]. intros s. split; [auto|].
    intros [H|[_ [x Hx]]]; [auto|discriminate].
  - destruct (IH (slots_add p acc)) as [Hnd Hin]. split.
    + intros H. apply Hnd. now apply NoDup_slots_add.
    + intros s. rewrite Hin, elem_of_slots_add. cbn [lookup_prop].
      destruct (String.eqb s p) eqn:Es.
      * apply String.eqb_eq in Es. subst p. split.
        -- intros [[H|[_ H]]|[H _]]; eauto.
        -- intros [H|[H _]]; auto.
      * apply String.eqb_neq in Es. split.
        -- intros [[H|[H _]]|H]; auto. contradiction.
        -- intros [H|H]; auto.
Qed.

Lemma NoDup_getSlots_members ms : NoDup (getSlots_members (Some ms)).
Proof. apply (slots_fold ms []). apply NoDup_nil_2. Qed.

Lemma elem_of_getSlots_members ms s :
  s ∈ getSlots_members (Some ms) <->
  s <> "__proto__" /\ is_Some (lookup_prop s ms).
Proof.
  unfold getSlots_members. rewrite (proj2 (slots_fold ms []) s).
  split; [|auto]. intros [H|H]; [|exact H]. now apply not_elem_of_nil in H.
Qed.

Lemma lookup_prop_In {A} s (ms : list (string * A)) d :
  lookup_prop s ms = Some d -> In (s, d) ms.
Proof.
  induction ms as [|[q e] ms IH]; simpl; [discriminate|].
  destruct (String.eqb s q) eqn:E.
  - apply String.eqb_eq in E. subst q. intros [= ->]. now left.
  - auto.
Qed.

Lemma template_plain_inv h st :
  template_plain h st = true ->
  function_slot st "prototype" = false /\
  forall s sm, lookup_prop s (prototype st) = Some sm ->
               type_is sm "function" = true -> plain_tree h sm = true.
Proof.
  unfold template_plain. rewrite andb_true_iff, negb_true_iff.
  intros [Hp Hall]. split; [exact Hp|]. intros s sm Hlk Hfn.
  rewrite forallb_forall in Hall.
  specialize (Hall _ (lookup_prop_In _ _ _ Hlk)). cbn [snd] in Hall.
  now rewrite Hfn in Hall.
Qed.



Section Construction.
Context {N : Natives}.


End Construction.


(** ** The member loop of [generateMock] and [getSlots] *)

Lemma lookup_prop_app {A} s (a b : list (string * A)) :
  lookup_prop s (a ++ b)
  = match lookup_prop s a with Some d => Some d | None => lookup_prop s b end.
Proof.
  induction a as [|[q d] a IH]; simpl; auto. destruct (String.eqb s q); auto.
Qed.

Lemma bind_ext {S A B} (m : ST S A) (k1 k2 : A -> ST S B) s :
  (forall a s', k1 a s' = k2 a s') -> bind m k1 s = bind m k2 s.
Proof. intros H. unfold bind. destruct (m s) as [[a| |] s']; auto. Qed.

Lemma members_loop_slots generate mock (ms : members_t) :
  forall (pre : members_t) (seen : list string),
    (forall s, s ∈ seen <-> s <> "__proto__" /\ is_Some (lookup_prop s pre)) ->
    exists news,
      fold_left (fun slots kv => slots_add (fst kv) slots) ms seen = seen ++ news /\
      forall st h,
        members_loop generate mock ms seen st h
        = forEach_with news (generate_slot generate mock (pre ++ ms)) st h.
Proof.
  induction ms as [|[slot md] ms IH]; intros pre seen Hseen.
  - exists []. rewrite app_nil_r. split; reflexivity.
  - cbn [fold_left fst members_loop].
    assert (Happ : pre ++ (slot, md) :: ms = (pre ++ [(slot, md)]) ++ ms)
      by now rewrite <- app_assoc.
    assert (Hlk : forall s,
              is_Some (lookup_prop s (pre ++ [(slot, md)]))
              <-> is_Some (lookup_prop s pre) \/ s = slot).
    { intros s. rewrite lookup_prop_app. simpl.
      destruct (lookup_prop s pre) as [d|]; [split; eauto|].
      destruct (String.eqb s slot) eqn:E.
      - apply String.eqb_eq in E. split; eauto.
      - apply String.eqb_neq in E. split.
        + intros [x Hx]. discriminate.
        + intros [[x Hx]|Hs]; [discriminate|contradiction]. }
    destruct (String.eqb slot "__proto__") eqn:Ep.
    + assert (Hadd : slots_add slot seen = seen)
        by (unfold slots_add; now rewrite Ep).
      rewrite Hadd. apply String.eqb_eq in Ep. cbn [orb].
      destruct (IH (pre ++ [(slot, md)]) seen) as (news & Hfold & Hloop).
      { intros s. rewrite Hseen, Hlk. split.
        - intros [H1 H2]. auto.
        - intros [H1 [H2|H2]]; [auto|congruence]. }
      exists news. split; [exact Hfold|]. intros st h. rewrite Happ. apply Hloop.
    + apply String.eqb_neq in Ep. cbn [orb].
      destruct (mem_string slot seen) eqn:Em.
      * assert (Hadd : slots_add slot seen = seen)
          by (unfold slots_add; rewrite Em; now destruct (String.eqb slot _)).
        rewrite Hadd. apply mem_string_elem_of in Em.
        destruct (IH (pre ++ [(slot, md)]) seen) as (news & Hfold & Hloop).
        { intros s. rewrite Hseen, Hlk. split.
          - intros [H1 H2]. auto.
          - intros [H1 [H2|H2]]; [auto|]. subst s. now apply Hseen. }
        exists news. split; [exact Hfold|]. intros st h. rewrite Happ. apply Hloop.
      * assert (Hadd : slots_add slot seen = seen ++ [slot]).
        { unfold slots_add. rewrite Em.
          apply String.eqb_neq in Ep. now rewrite Ep. }
        rewrite Hadd.
        assert (Hnone : lookup_prop slot pre = None).
        { destruct (lookup_prop slot pre) as [d|] eqn:E; [|reflexivity].
          assert (slot ∈ seen) by (apply Hseen; split; eauto).
          apply mem_string_elem_of in H. congruence. }
        destruct (IH (pre ++ [(slot, md)]) (seen ++ [slot])) as (news & Hfold & Hloop).
        { intros s. rewrite elem_of_app, list_elem_of_singleton, Hseen, Hlk. split.
          - intros [[H1 H2]|H]; [auto|]. subst s. auto.
          - intros [H1 [H2|H2]]; auto. }
        exists (slot :: news). split; [now rewrite Hfold, <- app_assoc|].
        intros st h. cbn [forEach_with]. unfold generate_slot at 1.
        rewrite lookup_prop_app, Hnone. cbn [lookup_prop].
        rewrite String.eqb_refl. cbn [default].
        apply bind_ext. intros st' h'. rewrite Happ. apply Hloop.
Qed.

(** [members_loop] is [getSlots(metadata.members).forEach(slot => ...)]. *)
Lemma members_loop_getSlots generate mock (ms : members_t) st h :
  members_loop generate mock ms [] st h
  = forEach_with (getSlots_members (Some ms)) (generate_slot generate mock ms) st h.
Proof.
  destruct (members_loop_slots generate mock ms [] []) as (news & Hfold & Hloop).
  - intros s. split.
    + intros H. now apply not_elem_of_nil in H.
    + intros [_ [x Hx]]. discriminate.
  - unfold getSlots_members. rewrite Hfold. apply Hloop.
Qed.

(** ** Naming of mock functions *)

Lemma prefix_split p s :
  String.prefix p s = true ->
  s = p +:+ String.substring (String.length p) (String.length s - String.length p) s.
Proof.
  revert s. induction p as [|c p IH]; intros s H.
  - change (s = String.substring 0 (String.length s - 0) s).
    rewrite Nat.sub_0_r.
    clear H. induction s as [|d s IHs]; simpl; [reflexivity|]. now f_equal.
  - destruct s as [|d s]; [discriminate|]. simpl in H.
    destruct (Ascii.ascii_dec c d) as [->|]; [|discriminate].
    change (String d s = String d (p +:+ String.substring (String.length p)
                                     (String.length s - String.length p) s)).
    f_equal. now apply IH.
Qed.

Lemma length_append s t :
  String.length (s +:+ t) = String.length s + String.length t.
Proof.
  induction s as [|c s IH]; [reflexivity|].
  change (S (String.length (s +:+ t)) = S (String.length s) + String.length t).
  now rewrite IH.
Qed.

Lemma strip_bound_spec n :
  forall name b,
    String.length name <= n ->
    exists k,
      name = bound_prefixes k +:+ fst (strip_bound n name b) /\
      String.prefix boundFunctionPrefix (fst (strip_bound n name b)) = false /\
      snd (strip_bound n name b) = (b || negb (Nat.eqb k 0)).
Proof.
  induction n as [|n IH]; intros name b Hlen.
  - destruct name; [|simpl in Hlen; lia]. exists 0. simpl.
    now rewrite orb_false_r.
  - cbn [strip_bound].
    destruct (String.prefix boundFunctionPrefix name) eqn:Hp.
    + pose proof (prefix_split _ _ Hp) as Hsplit.
      set (rest := String.substring (String.length boundFunctionPrefix)
                     (String.length name - String.length boundFunctionPrefix) name)
        in *.
      assert (Hrest : String.length rest <= n).
      { apply (f_equal String.length) in Hsplit.
        rewrite length_append in Hsplit. simpl in Hsplit. lia. }
      destruct (IH rest true Hrest) as (k & Hk & Hpre & Hb).
      exists (S k). split; [|split; [exact Hpre|]].
      * cbn [bound_prefixes]. rewrite Hsplit at 1.
        rewrite Hk at 1. clear. unfold boundFunctionPrefix. reflexivity.
      * rewrite Hb. simpl. now rewrite orb_true_r.
    + exists 0. cbn [fst snd bound_prefixes]. split; [reflexivity|].
      split; [exact Hp|]. simpl. now rewrite orb_false_r.
Qed.

Lemma has_reserved_char_app s t :
  has_reserved_char (s +:+ t) = has_reserved_char s || has_reserved_char t.
Proof. induction s as [|c s IH]; simpl; auto. now rewrite IH, orb_assoc. Qed.

Lemma replace_reserved_chars_clean s :
  has_reserved_char (replace_reserved_chars s) = false.
Proof.
  induction s as [|c s IH]; simpl; auto. rewrite IH.
  destruct (is_space_or_hyphen c) eqn:E; [reflexivity|]. now rewrite E.
Qed.

Lemma replace_reserved_chars_id s :
  has_reserved_char s = false -> replace_reserved_chars s = s.
Proof.
  induction s as [|c s IH]; simpl; auto. intros H.
  apply orb_false_iff in H as [Hc Hs]. now rewrite Hc, IH.
Qed.

Lemma append_assoc (a b c : string) : (a +:+ b) +:+ c = a +:+ (b +:+ c).
Proof.
  induction a as [|x a IH]; [reflexivity|].
  change (String x ((a +:+ b) +:+ c) = String x (a +:+ (b +:+ c))).
  now rewrite IH.
Qed.

Lemma prefix_append (p s : string) : String.prefix p (p +:+ s) = true.
Proof.
  induction p as [|x p IH]; [now destruct s|].
  change (String.prefix (String x p) (String x (p +:+ s)) = true).
  simpl. destruct (Ascii.ascii_dec x x); [exact IH|contradiction].
Qed.

Lemma replace_reserved_chars_dollar s :
  has_reserved_char s = true ->
  contains_char "$" (replace_reserved_chars s) = true.
Proof.
  induction s as [|c s IH]; simpl; [discriminate|].
  destruct (is_space_or_hyphen c); simpl; [reflexivity|].
  intros H. rewrite (IH H). apply orb_true_r.
Qed.

Lemma keyword_no_dollar k :
  mem_string k RESERVED_KEYWORDS = true -> contains_char "$" k = false.
Proof.
  intros H. apply mem_string_elem_of in H.
  assert (Hall : Forall (fun k => contains_char "$" k = false) RESERVED_KEYWORDS)
    by (repeat constructor).
  rewrite Forall_forall in Hall. now apply Hall.
Qed.

Lemma replaced_not_keyword s :
  mem_string s RESERVED_KEYWORDS = false ->
  mem_string (replace_reserved_chars s) RESERVED_KEYWORDS = false.
Proof.
  intros Hs.
  destruct (mem_string (replace_reserved_chars s) RESERVED_KEYWORDS) eqn:Hk;
    [|reflexivity].
  pose proof (keyword_no_dollar _ Hk) as Hd.
  destruct (has_reserved_char s) eqn:Hr.
  - rewrite (replace_reserved_chars_dollar s Hr) in Hd. discriminate.
  - rewrite (replace_reserved_chars_id s Hr) in Hk. congruence.
Qed.

Lemma dollar_not_keyword s :
  mem_string (String "$" s) RESERVED_KEYWORDS = false.
Proof.
  destruct (mem_string (String "$" s) RESERVED_KEYWORDS) eqn:Hk; [|reflexivity].
  apply keyword_no_dollar in Hk. discriminate.
Qed.

(** X1: the loop that strips the prefix ["bound "] removes every leading
    copy of it: the name is some number of copies followed by what is
    left, what is left does not start with the prefix, and [bindCall] is
    set exactly when a copy was removed. *)
Theorem strip_bound_complete (name : string) :
  exists k,
    name = bound_prefixes k +:+ fst (strip_bound (String.length name) name false) /\
    String.prefix boundFunctionPrefix
      (fst (strip_bound (String.length name) name false)) = false /\
    snd (strip_bound (String.length name) name false) = negb (Nat.eqb k 0).
Proof.
  destruct (strip_bound_spec (String.length name) name false (le_n _))
    as (k & H1 & H2 & H3).
  exists k. auto.
Qed.

(** X2: whatever string names the function, the name handed to
    [new Function] has no white space and no hyphen and is not a reserved
    keyword; a stripped prefix ["bound "] comes back through [bind]. *)
Theorem createMockFunction_label (name : string) :
  exists base (bound : bool),
    createMockFunction (named_function (VStr name))
    = Ok (if bound then boundFunctionPrefix +:+ base else base) /\
    has_reserved_char base = false /\
    mem_string base RESERVED_KEYWORDS = false /\
    (bound = true -> String.prefix boundFunctionPrefix name = true).
Proof.
  unfold createMockFunction, named_function. cbn [md_name].
  destruct (negb (truthy (VStr name)) || String.eqb name MOCK_CONSTRUCTOR_NAME).
  { exists MOCK_CONSTRUCTOR_NAME, false. repeat split; try reflexivity.
    discriminate. }
  destruct (strip_bound_spec (String.length name) name false (le_n _))
    as (k & Hk & _ & Hb).
  destruct (strip_bound (String.length name) name false) as [name1 bound].
  cbn [fst snd] in Hk, Hb.
  exists (replace_reserved_chars
            (if mem_string name1 RESERVED_KEYWORDS then "$" +:+ name1 else name1)),
    bound.
  split; [reflexivity|]. split; [apply replace_reserved_chars_clean|]. split.
  - destruct (mem_string name1 RESERVED_KEYWORDS) eqn:Hkw.
    + change ("$" +:+ name1) with (String "$" name1).
      apply replaced_not_keyword, dollar_not_keyword.
    + now apply replaced_not_keyword.
  - intros ->. destruct k; [discriminate|].
    rewrite Hk. cbn [bound_prefixes]. rewrite append_assoc. apply prefix_append.
Qed.

Lemma makeComponent_function md h label :
  type_is md "function" = true ->
  createMockFunction md = Ok label ->
  label_compiles label = true ->
  makeComponent md h
  = (Ok (VRef (length h + 2)), h ++ mock_objects (length h) label md).
Proof.
  intros Hfn Hlabel Hcompiles. unfold makeComponent.
  pose proof Hfn as Ht. apply type_is_eq in Ht.
  rewrite (type_is_other md _ "object" Ht), (type_is_other md _ "array" Ht),
    (type_is_other md _ "regexp" Ht), (type_is_other md _ "constant" Ht),
    (type_is_other md _ "collection" Ht), (type_is_other md _ "null" Ht),
    (type_is_other md _ "undefined" Ht) by discriminate.
  rewrite Hfn. cbn [orb]. unfold bind, lift. now rewrite Hlabel, Hcompiles.
Qed.

Lemma mock_objects_function h X label md :
  (h ++ mock_objects (length h) label md ++ X) !! (length h + 2)
  = Some (mkObj "Function" false (Some FunctionPrototype)
      [ ("length", PData (VNum 0));
        ("name", PData (VStr label));
        ("prototype", PData (VRef (length h + 3)));
        ("_isMockFunction", PData (VBool true));
        ("getMockImplementation", PData (VRef (length h + 4)));
        ("mock", PData (VRef (length h + 5)));
        ("mockClear", PData (VRef (length h + 6)));
        ("mockReturnValueOnce", PData (VRef (length h + 7)));
        ("mockReturnValue", PData (VRef (length h + 8)));
        ("mockImplementationOnce", PData (VRef (length h + 9)));
        ("mockImpl", PData (VRef (length h + 10)));
        ("mockImplementation", PData (VRef (length h + 10)));
        ("mockReturnThis", PData (VRef (length h + 11))) ]
      (Some (MockConstructor (initial_state md)))).
Proof.
  rewrite lookup_app_r by lia.
  replace (length h + 2 - length h) with 2 by lia. reflexivity.
Qed.

Lemma identifier_part_clean c :
  is_identifier_part c = true -> is_space_or_hyphen c = false.
Proof.
  destruct c as [[] [] [] [] [] [] [] []]; intros H;
    solve [reflexivity | discriminate H].
Qed.

Lemma identifier_start_part c :
  is_identifier_start c = true -> is_identifier_part c = true.
Proof. unfold is_identifier_part. now intros ->. Qed.

Lemma all_chars_clean s :
  all_chars is_identifier_part s = true -> has_reserved_char s = false.
Proof.
  induction s as [|c s IH]; [reflexivity|]. cbn [all_chars has_reserved_char].
  intros H. apply andb_true_iff in H as [Hc Hs].
  now rewrite (identifier_part_clean c Hc), (IH Hs).
Qed.

Lemma function_name_parts name :
  is_function_name name = true -> all_chars is_identifier_part name = true.
Proof.
  destruct name as [|c name]; [reflexivity|]. cbn [is_function_name all_chars].
  intros H. apply andb_true_iff in H as [Hc Hs].
  now rewrite (identifier_start_part c Hc), Hs.
Qed.

Lemma clean_not_bound s :
  has_reserved_char s = false -> String.prefix boundFunctionPrefix s = false.
Proof.
  intros Hclean. destruct (String.prefix boundFunctionPrefix s) eqn:Hp; [|reflexivity].
  apply prefix_split in Hp. rewrite Hp, has_reserved_char_app in Hclean.
  discriminate.
Qed.

Lemma function_name_compiles name :
  is_function_name name = true -> label_compiles name = true.
Proof.
  intros H. unfold label_compiles.
  now rewrite (clean_not_bound name (all_chars_clean name (function_name_parts name H))).
Qed.

(** X3: a name made of ASCII letters, digits, [$] and [_] that does not
    start with a digit, other than [mockConstructor], is kept, with [$] in
    front when it is a reserved keyword; the mock function that
    [makeComponent] builds reports it as its [name]. *)
Theorem ordinary_name_kept (md : MockFunctionMetadata) (name : string) (h : heap) :
  md_name md = VStr name ->
  name <> "" -> name <> MOCK_CONSTRUCTOR_NAME ->
  is_function_name name = true ->
  let label := if mem_string name RESERVED_KEYWORDS then "$" +:+ name else name in
  createMockFunction md = Ok label /\
  (type_is md "function" = true ->
   exists hf,
     makeComponent md h = (Ok (VRef (length h + 2)), hf) /\
     get_loc hf (length h + 2) "name" = VStr label).
Proof.
  intros Hname Hne Hmc Hid label.
  pose proof (all_chars_clean name (function_name_parts name Hid)) as Hclean.
  assert (Hlabel : createMockFunction md = Ok label).
  { unfold createMockFunction. rewrite Hname.
    assert (Ht : truthy (VStr name) = true).
    { simpl. apply negb_true_iff. now apply String.eqb_neq. }
    rewrite Ht. apply String.eqb_neq in Hmc. rewrite Hmc. cbn [negb orb].
    pose proof (clean_not_bound name Hclean) as Hp.
    assert (Hstrip : strip_bound (String.length name) name false = (name, false)).
    { destruct name as [|c name']; [contradiction|].
      cbn [String.length strip_bound]. now rewrite Hp. }
    rewrite Hstrip. unfold label.
    destruct (mem_string name RESERVED_KEYWORDS).
    - change ("$" +:+ name) with (String "$" name).
      cbn [replace_reserved_chars]. rewrite (replace_reserved_chars_id name Hclean).
      reflexivity.
    - now rewrite (replace_reserved_chars_id name Hclean). }
  assert (Hcompiles : label_compiles label = true).
  { apply function_name_compiles. unfold label.
    destruct (mem_string name RESERVED_KEYWORDS); [|exact Hid].
    change ("$" +:+ name) with (String "$" name). cbn [is_function_name].
    now rewrite (function_name_parts name Hid). }
  split; [exact Hlabel|]. intros Hfn.
  exists (h ++ mock_objects (length h) label md).
  split; [now apply makeComponent_function|].
  apply (get_loc_own _ _ _ (PData (VStr label))). unfold own_prop.
  pose proof (mock_objects_function h [] label md) as Hf.
  rewrite app_nil_r in Hf. rewrite Hf. reflexivity.
Qed.

Lemma ordinary_name_kept_witness :
  createMockFunction (named_function (VStr "greet")) = Ok "greet" /\
  createMockFunction (named_function (VStr "delete")) = Ok "$delete" /\
  exists hf,
    makeComponent (named_function (VStr "greet")) realm = (Ok (VRef 10), hf) /\
    get_loc hf 10 "name" = VStr "greet".
Proof.
  split; [|split].
  - apply (ordinary_name_kept (named_function (VStr "greet")) "greet" realm eq_refl);
      [discriminate|discriminate|reflexivity].
  - apply (ordinary_name_kept (named_function (VStr "delete")) "delete" realm eq_refl);
      [discriminate|discriminate|reflexivity].
  - apply (ordinary_name_kept (named_function (VStr "greet")) "greet" realm eq_refl);
      [discriminate|discriminate|reflexivity|reflexivity].
Defined.

(** ** The type classifier and the member enumerator *)

(** X4: a type the classifier reports is one that [makeComponent]
    accepts: for metadata of that type it never raises
    [Unrecognized type]. *)
Theorem getType_known (h : heap) (v : value) :
  (forall t, getType h v = Some t -> known_type (Some t) = true) /\
  (forall md h' s,
     getType h v <> None -> md_type md = getType h v ->
     fst (makeComponent md h') <> Throw (Error s)).
Proof.
  assert (Hknown : forall t, getType h v = Some t -> known_type (Some t) = true).
  { intros t. unfold getType.
    repeat match goal with
           | |- (if ?b then _ else _) = _ -> _ => destruct b
           end; intros [= <-]; reflexivity. }
  split; [exact Hknown|].
  intros md h' s Hsome Hty.
  destruct (getType h v) as [t|] eqn:Ht; [|contradiction].
  specialize (Hknown t eq_refl). apply mem_string_elem_of in Hknown.
  unfold known_types in Hknown.
  assert (Hname : forall label, createMockFunction md <> Throw (Error label)).
  { intros label. unfold createMockFunction.
    destruct (md_name md) as [| |b|n|name|l]; cbn [truthy negb]; try discriminate.
    - destruct b; discriminate.
    - destruct (negb (Z.eqb n 0)); discriminate.
    - destruct (_ || _); [discriminate|].
      destruct (strip_bound _ _ _). discriminate. }
  repeat (apply elem_of_cons in Hknown; destruct Hknown as [ -> | Hknown]);
    [..|now apply not_elem_of_nil in Hknown];
    unfold makeComponent, type_is; rewrite Hty;
    cbn -[createMockFunction mock_objects label_compiles]; try discriminate.
  unfold bind, lift. specialize (Hname s).
  destruct (createMockFunction md) as [label|e|]; cbn [fst]; try congruence.
  destruct (label_compiles label); cbn [fst]; discriminate.
Qed.

Lemma own_slots_fold h l (ps : list (string * prop)) :
  forall slots,
    let slots' :=
      fold_left
        (fun slots (pd : string * prop) =>
           let (p, d) := pd in
           if negb (isReadonlyProp h (VRef l) p) then
             if negb (is_getter d) || truthy (get_loc h l "__esModule")
             then slots_add p slots
             else slots
           else slots) ps slots in
    (NoDup slots -> NoDup slots') /\
    (forall s, s ∈ slots' <->
       s ∈ slots \/
       (s <> "__proto__" /\ exists d, In (s, d) ps /\ listed h l s d)).
Proof.
  induction ps as [|[p d] ps IH]; intros slots; cbn [fold_left].
  - split; [auto|]. intros s. split; [auto|].
    intros [H|(_ & d & [] & _)]. exact H.
  - set (slots1 := if negb (isReadonlyProp h (VRef l) p) then _ else _).
    destruct (IH slots1) as [Hnd Hin].
    assert (H1 : forall s, s ∈ slots1 <->
              s ∈ slots \/ (s <> "__proto__" /\ s = p /\ listed h l p d)).
    { intros s. unfold slots1, listed.
      destruct (isReadonlyProp h (VRef l) p); cbn [negb].
      - split; [auto|]. intros [H|(_ & _ & H & _)]; [exact H|discriminate].
      - destruct (is_getter d); cbn [negb orb].
        + destruct (truthy (get_loc h l "__esModule")).
          * rewrite elem_of_slots_add. split.
            -- intros [H|[-> H]]; auto 10.
            -- intros [H|(H & -> & _)]; auto.
          * split; [auto|].
            intros [H|(_ & _ & _ & [H|H])]; [exact H|discriminate|discriminate].
        + rewrite elem_of_slots_add. split.
          * intros [H|[-> H]]; auto 10.
          * intros [H|(H & -> & _)]; auto. }
    split.
    + intros H. apply Hnd. unfold slots1.
      destruct (negb _); [|exact H].
      destruct (_ || _); [now apply NoDup_slots_add|exact H].
    + intros s. rewrite Hin, H1. split.
      * intros [[H|(Hp & -> & Hl)]|(Hp & d' & Hd & Hl)]; [auto| |].
        -- right. split; [exact Hp|]. exists d. split; [now left|exact Hl].
        -- right. split; [exact Hp|]. exists d'. split; [now right|exact Hl].
      * intros [H|(Hp & d' & [Hd|Hd] & Hl)]; [auto| |].
        -- injection Hd as <- <-. auto.
        -- right. eauto.
Qed.

Lemma own_slots_spec h l o slots :
  (NoDup slots -> NoDup (own_slots h l o slots)) /\
  (forall s, s ∈ own_slots h l o slots <->
     s ∈ slots \/
     (s <> "__proto__" /\ exists d, In (s, d) (o_props o) /\ listed h l s d)).
Proof. apply own_slots_fold. Qed.

Lemma getSlots_loop_walked n h :
  forall object parent slots,
    getSlots_loop n h object parent slots
    = fold_left
        (fun slots l => match h !! l with
                        | Some o => own_slots h l o slots
                        | None => slots
                        end)
        (walked n h object parent) slots.
Proof.
  induction n as [|n IH]; intros object parent slots; cbn [getSlots_loop walked];
    destruct (Nat.eqb object FunctionPrototype); try reflexivity;
    cbn [fold_left]; destruct parent as [object'|]; try reflexivity;
    destruct (getPrototypeOf h object') as [parent'|]; try reflexivity.
  apply IH.
Qed.

Lemma walked_chain n h :
  forall object l',
    l' ∈ walked n h object (getPrototypeOf h object) ->
    on_chain h object l' /\ l' <> FunctionPrototype /\
    (l' = object \/ getPrototypeOf h l' <> None).
Proof.
  induction n as [|n IH]; intros object l'; cbn [walked];
    destruct (Nat.eqb object FunctionPrototype) eqn:Efp;
    try (intros H; now apply not_elem_of_nil in H);
    apply Nat.eqb_neq in Efp;
    destruct (getPrototypeOf h object) as [object'|] eqn:Hp;
    try destruct (getPrototypeOf h object') as [parent'|] eqn:Hpp;
    intros H; apply elem_of_cons in H;
    try (destruct H as [->|H]; [|now apply not_elem_of_nil in H];
         split; [constructor|split; [exact Efp|now left]]).
  destruct H as [->|H]; [split; [constructor|split; [exact Efp|now left]]|].
  rewrite <- Hpp in H. destruct (IH object' l' H) as (Hc & Hne & Hor).
  split; [econstructor 2; eauto|]. split; [exact Hne|].
  right. destruct Hor as [->|Hor]; [congruence|exact Hor].
Qed.

Lemma walked_fold h (ls : list loc) :
  forall slots,
    let slots' :=
      fold_left
        (fun slots l => match h !! l with
                        | Some o => own_slots h l o slots
                        | None => slots
                        end) ls slots in
    (NoDup slots -> NoDup slots') /\
    (forall s, s ∈ slots' <->
       s ∈ slots \/
       (s <> "__proto__" /\
        exists l o d, l ∈ ls /\ h !! l = Some o /\ In (s, d) (o_props o) /\
                      listed h l s d)).
Proof.
  induction ls as [|l ls IH]; intros slots; cbn [fold_left].
  - split; [auto|]. intros s. split; [auto|].
    intros [H|(_ & l & o & d & H & _)]; [exact H|].
    now apply not_elem_of_nil in H.
  - set (slots1 := match h !! l with Some o => _ | None => _ end).
    destruct (IH slots1) as [Hnd Hin].
    assert (H1 : (NoDup slots -> NoDup slots1) /\
              forall s, s ∈ slots1 <->
                s ∈ slots \/
                (s <> "__proto__" /\
                 exists o d, h !! l = Some o /\ In (s, d) (o_props o) /\
                             listed h l s d)).
    { unfold slots1. destruct (h !! l) as [o|] eqn:Ho.
      - destruct (own_slots_spec h l o slots) as [Hn Hi]. split; [exact Hn|].
        intros s. rewrite Hi. split.
        + intros [H|(Hp & d & Hd & Hl)]; [auto|]. right. eauto 10.
        + intros [H|(Hp & o' & d & [= <-] & Hd & Hl)]; [auto|]. right. eauto.
      - split; [auto|]. intros s. split; [auto|].
        intros [H|(_ & o & d & H & _)]; [exact H|discriminate]. }
    destruct H1 as [Hn1 Hi1]. split; [auto|].
    intros s. rewrite Hin, Hi1. split.
    + intros [[H|(Hp & o & d & Ho & Hd & Hl)]|(Hp & l' & o & d & Hl' & Ho & Hd & Hl)];
        [auto| |].
      * right. split; [exact Hp|]. exists l, o, d.
        split; [apply elem_of_cons; now left|auto].
      * right. split; [exact Hp|]. exists l', o, d.
        split; [apply elem_of_cons; now right|auto].
    + intros [H|(Hp & l' & o & d & Hl' & Ho & Hd & Hl)]; [auto|].
      apply elem_of_cons in Hl'. destruct Hl' as [->|Hl'].
      * left. right. eauto 10.
      * right. eauto 10.
Qed.

Lemma getSlots_loop_spec n h object parent :
  NoDup (getSlots_loop n h object parent []) /\
  forall s, s ∈ getSlots_loop n h object parent [] <->
    s <> "__proto__" /\
    exists l o d, l ∈ walked n h object parent /\ h !! l = Some o /\
                  In (s, d) (o_props o) /\ listed h l s d.
Proof.
  rewrite getSlots_loop_walked.
  destruct (walked_fold h (walked n h object parent) []) as [Hnd Hin].
  split; [apply Hnd, NoDup_nil_2|].
  intros s. rewrite Hin. split; [|auto].
  intros [H|H]; [now apply not_elem_of_nil in H|exact H].
Qed.

(** X5: [getSlots] lists no name twice and never lists [__proto__], for
    any value; for a falsy value the list is empty. *)
Theorem getSlots_distinct (h : heap) (v : value) :
  NoDup (getSlots h v) /\ ("__proto__" ∉ getSlots h v) /\
  (truthy v = false -> getSlots h v = []).
Proof.
  assert (H : forall n object parent,
            NoDup (getSlots_loop n h object parent []) /\
            ("__proto__" ∉ getSlots_loop n h object parent [])).
  { intros n object parent.
    destruct (getSlots_loop_spec n h object parent) as [Hnd Hin].
    split; [exact Hnd|]. intros Hp. apply Hin in Hp. now destruct Hp. }
  assert (Hnil : NoDup (@nil string) /\ ("__proto__" ∉ @nil string)).
  { split; [apply NoDup_nil_2|apply not_elem_of_nil]. }
  split; [|split].
  - unfold getSlots. destruct (negb (truthy v)); [apply Hnil|].
    destruct v; try apply Hnil; try apply H;
      destruct (getPrototypeOf h _); try apply Hnil; apply H.
  - unfold getSlots. destruct (negb (truthy v)); [apply Hnil|].
    destruct v; try apply Hnil; try apply H;
      destruct (getPrototypeOf h _); try apply Hnil; apply H.
  - intros Hv. unfold getSlots. now rewrite Hv.
Qed.

(** X6: every name that [getSlots] lists for an object is an own
    property of the object or of one of its prototypes, is not one of the
    read-only names of that holder, and has a descriptor without a getter
    unless the holder has a truthy [__esModule].  The holder is never
    [Function.prototype], and a prototype without a prototype of its own
    (the end of the chain, [Object.prototype]) is never read. *)
Theorem getSlots_sound (h : heap) (l : loc) (slot : string) :
  slot ∈ getSlots h (VRef l) ->
  exists l' o d,
    on_chain h l l' /\ l' <> FunctionPrototype /\
    (l' = l \/ getPrototypeOf h l' <> None) /\
    h !! l' = Some o /\ In (slot, d) (o_props o) /\
    isReadonlyProp h (VRef l') slot = false /\
    (is_getter d = false \/ truthy (get_loc h l' "__esModule") = true).
Proof.
  unfold getSlots. cbn [truthy negb]. intros H.
  apply getSlots_loop_spec in H. destruct H as (_ & l' & o & d & Hw & Ho & Hd & Hl).
  destruct (walked_chain _ _ _ _ Hw) as (Hc & Hne & Hor).
  destruct Hl as [Hro Hdata]. exists l', o, d. auto 10.
Qed.

Lemma getSlots_sound_witness :
  "self" ∈ getSlots cyclic_heap (VRef 8) /\
  exists l' o d,
    on_chain cyclic_heap 8 l' /\ l' <> FunctionPrototype /\
    (l' = 8 \/ getPrototypeOf cyclic_heap l' <> None) /\
    cyclic_heap !! l' = Some o /\ In ("self", d) (o_props o) /\
    isReadonlyProp cyclic_heap (VRef l') "self" = false /\
    (is_getter d = false \/ truthy (get_loc cyclic_heap l' "__esModule") = true).
Proof.
  assert (H : "self" ∈ getSlots cyclic_heap (VRef 8)).
  { vm_compute. apply elem_of_cons. now left. }
  split; [exact H|]. exact (getSlots_sound cyclic_heap 8 "self" H).
Defined.

(** X7: every own property of an object other than [Function.prototype]
    is listed, unless its name is [__proto__] or read-only for the object,
    or it is an accessor of an object without a truthy [__esModule]. *)
Theorem getSlots_own_complete (h : heap) (l : loc) (o : obj) (slot : string)
    (d : prop) :
  h !! l = Some o -> l <> FunctionPrototype ->
  In (slot, d) (o_props o) -> slot <> "__proto__" ->
  isReadonlyProp h (VRef l) slot = false ->
  (is_getter d = false \/ truthy (get_loc h l "__esModule") = true) ->
  slot ∈ getSlots h (VRef l).
Proof.
  intros Ho Hne Hd Hp Hro Hdata. unfold getSlots. cbn [truthy negb].
  apply getSlots_loop_spec. split; [exact Hp|].
  exists l, o, d. split; [|split; [exact Ho|split; [exact Hd|split; assumption]]].
  apply Nat.eqb_neq in Hne.
  destruct (length h); cbn [walked]; rewrite Hne; apply elem_of_cons; now left.
Qed.

Lemma getSlots_own_complete_witness :
  "n" ∈ getSlots cyclic_heap (VRef 8).
Proof.
  apply (getSlots_own_complete cyclic_heap 8
           (plain_object [("self", PData (VRef 8)); ("n", PData (VNum 5));
                          ("d", PData (VRef 9))])
           "n" (PData (VNum 5))).
  - reflexivity.
  - discriminate.
  - simpl. auto.
  - discriminate.
  - reflexivity.
  - left. reflexivity.
Defined.

(** ** Components *)

Lemma makeComponent_cases md h :
  (md_type md = Some "object" /\
   makeComponent md h = (Ok (VRef (length h)), h ++ [plain_object []])) \/
  (md_type md = Some "array" /\
   makeComponent md h = (Ok (VRef (length h)), h ++ [empty_array])) \/
  (md_type md = Some "regexp" /\
   makeComponent md h = (Ok (VRef (length h)), h ++ [empty_regexp])) \/
  (is_shell md = false /\ makeComponent md h = (Ok (md_value md), h)) \/
  (md_type md = Some "function" /\
   exists label,
     createMockFunction md = Ok label /\
     makeComponent md h
     = (Ok (VRef (length h + 2)), h ++ mock_objects (length h) label md)) \/
  (exists e, makeComponent md h = (Throw e, h)).
Proof.
  unfold makeComponent, is_shell, type_is.
  destruct (md_type md) as [t|].
  2: { right. right. right. right. right. eexists. reflexivity. }
  destruct (String.eqb t "object") eqn:E1.
  { apply String.eqb_eq in E1. subst t. left. auto. }
  destruct (String.eqb t "array") eqn:E2.
  { apply String.eqb_eq in E2. subst t. right. left. auto. }
  destruct (String.eqb t "regexp") eqn:E3.
  { apply String.eqb_eq in E3. subst t. right. right. left. auto. }
  destruct (String.eqb t "function") eqn:E4.
  { apply String.eqb_eq in E4. subst t. cbn -[createMockFunction mock_objects].
    unfold bind, lift.
    destruct (createMockFunction md) as [label|e|] eqn:Hl.
    - destruct (label_compiles label).
      + right. right. right. right. left. split; [reflexivity|]. eauto.
      + right. right. right. right. right. eexists. reflexivity.
    - right. right. right. right. right. eauto.
    - exfalso. revert Hl. unfold createMockFunction.
      destruct (md_name md) as [| |b|n|name|l]; cbn [truthy negb]; try discriminate.
      + destruct b; discriminate.
      + destruct (negb (Z.eqb n 0)); discriminate.
      + destruct (_ || _); [discriminate|].
        destruct (strip_bound _ _ _). discriminate. }
  cbn [orb].
  destruct (_ || _).
  - right. right. right. left. auto.
  - right. right. right. right. right. eexists. reflexivity.
Qed.

(** X8: [makeComponent] only allocates: the heap it leaves is the old
    one followed by the new objects, none when it raises; what it returns
    for the types object, array, regexp and function is one of the new
    objects, and for the other types it is [metadata.value] itself, with
    nothing allocated. *)
Theorem makeComponent_allocates (md : MockFunctionMetadata) (h : heap) :
  exists added,
    snd (makeComponent md h) = h ++ added /\
    (forall e, fst (makeComponent md h) = Throw e -> added = []) /\
    (forall v, fst (makeComponent md h) = Ok v ->
       if is_shell md
       then exists l, v = VRef l /\ length h <= l < length h + length added
       else v = md_value md /\ added = []).
Proof.
  destruct (makeComponent_cases md h)
    as [[Ht ->]|[[Ht ->]|[[Ht ->]|[[Hs ->]|[[Ht (label & _ & ->)]|[e ->]]]]]];
    cbn [fst snd].
  1-3: eexists; split; [reflexivity|]; split; [discriminate|];
       intros v [= <-]; unfold is_shell, type_is; rewrite Ht; cbn;
       exists (length h); split; [reflexivity|lia].
  - exists []. rewrite app_nil_r. split; [reflexivity|]. split; [auto|].
    intros v [= <-]. now rewrite Hs.
  - eexists. split; [reflexivity|]. split; [discriminate|].
    intros v [= <-]. unfold is_shell, type_is. rewrite Ht. cbn.
    exists (length h + 2). split; [reflexivity|lia].
  - exists []. rewrite app_nil_r. split; [reflexivity|]. split; [auto|discriminate].
Qed.

(** X9: the component made for the type object, array, regexp or
    function is classified by [getType] as that type; the one made for a
    function is a mock function for [isMockFunction], in its initial
    state. *)
Theorem component_has_type (md : MockFunctionMetadata) (h : heap) (v : value)
    (hf : heap) :
  makeComponent md h = (Ok v, hf) ->
  is_shell md = true ->
  getType hf v = md_type md /\
  (type_is md "function" = true ->
   isMockFunction v hf = (Ok true, hf) /\
   exists f, v = VRef f /\ mock_state hf f = Some (initial_state md)).
Proof.
  intros Hmk Hshell.
  destruct (makeComponent_cases md h)
    as [[Ht H]|[[Ht H]|[[Ht H]|[[Hs H]|[[Ht (label & _ & H)]|[e H]]]]]];
    rewrite H in Hmk; try congruence; injection Hmk as <- <-.
  1-3: split; [|unfold type_is; rewrite Ht; cbn; discriminate];
       unfold getType, isA, isArray, toStringTag;
       rewrite list_lookup_middle by reflexivity; rewrite Ht; reflexivity.
  pose proof (mock_objects_function h [] label md) as Hf.
  rewrite app_nil_r in Hf. split.
  - unfold getType, isA, toStringTag. rewrite Hf, Ht. reflexivity.
  - intros _. split.
    + unfold isMockFunction, bind, get. cbn [get_pure].
      rewrite (get_loc_own _ _ _ (PData (VBool true)));
        [reflexivity|unfold own_prop; rewrite Hf; reflexivity].
    + exists (length h + 2). split; [reflexivity|].
      unfold mock_state. rewrite Hf. reflexivity.
Qed.

Lemma component_has_type_witness :
  exists hf,
    makeComponent function_metadata realm = (Ok (VRef 10), hf) /\
    getType hf (VRef 10) = Some "function" /\
    isMockFunction (VRef 10) hf = (Ok true, hf).
Proof.
  exists (snd (makeComponent function_metadata realm)).
  split; [reflexivity|].
  destruct (component_has_type function_metadata realm (VRef 10)
              (snd (makeComponent function_metadata realm)) eq_refl eq_refl)
    as [Ht Hm].
  split; [exact Ht|]. exact (proj1 (Hm eq_refl)).
Defined.

(** ** Configuration methods *)

Lemma closure_not_mock h f st c o m f' :
  mock_state h f = Some st -> h !! c = Some o ->
  o_code o = Some (MockMethod m f') -> c <> f.
Proof.
  intros Hst Ho Hc ->. destruct (mock_state_lookup _ _ _ Hst) as (o' & Ho' & Hc').
  congruence.
Qed.

Section Configuration.
Context {N : Natives}.

(** X10: each of [mockReturnValueOnce], [mockReturnValue],
    [mockImplementationOnce] and [mockImplementation], called through the
    closure stored on the mock, with any receiver, returns the mock itself,
    so that calls can be chained; it takes its first argument, [undefined]
    when there is none.  [mockReturnValueOnce] sets the flag and appends
    the argument to the queue of return values, [mockReturnValue] sets the
    flag and stores the argument as the persistent return value,
    [mockImplementationOnce] clears the flag and appends to the queue of
    implementations, [mockImplementation] clears the flag and stores the
    persistent implementation; every other closure variable, the ledgers
    among them, and every property of every object are left alone. *)
Theorem configuration_chains (fuel : nat) (h : heap) (f : loc) (st : MockState)
    (c : loc) (o : obj) (m : method) (this : value) (args : list value) :
  mock_state h f = Some st ->
  h !! c = Some o -> o_code o = Some (MockMethod m f) ->
  is_setter m = true ->
  let v := match args with [] => VUndef | v :: _ => v end in
  let st' :=
    mkMockState
      (match m with
       | MockReturnValueOnce | MockReturnValue => true
       | _ => false
       end)
      (match m with MockReturnValue => v | _ => defaultReturnValue st end)
      (match m with MockImplementation => v | _ => mockImpl st end)
      (match m with
       | MockReturnValueOnce => specificReturnValues st ++ [v]
       | _ => specificReturnValues st
       end)
      (match m with
       | MockImplementationOnce => specificMockImpls st ++ [v]
       | _ => specificMockImpls st
       end)
      (calls st) (instances st) (prototype st) (prototypeSlots st) in
  call (S fuel) (VRef c) this args h = (Ok (VRef f), with_state f st' h) /\
  mock_state (with_state f st' h) f = Some st' /\
  st' = configured m v st /\
  same_shape h (with_state f st' h).
Proof.
  intros Hst Ho Hc Hm v st'.
  split; [|split; [|split]].
  - cbn [call]. rewrite Ho, Hc. unfold st'.
    destruct m; try discriminate; cbn [run_method].
    + now rewrite (mockReturnValueOnce_eq h f st _ Hst).
    + now rewrite (mockReturnValue_eq h f st _ Hst).
    + now rewrite (mockImplementationOnce_eq h f st _ Hst).
    + now rewrite (mockImplementation_eq h f st _ Hst).
  - eapply mock_state_with_state; eauto.
  - unfold st'. destruct m; try discriminate; reflexivity.
  - apply same_shape_with_state.
Qed.

(** X11: [getMockImplementation], through its closure, returns the
    persistent implementation and changes nothing: after
    [mockImplementation(fn)] it returns [fn]; [mockImplementationOnce],
    [mockReturnValue], [mockReturnValueOnce] and [mockClear] do not change
    what it returns. *)
Theorem getMockImplementation_round_trip (fuel : nat) (h : heap) (f : loc)
    (st : MockState) (g : loc) (og : obj) (this : value) (args : list value) :
  mock_state h f = Some st ->
  h !! g = Some og -> o_code og = Some (MockMethod GetMockImplementation f) ->
  call (S fuel) (VRef g) this args h = (Ok (mockImpl st), h) /\
  (forall fn,
     let h1 := snd (mockImplementation f fn h) in
     call (S fuel) (VRef g) this args h1 = (Ok fn, h1)) /\
  (forall v h1,
     h1 = snd (mockImplementationOnce f v h) \/
     h1 = snd (mockReturnValue f v h) \/
     h1 = snd (mockReturnValueOnce f v h) \/
     h1 = snd (mockClear f h) ->
     call (S fuel) (VRef g) this args h1 = (Ok (mockImpl st), h1)).
Proof.
  intros Hst Hg Hc.
  pose proof (closure_not_mock h f st g og _ f Hst Hg Hc) as Hne.
  assert (Hget : forall st1,
            call (S fuel) (VRef g) this args (with_state f st1 h)
            = (Ok (mockImpl st1), with_state f st1 h)).
  { intros st1. cbn [call].
    rewrite (lookup_with_state_ne h f st1 g Hne), Hg, Hc. cbn [run_method].
    unfold getMockImplementation.
    erewrite bind_ok
      by (apply read_state_eq; eapply mock_state_with_state; eauto).
    reflexivity. }
  split; [|split].
  - cbn [call]. rewrite Hg, Hc. cbn [run_method]. unfold getMockImplementation.
    erewrite bind_ok by (apply read_state_eq; eauto). reflexivity.
  - intros fn h1. unfold h1. rewrite (mockImplementation_eq h f st fn Hst).
    cbn [snd]. apply Hget.
  - intros v h1 [ -> | [ -> | [ -> | -> ] ] ].
    + rewrite (mockImplementationOnce_eq h f st v Hst). cbn [snd]. now rewrite Hget.
    + rewrite (mockReturnValue_eq h f st v Hst). cbn [snd]. now rewrite Hget.
    + rewrite (mockReturnValueOnce_eq h f st v Hst). cbn [snd]. now rewrite Hget.
    + rewrite (mockClear_eq h f st Hst). cbn [snd]. now rewrite Hget.
Qed.

End Configuration.

Lemma configuration_chains_witness :
  @call example_natives 1 (VRef 16) VUndef [VNum 7] mock_heap
  = (Ok (VRef 10),
     with_state 10 (mkMockState true (VNum 7) VUndef [] [] [] [] [] [])
       mock_heap) /\
  @call example_natives 1 (VRef 17) VUndef [VRef 20; VNum 1]
    (snd (mockImplementationOnce 10 (VRef 21) mock_heap))
  = (Ok (VRef 10),
     with_state 10
       (mkMockState false VUndef VUndef [] [VRef 21; VRef 20] [] [] [] [])
       mock_heap).
Proof.
  split.
  - exact (proj1 (@configuration_chains example_natives 0 mock_heap 10
                    (initial_state function_metadata) 16
                    (closure MockReturnValue 10 1) MockReturnValue VUndef [VNum 7]
                    eq_refl eq_refl eq_refl eq_refl)).
  - exact (proj1 (@configuration_chains example_natives 0
                    (snd (mockImplementationOnce 10 (VRef 21) mock_heap)) 10
                    (mkMockState false VUndef VUndef [] [VRef 21] [] [] [] []) 17
                    (closure MockImplementationOnce 10 1) MockImplementationOnce
                    VUndef [VRef 20; VNum 1]
                    eq_refl eq_refl eq_refl eq_refl)).
Defined.

Lemma getMockImplementation_round_trip_witness :
  let h1 := snd (mockImplementation 10 (VRef 20) mock_heap) in
  @call example_natives 1 (VRef 12) VUndef [] h1 = (Ok (VRef 20), h1).
Proof.
  exact (proj1 (proj2 (@getMockImplementation_round_trip example_natives 0
                         mock_heap 10 (initial_state function_metadata) 12
                         (closure GetMockImplementation 10 0) VUndef []
                         eq_refl eq_refl eq_refl)) (VRef 20)).
Defined.

(** ** Heaps that grow by allocation *)

Lemma agrees_on_app p h X : agrees_on p h (h ++ X).
Proof.
  intros l o Ho. exists o. split; [now apply lookup_app_l_Some|auto].
Qed.

Lemma settled_lookup n h l :
  settled n h l = true -> exists o, h !! l = Some o.
Proof. destruct n; simpl; destruct (h !! l); eauto; discriminate. Qed.

Lemma getPrototypeOf_agree p h h' l o :
  agrees_on p h h' -> h !! l = Some o -> getPrototypeOf h' l = o_proto o.
Proof.
  intros Hag Ho. destruct (Hag l o Ho) as (o' & Ho' & Hp & _).
  unfold getPrototypeOf. now rewrite Ho'.
Qed.

Lemma chain_has_agree p n h h' target :
  agrees_on p h h' ->
  forall l n',
    settled n h l = true -> n <= n' ->
    chain_has n' h' (getPrototypeOf h' l) target
    = chain_has n h (getPrototypeOf h l) target.
Proof.
  intros Hag. induction n as [|n IH]; intros l n' Hs Hle;
    destruct (settled_lookup _ _ _ Hs) as [o Ho];
    rewrite (getPrototypeOf_agree p h h' l o Hag Ho);
    unfold getPrototypeOf at 1; rewrite Ho;
    simpl in Hs; rewrite Ho in Hs;
    destruct (o_proto o) as [l'|]; try discriminate;
    try (destruct n'; reflexivity).
  destruct n' as [|n']; [lia|]. cbn [chain_has].
  destruct (Nat.eqb l' target); [reflexivity|].
  apply IH; [exact Hs|lia].
Qed.

(** The prototypes of an object whose chain ends within the heap are
    objects of the heap. *)
Lemma chain_has_below n h :
  forall l target,
    settled n h l = true -> length h <= target ->
    chain_has n h (getPrototypeOf h l) target = false.
Proof.
  induction n as [|n IH]; intros l target Hs Hge;
    destruct (settled_lookup _ _ _ Hs) as [o Ho];
    unfold getPrototypeOf; rewrite Ho;
    simpl in Hs; rewrite Ho in Hs;
    destruct (o_proto o) as [l'|] eqn:Hp; try discriminate; try reflexivity.
  cbn [chain_has].
  destruct (settled_lookup _ _ _ Hs) as [o' Ho'].
  apply lookup_lt_Some in Ho'.
  destruct (Nat.eqb l' target) eqn:E; [apply Nat.eqb_eq in E; lia|].
  now apply IH.
Qed.

Lemma instanceof_agree h h' this f :
  (forall p, agrees_on p h h') ->
  settled (length h) h f = true ->
  (forall t, this = VRef t -> settled (length h) h t = true) ->
  fst (instanceof this f h') = fst (instanceof this f h).
Proof.
  intros Hag Hf Ht. unfold instanceof. destruct this as [| | | | |t]; try reflexivity.
  rewrite (get_loc_agree "prototype" h h' f (Hag _) Hf).
  destruct (get_loc h f "prototype"); try reflexivity. cbn [fst]. f_equal.
  apply (chain_has_agree "prototype"); auto.
  apply (agrees_on_length "prototype"); auto.
Qed.

Section ReturnThis.
Context {N : Natives}.

(** X12: [mockReturnThis], through its closure, installs
    [function() { return this; }] as the persistent implementation by way
    of [f.mockImplementation], clears the flag, changes no other closure
    variable, and returns the mock; with no one-shot implementation
    pending, the next plain call returns its receiver, for a receiver that
    [mockConstructor] gets to see: any receiver of a mock created without
    a name, an object as receiver of a named mock that is not bound. *)
Theorem mockReturnThis_returns_receiver (fuel : nat) (h : heap) (f : loc)
    (st : MockState) (c g : loc) (oc og : obj) (this : value)
    (args : list value) :
  mock_state h f = Some st ->
  get_loc h f "mockImplementation" = VRef c ->
  h !! c = Some oc -> o_code oc = Some (MockMethod MockImplementation f) ->
  h !! g = Some og -> o_code og = Some (MockMethod MockReturnThis f) ->
  specificMockImpls st = [] ->
  settled (length h) h f = true ->
  (forall t, this = VRef t -> settled (length h) h t = true) ->
  fst (instanceof this f h) = Ok false ->
  receives_receiver h f this ->
  exists h1,
    (forall receiver args',
       call (S (S fuel)) (VRef g) receiver args' h = (Ok (VRef f), h1)) /\
    mock_state h1 f
    = Some (mkMockState false (defaultReturnValue st) (VRef (length h))
              (specificReturnValues st) (specificMockImpls st)
              (calls st) (instances st) (prototype st) (prototypeSlots st)) /\
    fst (call (S (S fuel)) (VRef f) this args h1) = Ok this.
Proof.
  intros Hst Hsetter Hc Hcc Hg Hgc Hq Hsf Hst_this Hplain _.
  set (fn := length h).
  set (h' := h ++ [ mkObj "Function" false (Some FunctionPrototype)
                      [("length", PData (VNum 0)); ("name", PData (VStr ""));
                       ("prototype", PData (VRef (length h + 1)))]
                      (Some ReturnThis);
                    plain_object [("constructor", PData (VRef (length h)))] ]).
  set (st1 := set_mockImpl (VRef fn) (set_flag false st)).
  assert (Hst' : mock_state h' f = Some st).
  { destruct (mock_state_lookup _ _ _ Hst) as (o & Ho & Hco).
    unfold mock_state, h'. now rewrite (lookup_app_l_Some _ _ _ _ Ho), Hco. }
  assert (Hf : f < length h).
  { destruct (mock_state_lookup _ _ _ Hst) as (o & Ho & _).
    eapply lookup_lt_Some; eauto. }
  exists (with_state f st1 h'). split; [|split].
  - intros receiver args'. cbn [call]. rewrite Hg, Hgc. cbn [run_method].
    unfold mockReturnThis. unfold bind at 1, get at 1. cbn [get_pure].
    rewrite Hsetter. unfold bind at 1, alloc_return_this at 1. fold h'.
    cbn [call]. unfold h' at 1. rewrite (lookup_app_l_Some _ _ _ _ Hc), Hcc.
    cbn [run_method arg0]. fold h'.
    apply (mockImplementation_eq h' f st (VRef fn) Hst').
  - eapply mock_state_with_state; eauto.
  - pose proof (mock_state_with_state h' f st st1 Hst') as Hst1.
    assert (Hplain1 : fst (instanceof this f (with_state f st1 h')) = Ok false).
    { rewrite <- (instanceof_shape this f h' _ (same_shape_with_state h' f st1)).
      unfold h'. rewrite (instanceof_agree h _ this f); auto.
      intros p. apply agrees_on_app. }
    rewrite (call_mock (S fuel) _ f st1 this args Hst1).
    rewrite (plain_call_eq (call (S fuel)) _ f st1 this args Hst1 Hplain1).
    assert (Hrv : resolved_return_value st1 = VUndef) by reflexivity.
    assert (Hri : resolved_implementation st1 = VRef fn).
    { unfold resolved_implementation, st1. cbn. now rewrite Hq. }
    rewrite Hrv, Hri. cbn [strict_equals truthy]. cbv zeta.
    cbn [call].
    rewrite (with_state_twice h' f st _ _ Hst').
    rewrite (lookup_with_state_ne h' f _ fn) by (unfold fn; lia).
    unfold h', fn. rewrite list_lookup_middle by reflexivity. reflexivity.
Qed.

End ReturnThis.

Lemma mockReturnThis_returns_receiver_witness :
  exists h1,
    @call example_natives 2 (VRef 19) VUndef [] mock_heap = (Ok (VRef 10), h1) /\
    fst (@call example_natives 2 (VRef 10) (VNum 3) [VNum 4] h1) = Ok (VNum 3).
Proof.
  destruct (@mockReturnThis_returns_receiver example_natives 0 mock_heap 10
              (initial_state function_metadata) 18 19
              (closure MockImplementation 10 1) (closure MockReturnThis 10 0)
              (VNum 3) [VNum 4]
              eq_refl eq_refl eq_refl eq_refl eq_refl eq_refl eq_refl eq_refl)
    as (h1 & Hcall & _ & Hres).
  - intros t Ht. discriminate.
  - reflexivity.
  - left. reflexivity.
  - exists h1. split; [apply Hcall|exact Hres].
Defined.

Section Queues.
Context {N : Natives}.



(** X14: [getMockFunction] never fails and returns a new mock function
    named [mockConstructor], with empty ledgers and queues and nothing
    configured; where [Function.prototype] has no [_protoImpl], a call of
    it on any receiver of the old heap returns [undefined] and records the
    receiver and the argument list, changing nothing else. *)
Theorem fresh_mock_function (fuel : nat) (h : heap) (this : value)
    (args : list value) :
  lacks (length h) h FunctionPrototype "_protoImpl" = true ->
  (forall t, this = VRef t -> settled (length h) h t = true) ->
  exists hf f,
    getMockFunction h = (Ok (VRef f), hf) /\
    length h <= f /\
    (forall l o, h !! l = Some o -> hf !! l = Some o) /\
    mock_state hf f = Some (mkMockState false VUndef VUndef [] [] [] [] [] []) /\
    get_loc hf f "name" = VStr MOCK_CONSTRUCTOR_NAME /\
    call (S fuel) (VRef f) this args hf
    = (Ok VUndef,
       with_state f (mkMockState false VUndef VUndef [] [] [args] [this] [] [])
         hf).
Proof.
  intros Hlacks Hthis.
  set (hf := h ++ mock_objects (length h) MOCK_CONSTRUCTOR_NAME function_metadata).
  set (f := length h + 2).
  pose proof (mock_objects_function h [] MOCK_CONSTRUCTOR_NAME function_metadata)
    as Hf. rewrite app_nil_r in Hf. fold hf in Hf. fold f in Hf.
  assert (Hmk : getMockFunction h = (Ok (VRef f), hf)).
  { unfold getMockFunction. now apply makeComponent_function. }
  assert (Hst : mock_state hf f = Some (initial_state function_metadata)).
  { unfold mock_state. now rewrite Hf. }
  exists hf, f. split; [exact Hmk|]. split; [unfold f; lia|].
  split; [intros l o Ho; now apply lookup_app_l_Some|]. split; [exact Hst|]. split.
  { apply (get_loc_own _ _ _ (PData (VStr MOCK_CONSTRUCTOR_NAME))).
    unfold own_prop. now rewrite Hf. }
  assert (Hplain : fst (instanceof this f hf) = Ok false).
  { unfold instanceof. destruct this as [| | | | |t]; try reflexivity.
    rewrite (get_loc_own hf f "prototype" (PData (VRef (length h + 3))))
      by (unfold own_prop; now rewrite Hf).
    cbn [prop_value fst]. f_equal.
    specialize (Hthis t eq_refl).
    rewrite (chain_has_agree "prototype" (length h) h hf (length h + 3)
               (agrees_on_app _ h _) t (length hf) Hthis)
      by (unfold hf; rewrite length_app; lia).
    apply chain_has_below; [exact Hthis|lia]. }
  assert (Hproto : get_loc hf f "_protoImpl" = VUndef).
  { apply get_loc_lacks.
    assert (Hlen : length hf = S (length h + 11))
      by (unfold hf; rewrite length_app; simpl; lia).
    rewrite Hlen. cbn [lacks]. rewrite Hf. cbn [o_props o_proto lookup_prop].
    cbn -[lacks hf]. unfold hf.
    apply (lacks_mono (length h) h FunctionPrototype "_protoImpl" Hlacks); lia. }
  rewrite (call_mock fuel hf f _ this args Hst).
  rewrite (plain_call_eq (call fuel) hf f _ this args Hst Hplain).
  rewrite Hproto. reflexivity.
Qed.

End Queues.


Lemma fresh_mock_function_witness :
  exists hf,
    getMockFunction realm = (Ok (VRef 10), hf) /\
    fst (@call example_natives 1 (VRef 10) (VRef 0) [VNum 1] hf) = Ok VUndef.
Proof.
  destruct (@fresh_mock_function example_natives 0 realm (VRef 0) [VNum 1])
    as (hf & f & Hmk & _ & _ & _ & _ & Hcall).
  - reflexivity.
  - intros t [= <-]. reflexivity.
  - exists hf. assert (Hf : f = 10) by (vm_compute in Hmk; congruence).
    subst f. split; [exact Hmk|]. now rewrite Hcall.
Defined.

(** ** Generation: what it leaves alone, and its edge cases *)

Lemma getType_extends h h' l o :
  extends h h' -> h !! l = Some o -> getType h' (VRef l) = getType h (VRef l).
Proof.
  intros Hext Ho. destruct (Hext l o Ho) as (o' & Ho' & Htag & Harr & _).
  unfold getType, isA, isArray, toStringTag. now rewrite Ho, Ho', Htag, Harr.
Qed.

Lemma makeComponent_getType md h v hf :
  makeComponent md h = (Ok v, hf) -> is_shell md = true ->
  getType hf v = md_type md /\ exists l o, v = VRef l /\ hf !! l = Some o.
Proof.
  intros Hmk Hshell.
  destruct (makeComponent_cases md h)
    as [[Ht H]|[[Ht H]|[[Ht H]|[[Hs H]|[[Ht (label & _ & H)]|[e H]]]]]];
    rewrite H in Hmk; try congruence; injection Hmk as <- <-.
  1-3: split; [|eexists _, _; split;
                 [reflexivity|apply list_lookup_middle; reflexivity]];
       unfold getType, isA, isArray, toStringTag;
       rewrite list_lookup_middle by reflexivity; rewrite Ht; reflexivity.
  pose proof (mock_objects_function h [] label md) as Hf.
  rewrite app_nil_r in Hf. split.
  - unfold getType, isA, toStringTag. rewrite Hf, Ht. reflexivity.
  - eexists _, _. split; [reflexivity|exact Hf].
Qed.

Lemma generation_shell md h :
  intrinsics_plain h = true -> plain_tree h md = true -> is_shell md = true ->
  exists a hf (refs : refs_t),
    generateFromMetadata md h = (Ok (VRef a), hf) /\
    length h <= a < length hf /\
    (forall l o, h !! l = Some o -> hf !! l = Some o) /\
    getType hf (VRef a) = md_type md /\
    (forall k, k ∉ all_ids md -> refs !! k = None) /\
    (forall slot sm r,
       slot <> "__proto__" -> lookup_prop slot (members_of md) = Some sm ->
       md_ref sm = Some r ->
       own_prop hf a slot = Some (PData (refs_get refs r))).
Proof.
  intros Hint Hplain Hshell.
  destruct (generateMock_plain md h ([], ∅) Hint Hplain)
    as (mock & cbs & refs & added & Hgen & Hmock & Hrange & Hrefs & _).
  rewrite Hshell in Hmock. destruct Hmock as (a & -> & Ha & Hsound & Hcomplete).
  destruct (generateMock_component _ _ _ _ _ _ Hgen) as (h1 & Hmk & Hext).
  destruct (run_callbacks refs cbs (h ++ added)) as (hf & Hrun & Hlen & Hown).
  { intros cb Hcb. destruct (Hrange cb Hcb) as (l & Hl & Hr).
    exists l. split; [exact Hl|]. rewrite length_app. lia. }
  assert (Hg : extends (h ++ added) hf).
  { pose proof (grows_forEach cbs (run_callback refs)
                  (fun cb => grows_set _ _ _) (h ++ added)) as Hg.
    now rewrite Hrun in Hg. }
  exists a, hf, refs. split; [|split; [|split; [|split; [|split]]]].
  - unfold generateFromMetadata.
    bind_step ltac:(exact Hgen). cbn [fst app].
    bind_step ltac:(exact Hrun). reflexivity.
  - rewrite Hlen, length_app. lia.
  - intros l o Ho.
    rewrite (run_callbacks_frame refs cbs _ _ Hrun l).
    + now apply lookup_app_l_Some.
    + intros cb Hcb Heq. destruct (Hrange cb Hcb) as (l' & Hl' & Hge & _).
      rewrite Heq in Hl'. injection Hl' as <-.
      apply lookup_lt_Some in Ho. lia.
  - destruct (makeComponent_getType md h _ h1 Hmk Hshell)
      as (Hty & l & o & [= <-] & Ho).
    rewrite <- Hty.
    apply (getType_extends h1 hf a o); [|exact Ho].
    eapply extends_trans; eauto.
  - intros k Hk. rewrite (Hrefs k Hk). apply lookup_empty.
  - intros slot sm r Hn Hl Hr.
    assert (Hlast : last_write cbs a slot = Some r).
    { apply last_write_unique.
      - exists (mkCallback (VRef a) slot r). split; [|split; reflexivity].
        now apply (Hcomplete slot sm r).
      - intros cb Hcb Hm Hs.
        destruct (Hsound cb Hcb Hm) as (_ & _ & sm' & Hl' & Hr').
        rewrite Hs, Hl in Hl'. injection Hl' as <-. congruence. }
    pose proof (Hown a slot) as Hp. now rewrite Hlast in Hp.
Qed.

(** X15: generation from a plain tree with assignable members whose
    root is an object, an array, a regexp or a function only allocates:
    every object of the heap is afterwards what it was, and the result is a
    new object which [getType] classifies as the type the root asks for. *)
Theorem generation_frame (h : heap) (md : MockFunctionMetadata) :
  intrinsics_plain h = true -> plain_tree h md = true ->
  assignable_tree h md = true -> is_shell md = true ->
  exists a hf,
    generateFromMetadata md h = (Ok (VRef a), hf) /\
    length h <= a < length hf /\
    (forall l o, h !! l = Some o -> hf !! l = Some o) /\
    getType hf (VRef a) = md_type md.
Proof.
  intros Hint Hplain _ Hshell.
  destruct (generation_shell md h Hint Hplain Hshell)
    as (a & hf & refs & Hgen & Ha & Hold & Hty & _).
  exists a, hf. auto.
Qed.

Lemma generation_frame_witness :
  exists a hf,
    generateFromMetadata class_metadata realm = (Ok (VRef a), hf) /\
    length realm <= a < length hf /\
    (forall l o, realm !! l = Some o -> hf !! l = Some o) /\
    getType hf (VRef a) = Some "function".
Proof.
  exact (generation_frame realm class_metadata eq_refl eq_refl eq_refl eq_refl).
Defined.

(** X16: in a plain tree with assignable members, a member that
    back-references a number that no node of the tree carries as its id
    is still set on the generated object, to [undefined]: [refs[ref]] of a
    missing key. *)
Theorem dangling_reference_is_undefined (h : heap) (md : MockFunctionMetadata)
    (slot : string) (sm : MockFunctionMetadata) (r : nat) :
  intrinsics_plain h = true -> plain_tree h md = true ->
  assignable_tree h md = true -> is_shell md = true ->
  slot <> "__proto__" ->
  lookup_prop slot (members_of md) = Some sm -> md_ref sm = Some r ->
  r ∉ all_ids md ->
  exists a hf,
    generateFromMetadata md h = (Ok (VRef a), hf) /\
    own_prop hf a slot = Some (PData VUndef) /\
    has_own hf a slot = true /\
    get_loc hf a slot = VUndef.
Proof.
  intros Hint Hplain _ Hshell Hslot Hlk Href Hr.
  destruct (generation_shell md h Hint Hplain Hshell)
    as (a & hf & refs & Hgen & Ha & Hold & Hty & Hrefs & Hown).
  specialize (Hown slot sm r Hslot Hlk Href).
  unfold refs_get in Hown. rewrite (Hrefs r Hr) in Hown. cbn [default] in Hown.
  exists a, hf. split; [exact Hgen|]. split; [exact Hown|]. split.
  - unfold has_own. unfold own_prop in Hown.
    destruct (hf !! a); [now rewrite Hown|discriminate].
  - now rewrite (get_loc_own _ _ _ _ Hown).
Qed.

Lemma dangling_reference_is_undefined_witness :
  exists a hf,
    generateFromMetadata
      (Metadata None (Some [("lost", back_reference 7)]) VUndef VUndef (Some 0)
         (Some "object") VUndef) realm = (Ok (VRef a), hf) /\
    own_prop hf a "lost" = Some (PData VUndef) /\
    has_own hf a "lost" = true /\
    get_loc hf a "lost" = VUndef.
Proof.
  apply (dangling_reference_is_undefined realm
           (Metadata None (Some [("lost", back_reference 7)]) VUndef VUndef (Some 0)
              (Some "object") VUndef)
           "lost" (back_reference 7) 7 eq_refl eq_refl eq_refl eq_refl);
    [discriminate|reflexivity|reflexivity|].
  intros Hin. cbn in Hin. apply list_elem_of_singleton in Hin. discriminate.
Defined.

Lemma leaf_type_cases md :
  is_shell md = false -> known_type (md_type md) = true ->
  md_type md = Some "constant" \/ md_type md = Some "collection" \/
  md_type md = Some "undefined" \/ md_type md = Some "null".
Proof.
  unfold is_shell, type_is, known_type.
  destruct (md_type md) as [t|]; [|discriminate].
  intros Hs Hk. apply mem_string_elem_of in Hk. unfold known_types in Hk.
  repeat (apply elem_of_cons in Hk; destruct Hk as [ -> | Hk]);
    try discriminate; auto.
  now apply not_elem_of_nil in Hk.
Qed.

Lemma makeComponent_leaf md h :
  is_shell md = false -> known_type (md_type md) = true ->
  makeComponent md h = (Ok (md_value md), h).
Proof.
  intros Hs Hk.
  destruct (leaf_type_cases md Hs Hk) as [Ht|[Ht|[Ht|Ht]]];
    unfold makeComponent, type_is; rewrite Ht; reflexivity.
Qed.

Lemma members_loop_none generate mock (md : MockFunctionMetadata) st h :
  no_members md = true ->
  match md_members md with
  | Some ms => members_loop generate mock ms [] st
  | None => ret st
  end h = (Ok st, h).
Proof.
  unfold no_members. destruct (md_members md) as [[|kv ms]|]; try discriminate;
    reflexivity.
Qed.

(** X17: a node typed null or undefined, without members, generates
    [metadata.value] itself and leaves the heap alone.  A node typed
    constant or collection, without members, does the same when its value
    has no truthy [prototype], so the value is passed on, not copied; when
    its value is [undefined] or [null], reading [mock.prototype] raises a
    [TypeError]. *)
Theorem generate_leaf (h : heap) (md : MockFunctionMetadata) :
  no_members md = true ->
  (type_is md "null" || type_is md "undefined" = true ->
   generateFromMetadata md h = (Ok (md_value md), h)) /\
  (type_is md "constant" || type_is md "collection" = true ->
   (forall p, get_pure h (md_value md) "prototype" = Ok p -> truthy p = false ->
              generateFromMetadata md h = (Ok (md_value md), h)) /\
   (md_value md = VUndef \/ md_value md = VNull ->
    generateFromMetadata md h = (Throw TypeError, h))).
Proof.
  intros Hnone.
  assert (Hgen : forall t,
    md_type md = Some t ->
    t = "constant" \/ t = "collection" \/ t = "undefined" \/ t = "null" ->
    generateFromMetadata md h
    = (let* r := (do* relink_constructor md (md_value md) in
                  ret (md_value md,
                       match md_refID md with
                       | Some id => ([], <[id := md_value md]> ∅)
                       | None => ([], ∅)
                       end)) in
       let '(mock, (callbacks, refs)) := r in
       do* forEach callbacks (run_callback refs) in ret mock) h).
  { intros t Ht Hcase. unfold generateFromMetadata.
    rewrite generateMock_unfold.
    assert (Hmk : makeComponent md h = (Ok (md_value md), h)).
    { unfold makeComponent, type_is. rewrite Ht.
      destruct Hcase as [ -> | [ -> | [ -> | -> ] ] ]; reflexivity. }
    unfold bind at 1. unfold bind at 1. rewrite Hmk. cbv zeta.
    unfold bind at 1.
    rewrite (members_loop_none generateMock (md_value md) md _ h Hnone).
    unfold bind at 3. unfold bind at 3.
    destruct (md_refID md); reflexivity. }
  split.
  - intros Ht. apply orb_true_iff in Ht.
    assert (Hty : md_type md = Some "null" \/ md_type md = Some "undefined")
      by (destruct Ht as [Ht|Ht]; apply type_is_eq in Ht; auto).
    assert (Hrel : relink_constructor md (md_value md) h = (Ok tt, h)).
    { unfold relink_constructor, type_is.
      destruct Hty as [Hty|Hty]; rewrite Hty; reflexivity. }
    destruct Hty as [Hty|Hty]; rewrite (Hgen _ Hty) by auto;
      unfold bind; rewrite Hrel; destruct (md_refID md); reflexivity.
  - intros Ht. apply orb_true_iff in Ht.
    assert (Hty : md_type md = Some "constant" \/ md_type md = Some "collection")
      by (destruct Ht as [Ht|Ht]; apply type_is_eq in Ht; auto).
    assert (Hrel : relink_constructor md (md_value md) h
                   = (let* p := get (md_value md) "prototype" in
                      if truthy p then set p "constructor" (md_value md)
                      else ret tt) h).
    { unfold relink_constructor, type_is.
      destruct Hty as [Hty|Hty]; rewrite Hty; reflexivity. }
    assert (Hgen' : generateFromMetadata md h
      = (let* r := (do* relink_constructor md (md_value md) in
                    ret (md_value md,
                         match md_refID md with
                         | Some id => ([], <[id := md_value md]> ∅)
                         | None => ([], ∅)
                         end)) in
         let '(mock, (callbacks, refs)) := r in
         do* forEach callbacks (run_callback refs) in ret mock) h)
      by (destruct Hty as [Hty|Hty]; apply (Hgen _ Hty); auto).
    split.
    + intros p Hp Hfalsy. rewrite Hgen'. unfold bind at 1. unfold bind at 1.
      rewrite Hrel. unfold bind at 1. rewrite get_eq, Hp, Hfalsy.
      destruct (md_refID md); reflexivity.
    + intros Hv. rewrite Hgen'. unfold bind at 1. unfold bind at 1.
      rewrite Hrel. unfold bind at 1. rewrite get_eq.
      destruct Hv as [Hv|Hv]; rewrite Hv; reflexivity.
Qed.

Lemma generate_leaf_witness :
  generateFromMetadata (leaf_node "constant" (VNum 5)) realm = (Ok (VNum 5), realm) /\
  generateFromMetadata (leaf_node "constant" VUndef) realm = (Throw TypeError, realm) /\
  generateFromMetadata (leaf_node "undefined" VUndef) realm = (Ok VUndef, realm).
Proof.
  split; [|split].
  - apply (proj1 (proj2 (generate_leaf realm (leaf_node "constant" (VNum 5)) eq_refl)
                    eq_refl) VUndef); reflexivity.
  - apply (proj2 (proj2 (generate_leaf realm (leaf_node "constant" VUndef) eq_refl)
                    eq_refl)). now left.
  - apply (proj1 (generate_leaf realm (leaf_node "undefined" VUndef) eq_refl)).
    reflexivity.
Defined.

(** X18: a node typed constant, collection, null or undefined whose
    value is a primitive cannot carry a member that has to be built: the
    assignment [mock[slot] = ...] raises a [TypeError]. *)
Theorem member_on_primitive (h : heap) (md : MockFunctionMetadata)
    (slot : string) (sm : MockFunctionMetadata) (ms : members_t) :
  is_shell md = false -> known_type (md_type md) = true ->
  (forall l, md_value md <> VRef l) ->
  md_members md = Some ((slot, sm) :: ms) ->
  slot <> "__proto__" -> md_ref sm = None ->
  intrinsics_plain h = true -> plain_tree h sm = true ->
  fst (generateFromMetadata md h) = Throw TypeError.
Proof.
  intros Hs Hk Hprim Hms Hslot Href Hint Hplain.
  unfold generateFromMetadata. rewrite generateMock_unfold.
  unfold bind at 1. unfold bind at 1.
  rewrite (makeComponent_leaf md h Hs Hk). cbv zeta.
  set (st1 := match md_refID md with
              | Some id => _
              | None => _
              end).
  rewrite Hms. cbn [members_loop]. apply String.eqb_neq in Hslot.
  rewrite Hslot. cbn [mem_string existsb orb]. rewrite Href.
  destruct (generateMock_plain sm h st1 Hint Hplain)
    as (mock & cbs & refs & added & Hgen & _).
  unfold bind at 1. unfold bind at 1. unfold bind at 1. unfold bind at 1.
  rewrite Hgen. unfold bind at 1. cbn [fst].
  unfold set at 1.
  destruct (md_value md) as [| | | | |l]; try reflexivity.
  now destruct (Hprim l).
Qed.

Lemma member_on_primitive_witness :
  fst (generateFromMetadata
         (Metadata None (Some [("a", Metadata None None VUndef VUndef None
                                      (Some "object") VUndef)])
            VUndef VUndef None (Some "constant") (VNum 5)) realm)
  = Throw TypeError.
Proof.
  apply (member_on_primitive realm _ "a"
           (Metadata None None VUndef VUndef None (Some "object") VUndef) []);
    try reflexivity; try discriminate.
Defined.

(** ** Extraction: where members come from *)

Lemma keys_in_put (P : string -> Prop) slot m members :
  P slot -> keys_in P members -> keys_in P (members_put slot m members).
Proof.
  intros Hs Hm k.
  assert (Hput : default [] (members_put slot m members)
                 = members_set slot m (default [] members))
    by now destruct members.
  rewrite Hput, lookup_members_set.
  destruct (String.eqb k slot) eqn:E; [|apply Hm].
  apply String.eqb_eq in E. now subst k.
Qed.

Lemma keys_in_none (P : string -> Prop) : keys_in P None.
Proof. intros k [x Hx]. discriminate. Qed.

Section MemberKeys.
Context {N : Natives}.

(** A slot is put into the members only when the test for the mock
    surface, made first and on the heap as it is then, fails. *)
Lemma extract_slot_result extract fuel type c slot members s members' s' :
  extract_slot extract fuel type c slot members s = (Ok members', s') ->
  members' = members \/
  exists m, members' = members_put slot m members /\
            fst (is_mock_surface type c slot (snd s)) = Ok false.
Proof.
  unfold extract_slot. unfold bind at 1, on_heap at 1.
  destruct (is_mock_surface type c slot (snd s)) as [[skip| |] h1] eqn:Hskip;
    try discriminate.
  destruct skip; [intros [= <- _]; now left|].
  unfold bind at 1, on_heap at 1. cbn [fst snd].
  destruct (slot_is_own fuel type c slot h1) as [[own| |] h2]; try discriminate.
  destruct own; [|intros [= <- _]; now left].
  unfold bind at 1, on_heap at 1. cbn [fst snd].
  destruct (get c slot h2) as [[v| |] h3]; try discriminate.
  unfold bind at 1.
  destruct (extract v (fst s, h3)) as [[[m|]| |] s3]; try discriminate.
  - intros [= <- _]. right. exists m. auto.
  - intros [= <- _]. now left.
Qed.

Lemma each_slot_keys extract fuel h n type l (P : string -> Prop) :
  standard h = true -> l < length h -> extract_ok h n extract ->
  forall slots members refs,
    table_ok refs -> keys_recognized h refs -> unvisited refs h <= n ->
    keys_in P members ->
    (forall slot, slot ∈ slots ->
       fst (is_mock_surface type (VRef l) slot h) = Ok false -> P slot) ->
    exists members' refs',
      each_slot (extract_slot extract (S fuel) type (VRef l)) slots members
        (refs, h) = (Ok members', (refs', h)) /\
      grown refs refs' /\ keys_recognized h refs' /\ keys_in P members'.
Proof.
  intros Hstd Hl Hex slots.
  induction slots as [|slot slots IH]; intros members refs Hok Hk Hn Hm HP.
  - exists members, refs. split; [reflexivity|]. split; [apply grown_refl|]. auto.
  - destruct (extract_slot_standard extract fuel h n type l slot Hstd Hl Hex
                members refs Hok Hk Hn)
      as (members1 & refs1 & Heq1 & Hg1 & Hk1 & _).
    cbn [each_slot]. unfold bind at 1. rewrite Heq1.
    assert (Hm1 : keys_in P members1).
    { destruct (extract_slot_result _ _ _ _ _ _ _ _ _ Heq1)
        as [->|(m & -> & Hskip)]; [exact Hm|].
      apply keys_in_put; [|exact Hm].
      apply HP; [apply elem_of_cons; now left|exact Hskip]. }
    destruct (IH members1 refs1 (grown_ok _ _ Hok Hg1) Hk1)
      as (members2 & refs2 & Heq2 & Hg2 & Hk2 & Hm2); auto.
    { pose proof (unvisited_grown _ _ h Hg1). lia. }
    { intros s Hs. apply HP. apply elem_of_cons. now right. }
    exists members2, refs2. split; [exact Heq2|].
    split; [eapply grown_trans; eauto|]. auto.
Qed.

Lemma extract_members_keys extract fuel h n type l :
  standard h = true -> l < length h -> extract_ok h n extract ->
  forall refs,
    table_ok refs -> keys_recognized h refs -> unvisited refs h <= n ->
    exists members refs',
      extract_members extract (S fuel) type (VRef l) (refs, h)
      = (Ok members, (refs', h)) /\
      keys_in (member_origin h l type) members /\
      (type = "array" -> members = None).
Proof.
  intros Hstd Hl Hex refs Hok Hk Hn. unfold extract_members.
  destruct (String.eqb type "array") eqn:Earr; cbn [negb].
  { exists None, refs. split; [reflexivity|]. split; [apply keys_in_none|auto]. }
  apply String.eqb_neq in Earr.
  assert (Hslots : exists members1 refs1,
    (if negb (String.eqb type "undefined") then
       let* slots := on_heap (fun h => (Ok (getSlots h (VRef l)), h)) in
       each_slot (extract_slot extract (S fuel) type (VRef l)) slots None
     else ret None) (refs, h) = (Ok members1, (refs1, h)) /\
    grown refs refs1 /\ keys_recognized h refs1 /\
    keys_in (member_origin h l type) members1).
  { destruct (negb (String.eqb type "undefined")).
    - rewrite (bind_on_heap _ _ refs h (getSlots h (VRef l)) h) by reflexivity.
      apply (each_slot_keys extract fuel h n type l); auto.
      + apply keys_in_none.
      + intros slot Hs Hskip. left. split; [exact Hs|].
        intros -> Hmark. unfold is_mock_surface in Hskip. cbn in Hskip.
        unfold bind, get in Hskip. cbn in Hskip. rewrite Hmark in Hskip.
        cbn in Hskip. congruence.
    - exists None, refs. split; [reflexivity|]. split; [apply grown_refl|].
      split; [exact Hk|apply keys_in_none]. }
  destruct Hslots as (members1 & refs1 & Heq1 & Hg1 & Hk1 & Hm1).
  unfold bind at 1. rewrite Heq1.
  destruct (extract_prototype_standard extract h n type l Hex members1 refs1
              (grown_ok _ _ Hok Hg1) Hk1)
    as (members2 & refs2 & Heq2 & _ & _ & _).
  { pose proof (unvisited_grown _ _ h Hg1). lia. }
  exists members2, refs2. split; [exact Heq2|]. split; [|congruence].
  revert Heq2. unfold extract_prototype.
  destruct (String.eqb type "function") eqn:Efn; [|intros [= <- _]; exact Hm1].
  apply String.eqb_eq in Efn.
  rewrite (bind_on_heap _ _ refs1 h (get_loc h l "prototype") h) by reflexivity.
  destruct (truthy (get_loc h l "prototype")) eqn:Hp; [|intros [= <- _]; exact Hm1].
  unfold bind.
  destruct (extract (get_loc h l "prototype") (refs1, h)) as [[[pm|]| |] s3];
    try discriminate; [|intros [= <- _]; exact Hm1].
  destruct (md_members pm); [|intros [= <- _]; exact Hm1].
  intros [= <- _]. apply keys_in_put; [|exact Hm1]. right. auto.
Qed.

End MemberKeys.

Section FunctionFields.
Context {N : Natives}.

Lemma function_fields_value fuel h type l :
  standard h = true -> l < length h ->
  exists fields,
    function_fields (S fuel) type (VRef l) h = (Ok fields, h) /\
    (type <> "function" -> fields = (VUndef, VUndef)) /\
    (type = "function" ->
     fst fields = get_loc h l "name" /\
     (truthy (get_loc h l "_isMockFunction") = false -> snd fields = VUndef) /\
     (truthy (get_loc h l "_isMockFunction") = true ->
      exists g og f st,
        get_loc h l "getMockImplementation" = VRef g /\
        h !! g = Some og /\
        o_code og = Some (MockMethod GetMockImplementation f) /\
        mock_state h f = Some st /\ snd fields = mockImpl st)).
Proof.
  intros Hstd Hl. destruct (standard_at h l Hstd Hl) as [_ Hgetter].
  unfold function_fields. destruct (String.eqb type "function") eqn:Efn.
  2: { apply String.eqb_neq in Efn. exists (VUndef, VUndef).
       split; [reflexivity|]. split; [auto|contradiction]. }
  apply String.eqb_eq in Efn.
  bind_step ltac:(reflexivity). bind_step ltac:(reflexivity).
  cbn [get_pure].
  destruct (truthy (get_loc h l "_isMockFunction")) eqn:Hmark.
  2: { exists (get_loc h l "name", VUndef). split; [reflexivity|].
       split; [congruence|]. intros _. split; [reflexivity|].
       split; [auto|discriminate]. }
  specialize (Hgetter eq_refl). bind_step ltac:(reflexivity). cbn [get_pure].
  unfold genuine_getMockImplementation in Hgetter.
  destruct (get_loc h l "getMockImplementation") as [| | | | |g]; try discriminate.
  destruct (h !! g) as [o|] eqn:Ho; [|discriminate].
  destruct (o_code o) as [[| | |[] f|]|] eqn:Hc; try discriminate.
  destruct (mock_state h f) as [st|] eqn:Hst; [|discriminate].
  assert (Hcall : call (S fuel) (VRef g) (VRef l) [] h = (Ok (mockImpl st), h)).
  { simpl. rewrite Ho, Hc. simpl. unfold getMockImplementation.
    erewrite bind_ok by (apply read_state_eq; eauto). reflexivity. }
  bind_step ltac:(exact Hcall).
  exists (get_loc h l "name", mockImpl st). split; [reflexivity|].
  split; [congruence|]. intros _. split; [reflexivity|].
  split; [discriminate|]. intros _. exists g, o, f, st. auto.
Qed.

Lemma getMetadata_top_standard fuel h l type :
  standard h = true -> length h < fuel ->
  getType h (VRef l) = Some type -> is_leaf_type type = false ->
  exists fuel' fields members,
    fuel = S (S fuel') /\
    function_fields (S fuel') type (VRef l) h = (Ok fields, h) /\
    getMetadata_top fuel (VRef l) h
    = (Ok (Some (Metadata None members (snd fields) (fst fields) (Some 0)
                   (Some type) VUndef)), h) /\
    keys_in (member_origin h l type) members /\
    (type = "array" -> members = None).
Proof.
  intros Hstd Hfuel Htype Hleaf.
  destruct (getType_object h _ type Htype Hleaf) as (l' & [= <-] & Hl).
  destruct fuel as [|[|fuel]]; try lia.
  destruct (function_fields_value fuel h type l Hstd Hl) as (fields & Hf & _).
  assert (Hk1 : keys_recognized h [(VRef l, 0)]).
  { apply (keys_recognized_register h [] (VRef l) type); [|exact Htype].
    intros k id. discriminate. }
  assert (Hok1 : table_ok [(VRef l, 0)]) by reflexivity.
  assert (Hn : unvisited [(VRef l, 0)] h < S fuel).
  { pose proof (unvisited_register [] h l 0 eq_refl Hl) as Hdec.
    pose proof (unvisited_le [] h). simpl in Hdec. lia. }
  destruct (extract_members_keys (getMetadata (S fuel)) fuel h
              (unvisited [(VRef l, 0)] h) type l Hstd Hl
              (getMetadata_standard h Hstd (S fuel) _ Hn)
              [(VRef l, 0)] Hok1 Hk1 (Nat.le_refl _))
    as (members & refs' & Heq & Hkeys & Harr).
  exists fuel, fields, members. split; [reflexivity|]. split; [exact Hf|].
  split; [|auto].
  unfold getMetadata_top.
  rewrite (getMetadata_full (S fuel) (VRef l) [] h type eq_refl Htype Hleaf).
  rewrite Hf. cbn [length app]. rewrite Heq. reflexivity.
Qed.

(** X19: in a standard heap, every member of the metadata extracted for
    an object is named by [getSlots] for that object, or is the
    [prototype] of a function whose [prototype] is truthy; for a mock
    function no member has a name that starts with [mock], so its
    configuration methods and its ledger are not described; an array gets
    no members at all. *)
Theorem extracted_members (fuel : nat) (h : heap) (l : loc) (type : string) :
  standard h = true -> length h < fuel ->
  getType h (VRef l) = Some type -> is_leaf_type type = false ->
  exists md,
    getMetadata_top fuel (VRef l) h = (Ok (Some md), h) /\
    (forall k, is_Some (lookup_prop k (members_of md)) ->
               member_origin h l type k) /\
    (type = "array" -> md_members md = None).
Proof.
  intros Hstd Hfuel Htype Hleaf.
  destruct (getMetadata_top_standard fuel h l type Hstd Hfuel Htype Hleaf)
    as (fuel' & fields & members & _ & _ & Heq & Hkeys & Harr).
  eexists. split; [exact Heq|]. split; [|exact Harr].
  intros k Hk. apply Hkeys. unfold members_of in Hk. cbn [md_members] in Hk.
  now destruct members.
Qed.

(** X20: in a standard heap, the metadata extracted for a function has
    the [name] of the function; its [mockImpl] is what
    [getMockImplementation] returns, the persistent implementation, when
    the function is marked as a mock, and [undefined] otherwise.  For an
    object, an array or a regexp both fields are [undefined]. *)
Theorem extracted_function_fields (fuel : nat) (h : heap) (l : loc)
    (type : string) :
  standard h = true -> length h < fuel ->
  getType h (VRef l) = Some type -> is_leaf_type type = false ->
  exists md,
    getMetadata_top fuel (VRef l) h = (Ok (Some md), h) /\
    md_type md = Some type /\ md_refID md = Some 0 /\ md_value md = VUndef /\
    (type <> "function" -> md_name md = VUndef /\ md_mockImpl md = VUndef) /\
    (type = "function" ->
     md_name md = get_loc h l "name" /\
     (truthy (get_loc h l "_isMockFunction") = false -> md_mockImpl md = VUndef) /\
     (truthy (get_loc h l "_isMockFunction") = true ->
      exists g og f st,
        get_loc h l "getMockImplementation" = VRef g /\
        h !! g = Some og /\
        o_code og = Some (MockMethod GetMockImplementation f) /\
        mock_state h f = Some st /\ md_mockImpl md = mockImpl st)).
Proof.
  intros Hstd Hfuel Htype Hleaf.
  destruct (getType_object h _ type Htype Hleaf) as (l' & [= <-] & Hl).
  destruct (getMetadata_top_standard fuel h l type Hstd Hfuel Htype Hleaf)
    as (fuel' & fields & members & _ & Hf & Heq & _).
  destruct (function_fields_value fuel' h type l Hstd Hl)
    as (fields' & Hf' & Hother & Hfn).
  rewrite Hf in Hf'. injection Hf' as <-.
  eexists. split; [exact Heq|]. cbn [md_type md_refID md_value md_name md_mockImpl].
  split; [reflexivity|]. split; [reflexivity|]. split; [reflexivity|]. split.
  - intros Hne. now rewrite (Hother Hne).
  - exact Hfn.
Qed.

(** X21: arrays are left alone.  The metadata extracted for an array is
    [{type: 'array', refID: 0}], whatever the array holds, and generation
    from it builds a new empty array. *)
Theorem array_round_trip (fuel : nat) (h : heap) (c : value) :
  getType h c = Some "array" -> intrinsics_plain h = true ->
  let md := Metadata None None VUndef VUndef (Some 0) (Some "array") VUndef in
  getMetadata_top (S fuel) c h = (Ok (Some md), h) /\
  generateFromMetadata md h = (Ok (VRef (length h)), h ++ [empty_array]) /\
  getType (h ++ [empty_array]) (VRef (length h)) = Some "array".
Proof.
  intros Htype Hint md. split; [|split].
  - unfold getMetadata_top.
    rewrite (getMetadata_full fuel c [] h "array" eq_refl Htype eq_refl).
    assert (Hf : function_fields fuel "array" c h = (Ok (VUndef, VUndef), h))
      by reflexivity.
    rewrite Hf. reflexivity.
  - assert (Hmk : makeComponent md h = (Ok (VRef (length h)), h ++ [empty_array]))
      by reflexivity.
    assert (Hrel : relink_constructor md (VRef (length h)) (h ++ [empty_array])
                   = (Ok tt, h ++ [empty_array])).
    { unfold relink_constructor.
      replace (negb (type_is md "undefined") && negb (type_is md "null"))
        with true by reflexivity.
      assert (Hp : get_loc (h ++ [empty_array]) (length h) "prototype" = VUndef).
      { apply get_loc_lacks. rewrite length_app. cbn [length].
        replace (length h + 1) with (S (length h)) by lia. cbn [lacks].
        rewrite list_lookup_middle by reflexivity.
        cbn [o_props empty_array lookup_prop o_proto].
        cbn -[lacks].
        unfold intrinsics_plain in Hint. apply andb_true_iff in Hint as [Hint _].
        apply andb_true_iff in Hint as [_ Harr].
        apply (lacks_mono _ _ _ _ Harr). lia. }
      unfold bind, get. cbn [get_pure]. now rewrite Hp. }
    assert (Hgen : generateMock md ([], ∅) h
                   = (Ok (VRef (length h), ([], <[0 := VRef (length h)]> ∅)),
                      h ++ [empty_array])).
    { rewrite generateMock_unfold.
      bind_step ltac:(exact Hmk). cbv zeta.
      change (md_members md) with (@None members_t).
      change (md_refID md) with (Some 0).
      bind_step ltac:(reflexivity). bind_step ltac:(exact Hrel). reflexivity. }
    unfold generateFromMetadata. bind_step ltac:(exact Hgen). reflexivity.
  - unfold getType, isA, isArray, toStringTag.
    rewrite list_lookup_middle by reflexivity. reflexivity.
Qed.

End FunctionFields.

Lemma extracted_members_witness :
  exists md,
    @getMetadata_top example_natives 23 (VRef 10) mock_heap
    = (Ok (Some md), mock_heap) /\
    (forall k, is_Some (lookup_prop k (members_of md)) ->
               member_origin mock_heap 10 "function" k) /\
    ("function" = "array" -> md_members md = None).
Proof.
  apply (@extracted_members example_natives 23 mock_heap 10 "function").
  - vm_compute. reflexivity.
  - vm_compute. lia.
  - reflexivity.
  - reflexivity.
Defined.

Lemma extracted_function_fields_witness :
  exists md,
    @getMetadata_top example_natives 23 (VRef 10) mock_heap
    = (Ok (Some md), mock_heap) /\
    md_name md = VStr "mockConstructor".
Proof.
  destruct (@extracted_function_fields example_natives 23 mock_heap 10 "function")
    as (md & Heq & _ & _ & _ & _ & Hfn).
  - vm_compute. reflexivity.
  - vm_compute. lia.
  - reflexivity.
  - reflexivity.
  - exists md. split; [exact Heq|]. now rewrite (proj1 (Hfn eq_refl)).
Defined.

Lemma array_round_trip_witness :
  @getMetadata_top example_natives 1 (VRef 8) array_heap
  = (Ok (Some (Metadata None None VUndef VUndef (Some 0) (Some "array") VUndef)),
     array_heap) /\
  generateFromMetadata
    (Metadata None None VUndef VUndef (Some 0) (Some "array") VUndef) array_heap
  = (Ok (VRef 9), array_heap ++ [empty_array]).
Proof.
  destruct (@array_round_trip example_natives 0 array_heap (VRef 8) eq_refl eq_refl)
    as (H1 & H2 & _).
  split; [exact H1|exact H2].
Defined.

(** ** [new] on a mock function, and the slots of a mock function *)

Lemma agrees_on_trans p h1 h2 h3 :
  agrees_on p h1 h2 -> agrees_on p h2 h3 -> agrees_on p h1 h3.
Proof.
  intros H12 H23 l o Ho.
  destruct (H12 l o Ho) as (o2 & Ho2 & Hp2 & Hl2).
  destruct (H23 l o2 Ho2) as (o3 & Ho3 & Hp3 & Hl3).
  exists o3. split; [exact Ho3|]. split; congruence.
Qed.

Section Construct.
Context {N : Natives}.

(** X22: [new f(...)] on a mock function that is not bound, whose
    [prototype] is an object, whose template has members that can be
    assigned, and that has no persistent implementation, returns the new
    object, whose prototype is [f.prototype]; the call is recorded with
    that object as its instance, no other closure variable changes, and no
    other object of the heap is touched. *)
Theorem new_returns_instance (fuel : nat) (h : heap) (f : loc) (st : MockState)
    (p : loc) (args : list value) :
  mock_state h f = Some st ->
  get_loc h f "prototype" = VRef p ->
  settled (length h) h f = true -> settled (length h) h p = true ->
  prototypeSlots st = getSlots_members (Some (prototype st)) ->
  intrinsics_plain h = true -> template_plain h st = true ->
  template_assignable h st p = true ->
  mockImpl st = VUndef ->
  not_bound h f ->
  exists hf,
    construct (S fuel) f args h = (Ok (VRef (length h)), hf) /\
    getPrototypeOf hf (length h) = Some p /\
    mock_state hf f
    = Some (mkMockState (isReturnValueLastSet st) (defaultReturnValue st)
              (mockImpl st) (specificReturnValues st) (specificMockImpls st)
              (calls st ++ [args]) (instances st ++ [VRef (length h)])
              (prototype st) (prototypeSlots st)) /\
    (forall l o, h !! l = Some o -> l <> f -> hf !! l = Some o).
Proof.
  intros Hst Hproto Hsf Hsp Hslots Hint Htpl _ Himpl _.
  set (t := length h).
  set (this := mkObj "Object" false (Some p) [] None).
  set (h' := h ++ [this]).
  set (h1 := with_state f (recorded (VRef t) args st) h').
  destruct (mock_state_lookup _ _ _ Hst) as (o1 & Hof & Hcf).
  pose proof (lookup_lt_Some _ _ _ Hof) as Hf.
  assert (Hst' : mock_state h' f = Some st).
  { unfold mock_state, h'. now rewrite (lookup_app_l_Some _ _ _ _ Hof), Hcf. }
  assert (Hag : forall q, agrees_on q h h1).
  { intros q. eapply agrees_on_trans; [apply agrees_on_app|].
    apply agrees_on_with_state. }
  assert (Hlen1 : length h1 = S (length h)).
  { unfold h1. rewrite length_with_state. unfold h'. rewrite length_app.
    simpl. lia. }
  assert (Ht1 : h1 !! t = Some this).
  { unfold h1. rewrite lookup_with_state_ne by (unfold t; lia).
    unfold h', t. now apply list_lookup_middle. }
  assert (Hinst : fst (instanceof (VRef t) f h') = Ok true).
  { unfold instanceof.
    rewrite (get_loc_agree "prototype" h h' f (agrees_on_app _ _ _) Hsf), Hproto.
    cbn [fst]. f_equal.
    assert (Hp : getPrototypeOf h' t = Some p).
    { unfold getPrototypeOf, h', t. now rewrite list_lookup_middle. }
    rewrite Hp. destruct (length h'); simpl; now rewrite Nat.eqb_refl. }
  destruct (template_plain_inv h st Htpl) as [Hnp Hplain].
  destruct (install_all st t h1) with (todo := prototypeSlots st)
    (done := @nil string) (h := h1) as (h2 & Hrun & Hinst2).
  - apply (intrinsics_plain_agree h h1 (Hag _) Hint).
  - rewrite Hlen1. cbn [settled]. rewrite Ht1. cbn [o_proto this].
    apply (settled_agree "prototype" (length h) h h1 p (Hag _) Hsp). lia.
  - exact Hnp.
  - intros s sm Hlk Hfn. apply (plain_tree_agree h h1 sm (Hag _)). eauto.
  - rewrite Hslots. apply NoDup_getSlots_members.
  - intros s Hs. rewrite Hslots in Hs. now apply elem_of_getSlots_members in Hs.
  - exact (installed_start st t h1 this Ht1).
  - cbn [app] in Hinst2.
    assert (Hcall : call (S fuel) (VRef f) (VRef t) args h' = (Ok VUndef, h2)).
    { rewrite (call_mock fuel h' f st (VRef t) args Hst').
      rewrite (constructor_call_eq (call fuel) h' f st (VRef t) args Hst' Hinst).
      fold h1. rewrite Hrun, Himpl. reflexivity. }
    destruct Hinst2 as (Hlen & Hold & (o0 & o & Ho0 & Ho & Hk & _) & _).
    exists h2. split; [|split; [|split]].
    + unfold construct. unfold bind at 1, get at 1. cbn [get_pure].
      rewrite Hproto. unfold bind at 1, alloc at 1. fold this h' t.
      unfold bind. rewrite Hcall. reflexivity.
    + unfold getPrototypeOf. fold t. rewrite Ho.
      destruct Hk as (_ & _ & -> & _).
      assert (o0 = this) by congruence. now subst o0.
    + pose proof (grows_forEach (prototypeSlots st) (install_slot st (VRef t))
                    (grows_install_slot st (VRef t)) h1) as Hg.
      rewrite Hrun in Hg. cbn [snd] in Hg.
      eapply extends_mock_state; [exact Hg|].
      apply (mock_state_with_state h' f st (recorded (VRef t) args st) Hst').
    + intros l o' Hl Hne. apply Hold.
      * unfold h1. rewrite lookup_with_state_ne by exact Hne.
        now apply lookup_app_l_Some.
      * apply lookup_lt_Some in Hl. unfold t. lia.
Qed.

End Construct.

Lemma new_returns_instance_witness :
  exists hf,
    @construct example_natives 1 10 [VNum 3] class_heap = (Ok (VRef 33), hf) /\
    getPrototypeOf hf 33 = Some 20 /\
    (calls <$> mock_state hf 10) = Some [[VNum 3]] /\
    (instances <$> mock_state hf 10) = Some [VRef 33].
Proof.
  assert (H1 : mock_state class_heap 10 = Some (initial_state class_metadata))
    by (vm_compute; reflexivity).
  assert (H2 : get_loc class_heap 10 "prototype" = VRef 20)
    by (vm_compute; reflexivity).
  assert (H3 : settled (length class_heap) class_heap 10 = true)
    by (vm_compute; reflexivity).
  assert (H4 : settled (length class_heap) class_heap 20 = true)
    by (vm_compute; reflexivity).
  assert (H5 : intrinsics_plain class_heap = true) by (vm_compute; reflexivity).
  assert (H6 : template_plain class_heap (initial_state class_metadata) = true)
    by (vm_compute; reflexivity).
  assert (H7 : not_bound class_heap 10)
    by (exists "Greeter"; split; vm_compute; reflexivity).
  assert (H8 : template_assignable class_heap (initial_state class_metadata) 20
               = true) by (vm_compute; reflexivity).
  destruct (@new_returns_instance example_natives 0 class_heap 10
              (initial_state class_metadata) 20 [VNum 3]
              H1 H2 H3 H4 eq_refl H5 H6 H8 eq_refl H7)
    as (hf & Hc & Hp & Hs & _).
  exists hf. split; [exact Hc|]. split; [exact Hp|].
  rewrite Hs. split; reflexivity.
Defined.

(** X23: the slots of a mock function that [makeComponent] has just
    built and that is not bound, in any heap: its [prototype], the marker,
    and the methods and the ledger set on it, in the order of the
    assignments, [mockImpl] before [mockImplementation]; the read-only
    [length] and [name] are left out, and nothing is taken from
    [Function.prototype]. *)
Theorem mock_function_slots (md : MockFunctionMetadata) (h : heap) (f : loc)
    (hf : heap) :
  type_is md "function" = true ->
  makeComponent md h = (Ok (VRef f), hf) ->
  not_bound hf f ->
  getSlots hf (VRef f)
  = [ "prototype"; "_isMockFunction"; "getMockImplementation"; "mock";
      "mockClear"; "mockReturnValueOnce"; "mockReturnValue";
      "mockImplementationOnce"; "mockImpl"; "mockImplementation";
      "mockReturnThis" ].
Proof.
  intros Hfn Hmk _.
  destruct (makeComponent_cases md h)
    as [[Ht H]|[[Ht H]|[[Ht H]|[[Hs H]|[[Ht (label & _ & H)]|[e H]]]]]];
    try (apply type_is_eq in Hfn; congruence).
  { unfold is_shell in Hs. rewrite Hfn, !orb_true_r in Hs. discriminate. }
  rewrite H in Hmk. injection Hmk as <- <-.
  pose proof (mock_objects_function h [] label md) as Hf.
  rewrite app_nil_r in Hf.
  set (hf := h ++ mock_objects (length h) label md) in *.
  set (f := length h + 2) in *.
  assert (Hlen : length hf = S (length h + 11))
    by (unfold hf; rewrite length_app; simpl; lia).
  assert (Hne : Nat.eqb f FunctionPrototype = false)
    by (apply Nat.eqb_neq; unfold f, FunctionPrototype; lia).
  unfold getSlots. cbn [truthy negb]. rewrite Hlen.
  unfold getPrototypeOf at 1. rewrite Hf. cbn [o_proto].
  cbn [getSlots_loop]. rewrite Hne, Hf.
  assert (Hown : own_slots hf f
            (mkObj "Function" false (Some FunctionPrototype)
               [ ("length", PData (VNum 0));
                 ("name", PData (VStr label));
                 ("prototype", PData (VRef (length h + 3)));
                 ("_isMockFunction", PData (VBool true));
                 ("getMockImplementation", PData (VRef (length h + 4)));
                 ("mock", PData (VRef (length h + 5)));
                 ("mockClear", PData (VRef (length h + 6)));
                 ("mockReturnValueOnce", PData (VRef (length h + 7)));
                 ("mockReturnValue", PData (VRef (length h + 8)));
                 ("mockImplementationOnce", PData (VRef (length h + 9)));
                 ("mockImpl", PData (VRef (length h + 10)));
                 ("mockImplementation", PData (VRef (length h + 10)));
                 ("mockReturnThis", PData (VRef (length h + 11))) ]
               (Some (MockConstructor (initial_state md)))) []
          = [ "prototype"; "_isMockFunction"; "getMockImplementation"; "mock";
              "mockClear"; "mockReturnValueOnce"; "mockReturnValue";
              "mockImplementationOnce"; "mockImpl"; "mockImplementation";
              "mockReturnThis" ]).
  { unfold own_slots, isReadonlyProp, isA, toStringTag. rewrite Hf.
    cbn [o_props o_tag fold_left is_getter negb orb].
    reflexivity. }
  rewrite Hown.
  destruct (getPrototypeOf hf FunctionPrototype); [|reflexivity].
  destruct (length h + 11); reflexivity.
Qed.

Lemma mock_function_slots_witness :
  getSlots mock_heap (VRef 10)
  = [ "prototype"; "_isMockFunction"; "getMockImplementation"; "mock";
      "mockClear"; "mockReturnValueOnce"; "mockReturnValue";
      "mockImplementationOnce"; "mockImpl"; "mockImplementation";
      "mockReturnThis" ].
Proof.
  assert (H : getSlots (snd (makeComponent function_metadata realm)) (VRef 10)
              = getSlots mock_heap (VRef 10)) by (vm_compute; reflexivity).
  rewrite <- H.
  apply (mock_function_slots function_metadata realm 10
           (snd (makeComponent function_metadata realm)));
    [reflexivity|reflexivity|].
  exists MOCK_CONSTRUCTOR_NAME. split; reflexivity.
Defined.
